(** * Repo health inspector: finding detection and Jira reconciliation

    A shallow embedding of [inspectRepo] (scripts/inspect_repo.js): the
    checklist that turns a repository listing into findings, and the loop
    that searches, updates or creates one Jira ticket per finding and
    recovers from an invalid project key by asking the operator.

    JavaScript strings are modelled as [string] (sequences of bytes); the
    built-ins [toLowerCase], [toUpperCase] and [trim] are modelled on the
    ASCII range and leave every other byte unchanged. *)

From Stdlib Require Import String Ascii List Bool Arith ZArith Lia.
From Stdlib Require Import DecimalString DecimalNat.
From Stdlib Require FinFun.
Import ListNotations.
Local Open Scope string_scope.
Local Open Scope list_scope.
Local Open Scope nat_scope.

Set Implicit Arguments.

(** ** JavaScript built-ins used by the script *)

Module Js.

Definition dquote : ascii := "034"%char.
Definition backslash : ascii := "092"%char.
Definition newline : string := String "010"%char EmptyString.

Definition lowerChar (c : ascii) : ascii :=
  let n := nat_of_ascii c in
  if (65 <=? n) && (n <=? 90) then ascii_of_nat (n + 32) else c.

Definition upperChar (c : ascii) : ascii :=
  let n := nat_of_ascii c in
  if (97 <=? n) && (n <=? 122) then ascii_of_nat (n - 32) else c.

Fixpoint mapString (f : ascii -> ascii) (s : string) : string :=
  match s with
  | EmptyString => EmptyString
  | String c r => String (f c) (mapString f r)
  end.

(** [String.prototype.toLowerCase] and [toUpperCase]. *)
Definition toLowerCase : string -> string := mapString lowerChar.
Definition toUpperCase : string -> string := mapString upperChar.

(** [Array.prototype.includes] on an array of strings. *)
Definition arrayIncludes (xs : list string) (x : string) : bool :=
  existsb (String.eqb x) xs.

(** [String.prototype.includes]: [needle] occurs somewhere in [hay]. *)
Fixpoint includes (hay needle : string) : bool :=
  String.prefix needle hay ||
  match hay with
  | EmptyString => false
  | String _ r => includes r needle
  end.

(** White space and line terminators of the ASCII range. *)
Definition isSpace (c : ascii) : bool :=
  let n := nat_of_ascii c in
  ((9 <=? n) && (n <=? 13)) || (n =? 32).

Fixpoint trimStart (s : string) : string :=
  match s with
  | String c r => if isSpace c then trimStart r else s
  | EmptyString => EmptyString
  end.

Fixpoint trimEnd (s : string) : string :=
  match s with
  | EmptyString => EmptyString
  | String c r =>
      match trimEnd r with
      | EmptyString => if isSpace c then EmptyString else String c EmptyString
      | r' => String c r'
      end
  end.

(** [String.prototype.trim]. *)
Definition trim (s : string) : string := trimEnd (trimStart s).

(** Value of a digit in the given radix. *)
Definition digitValue (radix : Z) (c : ascii) : option Z :=
  (let n := Z.of_nat (nat_of_ascii c) in
   let v :=
     if (48 <=? n) && (n <=? 57) then Some (n - 48)
     else if (97 <=? n) && (n <=? 122) then Some (n - 87)
     else if (65 <=? n) && (n <=? 90) then Some (n - 55)
     else None in
   match v with
   | Some d => if d <? radix then Some d else None
   | None => None
   end)%Z.

(** Longest prefix of digits, read left to right; [None] when the prefix
    is empty. *)
Fixpoint readDigits (radix : Z) (acc : option Z) (s : string) : option Z :=
  match s with
  | EmptyString => acc
  | String c r =>
      match digitValue radix c with
      | Some d =>
          readDigits radix
            (Some (match acc with Some a => a * radix + d | None => d end)%Z) r
      | None => acc
      end
  end.

(** [parseInt(s)] without a radix: leading white space is skipped, a sign
    is read, a [0x]/[0X] prefix selects radix 16, and the longest prefix
    of digits is converted.  [None] stands for [NaN].  The result is used
    only in comparisons against 0 and an array length, on which the exact
    integer and its rounding to a double agree. *)
Definition parseInt (s : string) : option Z :=
  let s1 := trimStart s in
  let '(sign, s2) :=
    match s1 with
    | String "-" r => ((-1)%Z, r)
    | String "+" r => (1%Z, r)
    | _ => (1%Z, s1)
    end in
  let '(radix, s3) :=
    match s2 with
    | String "0" (String "x" r) => (16%Z, r)
    | String "0" (String "X" r) => (16%Z, r)
    | _ => (10%Z, s2)
    end in
  match readDigits radix None s3 with
  | Some m => Some (sign * m)%Z
  | None => None
  end.

(** [s.replace(/x/g, r)] for a single character [x]. *)
Fixpoint replaceChar (x : ascii) (r : string) (s : string) : string :=
  match s with
  | EmptyString => EmptyString
  | String c t =>
      if Ascii.eqb c x then (r ++ replaceChar x r t)%string
      else String c (replaceChar x r t)
  end.

Definition hexDigit (n : nat) : ascii :=
  if n <? 10 then ascii_of_nat (48 + n) else ascii_of_nat (87 + n).

(** One character of [QuoteJSONString]. *)
Definition quoteJSONChar (c : ascii) : string :=
  let n := nat_of_ascii c in
  let esc (x : ascii) := String backslash (String x EmptyString) in
  if n =? 8 then esc "b"%char
  else if n =? 9 then esc "t"%char
  else if n =? 10 then esc "n"%char
  else if n =? 12 then esc "f"%char
  else if n =? 13 then esc "r"%char
  else if n =? 34 then esc dquote
  else if n =? 92 then esc backslash
  else if n <? 32 then
    String backslash
      (String "u" (String "0" (String "0"
        (String (hexDigit (n / 16)) (String (hexDigit (n mod 16)) EmptyString)))))
  else String c EmptyString.

Fixpoint quoteJSONBody (s : string) : string :=
  match s with
  | EmptyString => EmptyString
  | String c r => (quoteJSONChar c ++ quoteJSONBody r)%string
  end.

(** [JSON.stringify] applied to a string. *)
Definition JSON_stringify (s : string) : string :=
  String dquote (quoteJSONBody s ++ String dquote EmptyString)%string.

End Js.

(** ** Data model *)

(** A finding as pushed onto [findings]. *)
Record Finding := { summary : string; description : string }.

(** What the script reads of a Jira issue ([.key]) and of a Jira project
    ([.key], [.name]). *)
Record Issue := { issue_key : string }.
Record Project := { project_key : string; project_name : string }.

(** A thrown value; [message] is [None] when [err.message] is undefined. *)
Record JsError := { message : option string }.

(** The result of awaiting a service call. *)
Inductive result (A : Type) : Type :=
| Ok (a : A)
| Throw (e : JsError).
Arguments Ok {A} a.
Arguments Throw {A} e.

(** Lines written with [console.log] / [console.error] from line 80 on. *)
Inductive Console : Type :=
| ReadmeMissing | ReadmeFound
| LicenseMissing | LicenseFound
| GitignoreMissing | GitignoreFound
| WorkflowsMissing | WorkflowsFound (n : nat)
| NoIssuesFound
| FoundIssues (n : nat)
| UpdatedLine (key smry : string)
| CreatedLine (key smry : string)
| InvalidProjectKey (key : string)
| FetchingProjects
| NoProjectsFound
| AvailableProjects
| ProjectOption (index : nat) (key name : string)
| RetryingWith (key : string)
| ErrorFetchingProjects (msg : option string)
| FailedToProcess (smry : string) (msg : option string)
| UnexpectedError (msg : option string).

(** Everything the script does to the outside, in the order it happens:
    service calls with their arguments and what they returned, prompts with
    the answer typed, console lines, and closing the readline interface. *)
Inductive Event : Type :=
| EvRootFiles (repo : string) (r : result (list string))
| EvDirFiles (repo dir : string) (r : result (list string))
| EvSearch (jql : string) (r : result (list Issue))
| EvUpdate (key smry descr : string) (r : result unit)
| EvCreate (project smry descr issueType : string) (r : result Issue)
| EvProjects (r : result (list Project))
| EvQuestion (query answer : string)
| EvConsole (line : Console)
| EvClose.

(** The per-finding outcome the console reports. *)
Inductive Outcome : Type :=
| created (key smry : string)
| updated (key smry : string)
| abandoned (smry : string) (error : option string).

Definition outcomeOf (ev : Event) : list Outcome :=
  match ev with
  | EvConsole (CreatedLine k s) => [created k s]
  | EvConsole (UpdatedLine k s) => [updated k s]
  | EvConsole (FailedToProcess s m) => [abandoned s m]
  | _ => []
  end.

Definition outcomes (tr : list Event) : list Outcome := flat_map outcomeOf tr.

(** The services required from [../githubService] and [../jiraService], and
    the readline prompt; each acts on the outside world [W]. *)
Class Services (W : Type) : Type := {
  getRepoRootFiles : string -> W -> result (list string) * W;
  getRepoDirectoryFiles : string -> string -> W -> result (list string) * W;
  searchIssues : string -> W -> result (list Issue) * W;
  updateIssue : string -> string -> string -> W -> result unit * W;
  createIssue : string -> string -> string -> string -> W -> result Issue * W;
  getProjects : W -> result (list Project) * W;
  askQuestion : string -> W -> string * W
}.

(** ** The checklist (lines 80-129) *)

Section Checklist.

Variable repoName : string.

Definition repoLink : string :=
  ("[" ++ repoName ++ "|https://github.com/" ++ repoName ++ "]")%string.

Definition readmeFinding : Finding :=
  {| summary := ("Missing README in " ++ repoName)%string;
     description := ("The repository " ++ repoLink ++
       " is missing a README file. Please add a README.md to document the project.")%string |}.

Definition licenseFinding : Finding :=
  {| summary := ("Missing LICENSE in " ++ repoName)%string;
     description := ("The repository " ++ repoLink ++
       " is missing a LICENSE file. Please add an appropriate open source license.")%string |}.

Definition gitignoreFinding : Finding :=
  {| summary := ("Missing .gitignore in " ++ repoName)%string;
     description := ("The repository " ++ repoLink ++
       " is missing a .gitignore file. This is essential to prevent committing temporary or sensitive files.")%string |}.

Definition workflowsFinding : Finding :=
  {| summary := ("Missing GitHub Workflows in " ++ repoName)%string;
     description := ("The repository " ++ repoLink ++
       " does not appear to have any CI/CD workflows in .github/workflows. Please add appropriate Actions workflows.")%string |}.

Definition readmeAbsent (lowerFiles : list string) : bool :=
  negb (Js.arrayIncludes lowerFiles "readme.md") &&
  negb (Js.arrayIncludes lowerFiles "readme.txt") &&
  negb (Js.arrayIncludes lowerFiles "readme").

Definition licenseAbsent (lowerFiles : list string) : bool :=
  negb (Js.arrayIncludes lowerFiles "license") &&
  negb (Js.arrayIncludes lowerFiles "license.md") &&
  negb (Js.arrayIncludes lowerFiles "license.txt") &&
  negb (Js.arrayIncludes lowerFiles "copying").

Definition gitignoreAbsent (lowerFiles : list string) : bool :=
  negb (Js.arrayIncludes lowerFiles ".gitignore").

Definition hasWorkflows (workflowFiles : list string) : bool :=
  0 <? length workflowFiles.

(** The contents of [findings] after the four checks. *)
Definition detect (rootFiles workflowFiles : list string) : list Finding :=
  let lowerFiles := map Js.toLowerCase rootFiles in
  (if readmeAbsent lowerFiles then [readmeFinding] else []) ++
  (if licenseAbsent lowerFiles then [licenseFinding] else []) ++
  (if gitignoreAbsent lowerFiles then [gitignoreFinding] else []) ++
  (if negb (hasWorkflows workflowFiles) then [workflowsFinding] else []).

End Checklist.

(** ** The script as a state, error and trace monad *)

Section Script.

Context {W : Type} `{Services W}.

(** The module-level [JIRA_PROJECT_KEY] and the outside world. *)
Record Env : Type := { JIRA_PROJECT_KEY : string; world : W }.

Definition withWorld (e : Env) (w : W) : Env :=
  {| JIRA_PROJECT_KEY := JIRA_PROJECT_KEY e; world := w |}.

Definition withKey (e : Env) (k : string) : Env :=
  {| JIRA_PROJECT_KEY := k; world := world e |}.

(** A computation returns or throws, leaves an environment behind, and
    emits the events it performed, oldest first. *)
Definition M (A : Type) : Type := Env -> result A * Env * list Event.

Definition ret {A} (a : A) : M A := fun e => (Ok a, e, []).

Definition bind {A B} (m : M A) (k : A -> M B) : M B :=
  fun e =>
    match m e with
    | (Ok a, e1, t1) => let '(r, e2, t2) := k a e1 in (r, e2, t1 ++ t2)
    | (Throw err, e1, t1) => (Throw err, e1, t1)
    end.

Definition throw {A} (err : JsError) : M A := fun e => (Throw err, e, []).

(** [try { m } catch (err) { handler err }]. *)
Definition tryCatch {A} (m : M A) (handler : JsError -> M A) : M A :=
  fun e =>
    match m e with
    | (Ok a, e1, t1) => (Ok a, e1, t1)
    | (Throw err, e1, t1) =>
        let '(r, e2, t2) := handler err e1 in (r, e2, t1 ++ t2)
    end.

Notation "x <- m ;; k" := (bind m (fun x => k))
  (at level 61, m at next level, right associativity).
Notation "m ;;; k" := (bind m (fun _ => k))
  (at level 61, right associativity).

Definition console (l : Console) : M unit :=
  fun e => (Ok tt, e, [EvConsole l]).

Definition readKey : M string := fun e => (Ok (JIRA_PROJECT_KEY e), e, []).

Definition assignKey (k : string) : M unit := fun e => (Ok tt, withKey e k, []).

(** Awaiting a service: the world answers and moves on. *)
Definition await {A} (call : W -> result A * W) (ev : result A -> Event) : M A :=
  fun e => let '(r, w) := call (world e) in (r, withWorld e w, [ev r]).

Definition question (query : string) : M string :=
  fun e =>
    let '(a, w) := askQuestion query (world e) in
    (Ok a, withWorld e w, [EvQuestion query a]).

Fixpoint forEach {A} (xs : list A) (index : nat) (f : A -> nat -> M unit) : M unit :=
  match xs with
  | [] => ret tt
  | x :: r => f x index ;;; forEach r (S index) f
  end.

(** *** Detection, with its console lines (lines 80-129) *)

Definition reportCheck (absent : bool) (missing found : Console) : M unit :=
  console (if absent then missing else found).

Definition detectStage (repoName : string) : M (list string * list Finding) :=
  rootFiles <- await (getRepoRootFiles repoName) (EvRootFiles repoName) ;;
  let lowerFiles := map Js.toLowerCase rootFiles in
  let findings := [] in
  let findings :=
    findings ++ if readmeAbsent lowerFiles then [readmeFinding repoName] else [] in
  reportCheck (readmeAbsent lowerFiles) ReadmeMissing ReadmeFound ;;;
  let findings :=
    findings ++ if licenseAbsent lowerFiles then [licenseFinding repoName] else [] in
  reportCheck (licenseAbsent lowerFiles) LicenseMissing LicenseFound ;;;
  let findings :=
    findings ++ if gitignoreAbsent lowerFiles then [gitignoreFinding repoName] else [] in
  reportCheck (gitignoreAbsent lowerFiles) GitignoreMissing GitignoreFound ;;;
  workflowFiles <- await (getRepoDirectoryFiles repoName ".github/workflows")
                     (EvDirFiles repoName ".github/workflows") ;;
  let findings :=
    findings ++ if negb (hasWorkflows workflowFiles)
                then [workflowsFinding repoName] else [] in
  reportCheck (negb (hasWorkflows workflowFiles))
    WorkflowsMissing (WorkflowsFound (length workflowFiles)) ;;;
  ret (lowerFiles, findings).

(** *** Reconciliation (lines 136-223) *)

Section Reconcile.

Variable repoName : string.
Variable lowerFiles : list string.

Definition buildAndTest : string * string :=
  if Js.arrayIncludes lowerFiles "package.json"
  then ("npm install && npm run build", "npm test")
  else if Js.arrayIncludes lowerFiles "pom.xml"
  then ("mvn clean install", "mvn test")
  else if Js.arrayIncludes lowerFiles "requirements.txt"
  then ("pip install -r requirements.txt", "pytest")
  else ("N/A", "N/A").

(** The templated description, line 153. *)
Definition newDescription (finding : Finding) : string :=
  (repoName ++ Js.newline ++ Js.newline ++ description finding ++
   Js.newline ++ Js.newline ++ "Payload:" ++ Js.newline ++
   "- Build Command: " ++ fst buildAndTest ++ Js.newline ++
   "- Test Command: " ++ snd buildAndTest)%string.

(** Line 157: every double quote gets a backslash in front. *)
Definition safeSummary (s : string) : string :=
  Js.replaceChar Js.dquote (String Js.backslash (String Js.dquote EmptyString)) s.

Definition jqlHead : string := "project = " ++ String Js.dquote EmptyString.
Definition jqlMid : string :=
  String Js.dquote (" AND summary ~ " ++ String Js.dquote EmptyString).
Definition jqlTail : string := String Js.dquote EmptyString.

(** Line 158. *)
Definition jql (key smry : string) : string :=
  (jqlHead ++ key ++ jqlMid ++ safeSummary smry ++ jqlTail)%string.

(** The condition of line 183. *)
Definition isProjectError (err : JsError) : bool :=
  let truthy := match message err with
                | Some s => negb (String.eqb s EmptyString)
                | None => false
                end in
  let errMsg := Js.JSON_stringify
                  (match message err with
                   | Some s => if truthy then s else EmptyString
                   | None => EmptyString
                   end) in
  Js.includes errMsg "valid project is required" ||
  Js.includes errMsg "project is required" ||
  (truthy && match message err with
             | Some s => Js.includes s "400"
             | None => false
             end).

(** Lines 200-209: the new value of [JIRA_PROJECT_KEY]. *)
Definition selectProject (projects : list Project) (answer : string) : string :=
  let choice := Js.trim answer in
  match Js.parseInt choice with
  | Some num =>
      if ((0 <? num) && (num <=? Z.of_nat (length projects)))%Z
      then match nth_error projects (Z.to_nat (num - 1)) with
           | Some p => project_key p
           | None => Js.toUpperCase choice
           end
      else Js.toUpperCase choice
  | None => Js.toUpperCase choice
  end.

Definition projectPrompt : string :=
  (Js.newline ++ "Select project number or type KEY: ")%string.

(** How one pass through the body of [while (!success)] ends. *)
Inductive Step : Type :=
| Succeeded   (* success = true *)
| Skipped     (* break *)
| Again.      (* the loop condition still holds *)

(** The [try] block, lines 156-179. *)
Definition tryBlock (finding : Finding) : M Step :=
  key <- readKey ;;
  existingIssues <- await (searchIssues (jql key (summary finding)))
                      (EvSearch (jql key (summary finding))) ;;
  match existingIssues with
  | first :: _ =>
      await (updateIssue (issue_key first) (summary finding) (newDescription finding))
        (EvUpdate (issue_key first) (summary finding) (newDescription finding)) ;;;
      console (UpdatedLine (issue_key first) (summary finding)) ;;;
      ret Succeeded
  | [] =>
      ticket <- await (createIssue key (summary finding) (newDescription finding) "Task")
                  (EvCreate key (summary finding) (newDescription finding) "Task") ;;
      console (CreatedLine (issue_key ticket) (summary finding)) ;;;
      ret Succeeded
  end.

(** The project recovery, lines 187-216. *)
Definition recover (err : JsError) : M Step :=
  tryCatch
    (projects <- await getProjects EvProjects ;;
     match projects with
     | [] => console NoProjectsFound ;;; throw err
     | _ :: _ =>
         console AvailableProjects ;;;
         forEach projects 0
           (fun p index =>
              console (ProjectOption (index + 1) (project_key p) (project_name p))) ;;;
         answer <- question projectPrompt ;;
         assignKey (selectProject projects answer) ;;;
         key <- readKey ;;
         console (RetryingWith key) ;;;
         ret Again
     end)
    (fun projErr =>
       console (ErrorFetchingProjects (message projErr)) ;;;
       throw err).

(** The [catch (err)] block, lines 180-221. *)
Definition catchBlock (finding : Finding) (err : JsError) : M Step :=
  if isProjectError err then
    key <- readKey ;;
    console (InvalidProjectKey key) ;;;
    console FetchingProjects ;;;
    recover err
  else
    console (FailedToProcess (summary finding) (message err)) ;;;
    ret Skipped.

(** One pass through the body of the [while] loop. *)
Definition iteration (finding : Finding) : M Step :=
  tryCatch (tryBlock finding) (catchBlock finding).

(** A run that may exhaust its fuel: [None] stands for a loop that is
    still running. *)
Definition Run (A : Type) : Type := option (result A * Env * list Event).

Definition andThen {A B} (r : result A * Env * list Event)
    (k : A -> Env -> Run B) : Run B :=
  match r with
  | (Ok a, e1, t1) =>
      match k a e1 with
      | Some (rb, e2, t2) => Some (rb, e2, t1 ++ t2)
      | None => None
      end
  | (Throw err, e1, t1) => Some (Throw err, e1, t1)
  end.

(** [let success = false; while (!success) { ... }] for one finding. *)
Fixpoint processFinding (fuel : nat) (finding : Finding) (e : Env) : Run unit :=
  match fuel with
  | 0 => None
  | S fuel' =>
      andThen (iteration finding e)
        (fun step e1 =>
           match step with
           | Again => processFinding fuel' finding e1
           | Succeeded | Skipped => Some (Ok tt, e1, [])
           end)
  end.

(** [for (const finding of findings) { ... }]. *)
Fixpoint reconcile (fuel : nat) (findings : list Finding) (e : Env) : Run unit :=
  match findings with
  | [] => Some (Ok tt, e, [])
  | finding :: rest =>
      match processFinding fuel finding e with
      | Some r => andThen r (fun _ e1 => reconcile fuel rest e1)
      | None => None
      end
  end.

End Reconcile.

(** The outer [catch (error)] and [finally], lines 226-230. *)
Definition finish (r : result unit * Env * list Event) : Env * list Event :=
  match r with
  | (Ok _, e1, t1) => (e1, t1 ++ [EvClose])
  | (Throw error, e1, t1) =>
      (e1, t1 ++ [EvConsole (UnexpectedError (message error)); EvClose])
  end.

(** Lines 131-230: the summary line, the loop over the findings, and the
    outer handlers. *)
Definition reconcileStage (fuel : nat) (repoName : string)
    (lowerFiles : list string) (findings : list Finding) (e : Env)
  : option (Env * list Event) :=
  match findings with
  | [] => Some (finish (Ok tt, e, [EvConsole NoIssuesFound]))
  | _ :: _ =>
      match reconcile repoName lowerFiles fuel findings e with
      | Some (r, e1, t1) =>
          Some (finish (r, e1, EvConsole (FoundIssues (length findings)) :: t1))
      | None => None
      end
  end.

(** Lines 80-230. *)
Definition inspectRepo (fuel : nat) (repoName : string) (e : Env)
  : option (Env * list Event) :=
  match detectStage repoName e with
  | (Ok (lowerFiles, findings), e1, t1) =>
      match reconcileStage fuel repoName lowerFiles findings e1 with
      | Some (e2, t2) => Some (e2, t1 ++ t2)
      | None => None
      end
  | (Throw error, e1, t1) => Some (finish (Throw error, e1, t1))
  end.

End Script.

Arguments Env W : clear implicits.

(** ** A scripted outside world

    Every service answers with the next canned response of its own list;
    used to replay concrete runs of the script. *)

Module Scripted.

Record World : Type := {
  rootListing : result (list string);
  workflowListing : result (list string);
  searchResults : list (result (list Issue));
  updateResults : list (result unit);
  createResults : list (result Issue);
  projectResults : list (result (list Project));
  answers : list string
}.

Definition next {A} (default : A) (xs : list A) : A * list A :=
  match xs with
  | [] => (default, [])
  | x :: r => (x, r)
  end.

Definition search (_ : string) (w : World) : result (list Issue) * World :=
  let '(r, rest) := next (Ok []) (searchResults w) in
  (r, {| rootListing := rootListing w; workflowListing := workflowListing w;
         searchResults := rest; updateResults := updateResults w;
         createResults := createResults w; projectResults := projectResults w;
         answers := answers w |}).

Definition update (_ _ _ : string) (w : World) : result unit * World :=
  let '(r, rest) := next (Ok tt) (updateResults w) in
  (r, {| rootListing := rootListing w; workflowListing := workflowListing w;
         searchResults := searchResults w; updateResults := rest;
         createResults := createResults w; projectResults := projectResults w;
         answers := answers w |}).

Definition create (_ _ _ _ : string) (w : World) : result Issue * World :=
  let '(r, rest) := next (Ok {| issue_key := "NEW-0" |}) (createResults w) in
  (r, {| rootListing := rootListing w; workflowListing := workflowListing w;
         searchResults := searchResults w; updateResults := updateResults w;
         createResults := rest; projectResults := projectResults w;
         answers := answers w |}).

Definition projects (w : World) : result (list Project) * World :=
  let '(r, rest) := next (Ok []) (projectResults w) in
  (r, {| rootListing := rootListing w; workflowListing := workflowListing w;
         searchResults := searchResults w; updateResults := updateResults w;
         createResults := createResults w; projectResults := rest;
         answers := answers w |}).

Definition ask (_ : string) (w : World) : string * World :=
  let '(r, rest) := next EmptyString (answers w) in
  (r, {| rootListing := rootListing w; workflowListing := workflowListing w;
         searchResults := searchResults w; updateResults := updateResults w;
         createResults := createResults w; projectResults := projectResults w;
         answers := rest |}).

#[global] Instance services : Services World := {|
  getRepoRootFiles := fun _ w => (rootListing w, w);
  getRepoDirectoryFiles := fun _ _ w => (workflowListing w, w);
  searchIssues := search;
  updateIssue := update;
  createIssue := create;
  getProjects := projects;
  askQuestion := ask
|}.

Definition quiet : World :=
  {| rootListing := Ok []; workflowListing := Ok [];
     searchResults := []; updateResults := []; createResults := [];
     projectResults := []; answers := [] |}.

Definition start (key : string) (w : World) : Env World :=
  {| JIRA_PROJECT_KEY := key; world := w |}.

Definition error (msg : string) : JsError := {| message := Some msg |}.

End Scripted.


(** ** Reading a trace *)

(** Calls that reach the ticket store. *)
Definition isJiraCall (ev : Event) : bool :=
  match ev with
  | EvSearch _ _ | EvUpdate _ _ _ _ | EvCreate _ _ _ _ _ | EvProjects _ => true
  | _ => false
  end.

Definition isProjectsCall (ev : Event) : bool :=
  match ev with
  | EvProjects _ => true
  | _ => false
  end.

(** The recovery branch was entered: the project list was requested. *)
Definition entersRecovery (tr : list Event) : bool := existsb isProjectsCall tr.

(** The project key as an observer of the trace reconstructs it: it starts
    from [key] and changes only when the operator answers the project
    prompt, to the selection made from the last project list received. *)
Fixpoint keyAfter (key : string) (listed : list Project) (tr : list Event)
  : string * list Project :=
  match tr with
  | [] => (key, listed)
  | EvProjects (Ok ps) :: rest => keyAfter key ps rest
  | EvQuestion _ answer :: rest => keyAfter (selectProject listed answer) listed rest
  | _ :: rest => keyAfter key listed rest
  end.

(** Every search and every create of the trace is issued against the key
    current at that point. *)
Fixpoint usesKey (key : string) (listed : list Project) (tr : list Event) : Prop :=
  match tr with
  | [] => True
  | EvSearch q _ :: rest => (exists smry, q = jql key smry) /\ usesKey key listed rest
  | EvCreate project _ _ _ _ :: rest => project = key /\ usesKey key listed rest
  | EvProjects (Ok ps) :: rest => usesKey key ps rest
  | EvQuestion _ answer :: rest => usesKey (selectProject listed answer) listed rest
  | _ :: rest => usesKey key listed rest
  end.

(** The numbered project list printed by [projects.forEach], lines 195-197. *)
Fixpoint projectLines (index : nat) (ps : list Project) : list Event :=
  match ps with
  | [] => []
  | p :: rest =>
      EvConsole (ProjectOption (index + 1) (project_key p) (project_name p))
      :: projectLines (S index) rest
  end.

(** The events of one recovery that ends with a new project key. *)
Definition recoveryEvents (ps : list Project) (answer : string) : list Event :=
  EvProjects (Ok ps) :: EvConsole AvailableProjects ::
  projectLines 0 ps ++
  [EvQuestion projectPrompt answer;
   EvConsole (RetryingWith (selectProject ps answer))].

(** A run continued after the events [tr]. *)
Definition after {W A} (tr : list Event) (r : option (result A * Env W * list Event))
  : option (result A * Env W * list Event) :=
  match r with
  | Some (ra, e, t) => Some (ra, e, tr ++ t)
  | None => None
  end.

(** The finding an outcome is about, by its summary. *)
Definition outcomeSummary (o : Outcome) : string :=
  match o with
  | created _ s | updated _ s | abandoned s _ => s
  end.

(** The project list came back empty. *)
Definition isEmptyProjectList (ev : Event) : bool :=
  match ev with
  | EvProjects (Ok []) => true
  | _ => false
  end.

Definition exhausted (tr : list Event) : bool := existsb isEmptyProjectList tr.

(** The last events of a run that found no project to fall back on. *)
Definition exhaustionEvents (err : JsError) : list Event :=
  [EvProjects (Ok []); EvConsole NoProjectsFound;
   EvConsole (ErrorFetchingProjects (message err))].

(** ** Runs replayed against the scripted world *)

Module Replay.

Definition script (searches : list (result (list Issue)))
    (updates : list (result unit)) (creates : list (result Issue))
    (projectLists : list (result (list Project))) (replies : list string)
  : Scripted.World :=
  {| Scripted.rootListing := Ok []; Scripted.workflowListing := Ok [];
     Scripted.searchResults := searches; Scripted.updateResults := updates;
     Scripted.createResults := creates;
     Scripted.projectResults := projectLists; Scripted.answers := replies |}.

Definition repo : string := "o/r".

Definition ticket (key : string) : Issue := {| issue_key := key |}.

Definition twoProjects : list Project :=
  [{| project_key := "DOT"; project_name := "Dotcom" |};
   {| project_key := "OPS"; project_name := "Operations" |}].

Definition unauthorized : JsError :=
  Scripted.error "Request failed with status code 401".

Definition projectRequired : JsError :=
  Scripted.error "A valid project is required".

(** The search finds DOT-7. *)
Definition existing : Env Scripted.World :=
  Scripted.start "DOT" (script [Ok [ticket "DOT-7"]] [] [] [] []).

(** Nothing is found and the create is refused for lack of credentials. *)
Definition refused : Env Scripted.World :=
  Scripted.start "DOT" (script [Ok []] [] [Throw unauthorized] [] []).

(** The search itself is refused for lack of credentials. *)
Definition searchRefused : Env Scripted.World :=
  Scripted.start "DOT" (script [Throw unauthorized] [] [] [] []).

(** The search fails on the project and no project can be listed. *)
Definition noProjects : Env Scripted.World :=
  Scripted.start "DOT" (script [Throw projectRequired] [] [] [Ok []] []).

(** The second create fails on the project; the operator answers 2. *)
Definition replaced : Env Scripted.World :=
  Scripted.start "DOT"
    (script [] [] [Ok (ticket "DOT-1"); Throw projectRequired;
                   Ok (ticket "OPS-1"); Ok (ticket "OPS-2")]
       [Ok twoProjects] ["2"]).

Definition threeFindings : list Finding :=
  [readmeFinding repo; licenseFinding repo; workflowsFinding repo].

Definition fourFindings : list Finding :=
  [readmeFinding repo; licenseFinding repo; gitignoreFinding repo;
   workflowsFinding repo].

(** Four creates, of which the second is refused for lack of credentials. *)
Definition secondRefused : Env Scripted.World :=
  Scripted.start "DOT"
    (script [] [] [Ok (ticket "DOT-1"); Throw unauthorized;
                   Ok (ticket "DOT-3"); Ok (ticket "DOT-4")] [] []).

(** The same run once the first finding is done, and once the second is. *)
Definition secondRefusedNext : Env Scripted.World :=
  Scripted.start "DOT"
    (script [] [] [Throw unauthorized; Ok (ticket "DOT-3"); Ok (ticket "DOT-4")]
       [] []).

Definition secondRefusedAfter : Env Scripted.World :=
  Scripted.start "DOT"
    (script [] [] [Ok (ticket "DOT-3"); Ok (ticket "DOT-4")] [] []).

End Replay.

(** ** Reading a query back

    Every double quote of an escaped summary has a backslash in front of
    it; in the tail of a query, which is the escaped summary and the closing
    quote, that holds for every double quote but the last. *)
Fixpoint okQuotes (afterBackslash : bool) (e : string) : bool :=
  match e with
  | EmptyString => true
  | String c r =>
      if Ascii.eqb c Js.dquote
      then (afterBackslash || match r with EmptyString => true | _ => false end)
           && okQuotes false r
      else okQuotes (Ascii.eqb c Js.backslash) r
  end.

(** The tail of a query: the escaped summary and the closing quote. *)
Definition jqlEnd (smry : string) : string := (safeSummary smry ++ jqlTail)%string.

(** ** An in-memory ticket store

    The ticket store and the collection resolver of section 4.2 of the
    specification: [../jiraService] and the operator at the prompt are not
    among the sources. *)

Module Store.

Record Ticket : Type := {
  ticket_key : string;
  ticket_project : string;
  ticket_summary : string;
  ticket_description : string
}.

Record State : Type := {
  tickets : list Ticket;
  minted : nat;
  collections : list Project;
  reply : string;
  rootFiles : list string;
  workflowFiles : list string
}.

Definition withTickets (st : State) (ts : list Ticket) (n : nat) : State :=
  {| tickets := ts; minted := n; collections := collections st;
     reply := reply st; rootFiles := rootFiles st;
     workflowFiles := workflowFiles st |}.

(** The ticket answers the query built for its own project and summary. *)
Definition matches (q : string) (t : Ticket) : bool :=
  String.eqb (jql (ticket_project t) (ticket_summary t)) q.

Definition issueOf (t : Ticket) : Issue := {| issue_key := ticket_key t |}.

(** Modelled from the spec: [search] of the ticket store ([searchIssues] of
    [../jiraService] is missing); it returns, in store order, the tickets
    of the collection whose summary is the one searched for. *)
Definition search (q : string) (st : State) : result (list Issue) * State :=
  (Ok (map issueOf (filter (matches q) (tickets st))), st).

Definition valid (project : string) (st : State) : bool :=
  existsb (fun p => String.eqb (project_key p) project) (collections st).

Definition decimal (n : nat) : string :=
  NilEmpty.string_of_uint (Nat.to_uint n).

Definition mintKey (project : string) (n : nat) : string :=
  (project ++ "-" ++ decimal n)%string.

Definition invalidCollection : JsError :=
  {| message := Some "A valid project is required." |}.

Definition noSuchIssue : JsError :=
  {| message := Some "Issue does not exist" |}.

(** Modelled from the spec: [create] of the ticket store ([createIssue] of
    [../jiraService] is missing); it files a ticket under a freshly minted
    key, or fails with the collection-required error when the collection
    is not one of the store's. *)
Definition create (project smry descr issueType : string) (st : State)
  : result Issue * State :=
  if valid project st then
    let key := mintKey project (S (minted st)) in
    (Ok {| issue_key := key |},
     withTickets st
       (tickets st ++
        [{| ticket_key := key; ticket_project := project;
            ticket_summary := smry; ticket_description := descr |}])
       (S (minted st)))
  else (Throw invalidCollection, st).

Definition hasKey (key : string) (t : Ticket) : bool :=
  String.eqb (ticket_key t) key.

Definition revise (key smry descr : string) (t : Ticket) : Ticket :=
  if hasKey key t
  then {| ticket_key := ticket_key t; ticket_project := ticket_project t;
          ticket_summary := smry; ticket_description := descr |}
  else t.

(** Modelled from the spec: [update] of the ticket store ([updateIssue] of
    [../jiraService] is missing); it rewrites the summary and the
    description of the ticket with the given key, or fails with an API
    error when there is none. *)
Definition update (key smry descr : string) (st : State) : result unit * State :=
  if existsb (hasKey key) (tickets st)
  then (Ok tt, withTickets st (map (revise key smry descr) (tickets st)) (minted st))
  else (Throw noSuchIssue, st).

(** Modelled from the spec: [listCollections] of the resolver
    ([getProjects] of [../jiraService] is missing); it lists the store's
    collections. *)
Definition listCollections (st : State) : result (list Project) * State :=
  (Ok (collections st), st).

(** Modelled from the spec: [chooseCollection] of the resolver (the
    operator answering the prompt is missing); the operator always gives
    the same reply. *)
Definition chooseCollection (_ : string) (st : State) : string * State :=
  (reply st, st).

#[global] Instance services : Services State := {|
  getRepoRootFiles := fun _ st => (Ok (rootFiles st), st);
  getRepoDirectoryFiles := fun _ _ st => (Ok (workflowFiles st), st);
  searchIssues := search;
  updateIssue := update;
  createIssue := create;
  getProjects := listCollections;
  askQuestion := chooseCollection
|}.

(** The store holds a ticket for this summary in this collection. *)
Definition has (st : State) (project smry : string) : bool :=
  existsb (matches (jql project smry)) (tickets st).

(** Collection and summary of a ticket. *)
Definition filedAs (t : Ticket) : string * string :=
  (ticket_project t, ticket_summary t).

(** Keys are minted once: no two tickets share a key, and every key was
    minted with a number not above the counter. *)
Definition wellFormed (st : State) : Prop :=
  NoDup (map ticket_key (tickets st)) /\
  Forall (fun t => exists p n, ticket_key t = mintKey p n /\ n <= minted st)
    (tickets st).

(** What the store holds, as collection and summary, in store order. *)
Definition filed (st : State) : list (string * string) :=
  map filedAs (tickets st).

(** No two tickets for the same summary within a collection. *)
Definition noDuplicates (st : State) : Prop := NoDup (filed st).

Fixpoint noHyphen (s : string) : bool :=
  match s with
  | EmptyString => true
  | String c r => negb (Ascii.eqb c "-") && noHyphen r
  end.

(** [st'] is [st] after some searches, updates and creates of the loop:
    same collections and operator, keys still minted once, nothing filed
    is lost, and whatever was added is filed under a valid collection. *)
Definition extends (st st' : State) : Prop :=
  collections st' = collections st /\
  reply st' = reply st /\
  wellFormed st' /\
  incl (filed st) (filed st') /\
  (forall k s, In (k, s) (filed st') -> In (k, s) (filed st) \/ valid k st = true) /\
  (noDuplicates st -> noDuplicates st').

Definition empty (projects : list Project) (answer : string) : State :=
  {| tickets := []; minted := 0; collections := projects; reply := answer;
     rootFiles := ["app.js"; ".gitignore"]; workflowFiles := [] |}.

Definition start (key : string) (st : State) : Env State :=
  {| JIRA_PROJECT_KEY := key; world := st |}.

End Store.

(** All outcomes are updates, one per finding, in order. *)
Definition allUpdated (findings : list Finding) (os : list Outcome) : Prop :=
  Forall2 (fun f o => exists key, o = updated key (summary f)) findings os.

(** All outcomes are creations or updates, one per finding, in order. *)
Definition allFiled (findings : list Finding) (os : list Outcome) : Prop :=
  Forall2 (fun f o => exists key, o = created key (summary f) \/
                                  o = updated key (summary f)) findings os.

(** ** Choosing the repository (lines 27-78) *)

(** What the script reads of a repository ([.full_name], [.private]) and of
    the access check ([.accessible], [.error]). *)
Record Repo : Type := { full_name : string; repo_private : bool }.
Record AccessCheck : Type := { accessible : bool; access_error : option string }.

(** The two further services of [../githubService]. *)
Class RepoServices (W : Type) : Type := {
  listAccessibleRepos : W -> result (list Repo) * W;
  checkRepoAccess : string -> W -> result AccessCheck * W
}.

(** Console lines of lines 28-77. *)
Inductive TopLine : Type :=
| BannerTitle
| BannerAbout
| BannerTarget (key : string)
| BannerRule
| FetchingRepositories
| FoundRepositories
| RepoOption (index : nat) (name : string) (isPrivate : bool)
| AndMore (n : nat)
| NoRepositories
| InvalidFormat
| VerifyingAccess (name : string)
| AccessDenied (status : option string)
| AccessConfirmed.

(** What the whole script does to the outside: the events of lines 27-78,
    and those of the rest of the script. *)
Inductive TopEvent : Type :=
| TopConsole (l : TopLine)
| TopRepos (r : result (list Repo))
| TopAccess (name : string) (r : result AccessCheck)
| Inner (ev : Event).

Definition isAlnum (c : ascii) : bool :=
  let n := nat_of_ascii c in
  ((48 <=? n) && (n <=? 57)) || ((65 <=? n) && (n <=? 90)) ||
  ((97 <=? n) && (n <=? 122)).

(** The character classes [[a-zA-Z0-9-]] and [[a-zA-Z0-9-._]] of line 60. *)
Definition isOwnerChar (c : ascii) : bool := isAlnum c || Ascii.eqb c "-".
Definition isNameChar (c : ascii) : bool :=
  isAlnum c || Ascii.eqb c "-" || Ascii.eqb c "." || Ascii.eqb c "_".

Fixpoint allChars (p : ascii -> bool) (s : string) : bool :=
  match s with
  | EmptyString => true
  | String c r => p c && allChars p r
  end.

(** Reads one or more owner characters and the slash; gives what follows. *)
Fixpoint afterOwner (seen : bool) (s : string) : option string :=
  match s with
  | EmptyString => None
  | String c r =>
      if isOwnerChar c then afterOwner true r
      else if Ascii.eqb c "/" && seen then Some r
      else None
  end.

(** [repoName.match(/^[a-zA-Z0-9-]+\/[a-zA-Z0-9-._]+$/)] is not null. *)
Definition validRepoName (repoName : string) : bool :=
  match afterOwner false repoName with
  | Some name => negb (String.eqb name EmptyString) && allChars isNameChar name
  | None => false
  end.

(** Lines 46-53: the repository picked by number or typed. *)
Definition selectRepo (repos : list Repo) (answer : string) : string :=
  let choice := Js.trim answer in
  match Js.parseInt choice with
  | Some num =>
      if ((0 <? num) && (num <=? Z.of_nat (length repos)))%Z
      then match nth_error repos (Z.to_nat (num - 1)) with
           | Some r => full_name r
           | None => choice
           end
      else choice
  | None => choice
  end.

(** The numbered list of [repos.slice(0, 15).forEach], lines 40-42. *)
Fixpoint repoLines (index : nat) (repos : list Repo) : list TopEvent :=
  match repos with
  | [] => []
  | r :: rest =>
      TopConsole (RepoOption (index + 1) (full_name r) (repo_private r))
      :: repoLines (S index) rest
  end.

Definition selectPrompt : string :=
  (Js.newline ++ "Select repository number or type " ++
   String Js.dquote ("owner/repo" ++ String Js.dquote ": "))%string.

Definition enterPrompt : string := "Enter repository (owner/repo): ".

Definition banner (key : string) : list TopEvent :=
  [TopConsole BannerTitle; TopConsole BannerAbout;
   TopConsole (BannerTarget key); TopConsole BannerRule;
   TopConsole FetchingRepositories].

(** The outer [catch] and [finally] for an error thrown in lines 27-78. *)
Definition failed (error : JsError) : list TopEvent :=
  [Inner (EvConsole (UnexpectedError (message error))); Inner EvClose].

Section Main.

Context {W : Type} `{Services W} `{RepoServices W}.

(** Lines 36-58: the name of the repository and the events of asking. *)
Definition chooseRepo (repos : list Repo) (w : W) : string * W * list TopEvent :=
  match repos with
  | _ :: _ =>
      let '(answer, w1) := askQuestion selectPrompt w in
      (selectRepo repos answer, w1,
       TopConsole FoundRepositories ::
       repoLines 0 (firstn 15 repos) ++
       (if 15 <? length repos
        then [TopConsole (AndMore (length repos - 15))] else []) ++
       [Inner (EvQuestion selectPrompt answer)])
  | [] =>
      let '(answer, w1) := askQuestion enterPrompt w in
      (Js.trim answer, w1,
       [TopConsole NoRepositories; Inner (EvQuestion enterPrompt answer)])
  end.

(** The whole of [inspectRepo], lines 27-231. *)
Definition main (fuel : nat) (e : Env W) : option (Env W * list TopEvent) :=
  let start := banner (JIRA_PROJECT_KEY e) in
  match listAccessibleRepos (world e) with
  | (Throw error, w1) =>
      Some (withWorld e w1, start ++ TopRepos (Throw error) :: failed error)
  | (Ok repos, w1) =>
      let '(repoName, w2, asked) := chooseRepo repos w1 in
      let chosen := start ++ TopRepos (Ok repos) :: asked in
      if negb (validRepoName repoName) then
        Some (withWorld e w2,
              chosen ++ [TopConsole InvalidFormat; Inner EvClose; Inner EvClose])
      else
        let verifying := chosen ++ [TopConsole (VerifyingAccess repoName)] in
        match checkRepoAccess repoName w2 with
        | (Throw error, w3) =>
            Some (withWorld e w3,
                  verifying ++ TopAccess repoName (Throw error) :: failed error)
        | (Ok check, w3) =>
            let checked := verifying ++ [TopAccess repoName (Ok check)] in
            if negb (accessible check) then
              Some (withWorld e w3,
                    checked ++ [TopConsole (AccessDenied (access_error check));
                                Inner EvClose; Inner EvClose])
            else
              match inspectRepo fuel repoName (withWorld e w3) with
              | Some (e1, t) =>
                  Some (e1, checked ++ TopConsole AccessConfirmed :: map Inner t)
              | None => None
              end
        end
  end.

End Main.

(** *** Reading the events of the whole script *)

Definition isInnerClose (ev : TopEvent) : bool :=
  match ev with
  | Inner EvClose => true
  | _ => false
  end.

Definition isClose (ev : Event) : bool :=
  match ev with
  | EvClose => true
  | _ => false
  end.

(** Listings of the repository's files, and calls to Jira. *)
Definition inspects (ev : TopEvent) : bool :=
  match ev with
  | Inner ev' =>
      match ev' with
      | EvRootFiles _ _ | EvDirFiles _ _ _ => true
      | _ => isJiraCall ev'
      end
  | _ => false
  end.

(** The access check, and whatever inspects. *)
Definition reachesBeyondChoice (ev : TopEvent) : bool :=
  match ev with
  | TopAccess _ _ => true
  | _ => inspects ev
  end.

(** ** Further readings of a trace *)

(** The label [${index + 1}] of a listed project or repository: the
    decimal numeral of a natural number. *)
Definition indexLabel (n : nat) : string :=
  NilEmpty.string_of_uint (Nat.to_uint n).

(** The call [ev], made right after [prev], is a create that does not
    follow an empty search for its project and summary, or an update that
    does not follow a search whose first issue it updates. *)
Definition unguardedCall (prev : option Event) (ev : Event) : bool :=
  match ev with
  | EvCreate project smry _ _ _ =>
      match prev with
      | Some (EvSearch q (Ok [])) => negb (String.eqb q (jql project smry))
      | _ => true
      end
  | EvUpdate key _ _ _ =>
      match prev with
      | Some (EvSearch _ (Ok (first :: _))) => negb (String.eqb (issue_key first) key)
      | _ => true
      end
  | _ => false
  end.

Fixpoint unguarded (prev : option Event) (tr : list Event) : bool :=
  match tr with
  | [] => false
  | ev :: rest => unguardedCall prev ev || unguarded (Some ev) rest
  end.

Definition isSearch (ev : Event) : bool :=
  match ev with
  | EvSearch _ _ => true
  | _ => false
  end.

Definition isQuestion (ev : Event) : bool :=
  match ev with
  | EvQuestion _ _ => true
  | _ => false
  end.

Definition isWrite (ev : Event) : bool :=
  match ev with
  | EvUpdate _ _ _ _ | EvCreate _ _ _ _ _ => true
  | _ => false
  end.

Definition count (p : Event -> bool) (tr : list Event) : nat :=
  length (filter p tr).

(** A character [JSON.stringify] copies as it is. *)
Definition copied (c : ascii) : bool :=
  String.eqb (Js.quoteJSONChar c) (String c EmptyString).

(** The character occurs nowhere in the string. *)
Fixpoint absent (c : ascii) (s : string) : bool :=
  match s with
  | EmptyString => true
  | String x r => negb (Ascii.eqb x c) && absent c r
  end.

(** ** A desk: repositories, an access check and a scripted Jira *)

Module Desk.

Record World : Type := {
  repoList : result (list Repo);
  access : result AccessCheck;
  jira : Scripted.World
}.

Definition onJira {A} (call : Scripted.World -> A * Scripted.World) (w : World)
  : A * World :=
  let '(a, j) := call (jira w) in
  (a, {| repoList := repoList w; access := access w; jira := j |}).

#[global] Instance services : Services World := {|
  getRepoRootFiles := fun repo => onJira (getRepoRootFiles repo);
  getRepoDirectoryFiles := fun repo dir => onJira (getRepoDirectoryFiles repo dir);
  searchIssues := fun q => onJira (searchIssues q);
  updateIssue := fun k s d => onJira (updateIssue k s d);
  createIssue := fun p s d t => onJira (createIssue p s d t);
  getProjects := onJira getProjects;
  askQuestion := fun q => onJira (askQuestion q)
|}.

#[global] Instance repoServices : RepoServices World := {|
  listAccessibleRepos := fun w => (repoList w, w);
  checkRepoAccess := fun _ w => (access w, w)
|}.

Definition granted : AccessCheck := {| accessible := true; access_error := None |}.
Definition denied : AccessCheck :=
  {| accessible := false; access_error := Some "Not Found" |}.

Definition repo (name : string) : Repo :=
  {| full_name := name; repo_private := false |}.

(** Sixteen repositories, of which the last is not displayed. *)
Definition sixteen : list Repo :=
  map repo ["o/r01"; "o/r02"; "o/r03"; "o/r04"; "o/r05"; "o/r06"; "o/r07"; "o/r08";
            "o/r09"; "o/r10"; "o/r11"; "o/r12"; "o/r13"; "o/r14"; "o/r15"; "o/r16"].

Definition desk (repos : result (list Repo)) (check : result AccessCheck)
    (listing : list string) (workflows : list string) (replies : list string) : World :=
  {| repoList := repos; access := check;
     jira := {| Scripted.rootListing := Ok listing;
                Scripted.workflowListing := Ok workflows;
                Scripted.searchResults := []; Scripted.updateResults := [];
                Scripted.createResults := []; Scripted.projectResults := [];
                Scripted.answers := replies |} |}.

Definition start (w : World) : Env World :=
  {| JIRA_PROJECT_KEY := "DOT"; world := w |}.

End Desk.

(** The events of a detection whose two listings arrive. *)
Definition detectEvents (repoName : string) (rootFiles workflowFiles : list string)
  : list Event :=
  let lowerFiles := map Js.toLowerCase rootFiles in
  [EvRootFiles repoName (Ok rootFiles);
   EvConsole (if readmeAbsent lowerFiles then ReadmeMissing else ReadmeFound);
   EvConsole (if licenseAbsent lowerFiles then LicenseMissing else LicenseFound);
   EvConsole (if gitignoreAbsent lowerFiles then GitignoreMissing else GitignoreFound);
   EvDirFiles repoName ".github/workflows" (Ok workflowFiles);
   EvConsole (if negb (hasWorkflows workflowFiles)
              then WorkflowsMissing
              else WorkflowsFound (length workflowFiles))].

(** A trace is empty or starts with a search. *)
Definition startsWithSearch (tr : list Event) : bool :=
  match tr with
  | [] => true
  | ev :: _ => isSearch ev
  end.

(** ** The call that raised an error *)

(** The call [ev] was made for [finding] and raised [err]: a search for the
    finding's summary, or an update or a create with that summary. *)
Definition raisedFor (finding : Finding) (err : JsError) (ev : Event) : Prop :=
  match ev with
  | EvSearch q (Throw x) => x = err /\ exists key, q = jql key (summary finding)
  | EvUpdate _ smry _ (Throw x) => x = err /\ smry = summary finding
  | EvCreate _ smry _ _ (Throw x) => x = err /\ smry = summary finding
  | _ => False
  end.

(** ** Further replayed runs *)

Module Mishap.

(** Two failures that are not about the project, whose messages happen to
    contain the digits 400. *)
Definition locked : JsError :=
  Scripted.error "Issue DOT-1400 is locked by another user".

Definition timedOut : JsError :=
  Scripted.error "timeout of 4000ms exceeded".

(** The search finds DOT-1400, whose update is refused because the issue
    is locked; two projects can be listed and the operator answers 2. *)
Definition lockedUpdate : Env Scripted.World :=
  Scripted.start "DOT"
    (Replay.script [Ok [Replay.ticket "DOT-1400"]] [Throw locked] []
       [Ok Replay.twoProjects] ["2"]).

(** The search times out; two projects can be listed and the operator
    answers 2. *)
Definition searchTimedOut : Env Scripted.World :=
  Scripted.start "DOT"
    (Replay.script [Throw timedOut] [] [] [Ok Replay.twoProjects] ["2"]).

(** Nothing is found and the create fails on the project; two projects
    can be listed and the operator answers 2. *)
Definition createNeedsProject : Env Scripted.World :=
  Scripted.start "DOT"
    (Replay.script [Ok []] [] [Throw Replay.projectRequired]
       [Ok Replay.twoProjects] ["2"]).

(** The search itself fails on the project; two projects can be listed,
    the operator answers 2, and the second search finds OPS-3. *)
Definition searchNeedsProject : Env Scripted.World :=
  Scripted.start "DOT"
    (Replay.script [Throw Replay.projectRequired; Ok [Replay.ticket "OPS-3"]]
       [] [] [Ok Replay.twoProjects] ["2"]).


(** A store that holds a ticket for the README summary in OPS and one for
    the LICENSE summary in DOT; the run is configured for DOT. *)
Definition shelf : Env Store.State :=
  Store.start "DOT"
    {| Store.tickets :=
         [{| Store.ticket_key := "OPS-1"; Store.ticket_project := "OPS";
             Store.ticket_summary := "Missing README in o/r";
             Store.ticket_description := "filed earlier" |};
          {| Store.ticket_key := "DOT-7"; Store.ticket_project := "DOT";
             Store.ticket_summary := "Missing LICENSE in o/r";
             Store.ticket_description := "filed earlier" |}];
       Store.minted := 7;
       Store.collections := Replay.twoProjects;
       Store.reply := "2";
       Store.rootFiles := []; Store.workflowFiles := [] |}.

End Mishap.
Unset Implicit Arguments.

(** ** Sanity checks of the built-ins *)

Example toLowerCase_ex : Js.toLowerCase "README.md" = "readme.md".
Proof. reflexivity. Qed.

Example parseInt_ex :
  Js.parseInt "2abc" = Some 2%Z /\ Js.parseInt "0x1f" = Some 31%Z /\
  Js.parseInt "-7" = Some (-7)%Z /\ Js.parseInt "dot" = None /\
  Js.parseInt "0x" = None.
Proof. repeat split; reflexivity. Qed.

Example trim_ex : Js.trim "  a b  " = "a b".
Proof. reflexivity. Qed.

Example detect_ex :
  detect "o/r" ["app.js"; ".gitignore"] [] =
  [readmeFinding "o/r"; licenseFinding "o/r"; workflowsFinding "o/r"].
Proof. reflexivity. Qed.

(** ** Properties of the checklist *)

Lemma arrayIncludes_In (xs : list string) (x : string) :
  Js.arrayIncludes xs x = true <-> In x xs.
Proof.
  unfold Js.arrayIncludes. rewrite existsb_exists. split.
  - intros [y [Hy Heq]]. apply String.eqb_eq in Heq. now subst.
  - intros Hin. exists x. split; [assumption | apply String.eqb_refl].
Qed.

Lemma arrayIncludes_not_In (xs : list string) (x : string) :
  negb (Js.arrayIncludes xs x) = true <-> ~ In x xs.
Proof.
  rewrite negb_true_iff, <- not_true_iff_false.
  now rewrite arrayIncludes_In.
Qed.

Lemma readmeAbsent_spec (lowerFiles : list string) :
  readmeAbsent lowerFiles = true <->
  ~ In "readme.md" lowerFiles /\ ~ In "readme.txt" lowerFiles /\
  ~ In "readme" lowerFiles.
Proof.
  unfold readmeAbsent.
  rewrite !andb_true_iff, !arrayIncludes_not_In. tauto.
Qed.

Lemma licenseAbsent_spec (lowerFiles : list string) :
  licenseAbsent lowerFiles = true <->
  ~ In "license" lowerFiles /\ ~ In "license.md" lowerFiles /\
  ~ In "license.txt" lowerFiles /\ ~ In "copying" lowerFiles.
Proof.
  unfold licenseAbsent.
  rewrite !andb_true_iff, !arrayIncludes_not_In. tauto.
Qed.

Lemma hasWorkflows_spec (workflowFiles : list string) :
  negb (hasWorkflows workflowFiles) = true <-> workflowFiles = [].
Proof.
  unfold hasWorkflows. destruct workflowFiles; simpl; split; congruence.
Qed.

(** C6: [detect] works on the lower-cased names and emits, in the order
    README, LICENSE, .gitignore, workflows, at most one finding per kind:
    the README one exactly when none of readme.md, readme.txt, readme is
    listed, the LICENSE one exactly when none of license, license.md,
    license.txt, copying is listed, the .gitignore one exactly when
    .gitignore is not listed, the workflows one exactly when the workflow
    listing is empty; and on ["app.js"; ".gitignore"] with no workflow file
    it yields the README, LICENSE and workflows findings, in that order. *)
Theorem C6_detect_checklist (repoName : string) (rootFiles workflowFiles : list string) :
  let listed name := In name (map Js.toLowerCase rootFiles) in
  (exists readme license gitignore workflows : bool,
     detect repoName rootFiles workflowFiles =
       (if readme then [readmeFinding repoName] else []) ++
       (if license then [licenseFinding repoName] else []) ++
       (if gitignore then [gitignoreFinding repoName] else []) ++
       (if workflows then [workflowsFinding repoName] else []) /\
     (readme = true <->
        ~ listed "readme.md" /\ ~ listed "readme.txt" /\ ~ listed "readme") /\
     (license = true <->
        ~ listed "license" /\ ~ listed "license.md" /\
        ~ listed "license.txt" /\ ~ listed "copying") /\
     (gitignore = true <-> ~ listed ".gitignore") /\
     (workflows = true <-> workflowFiles = [])) /\
  detect repoName ["app.js"; ".gitignore"] [] =
    [readmeFinding repoName; licenseFinding repoName; workflowsFinding repoName].
Proof.
  intros listed. split; [| reflexivity].
  exists (readmeAbsent (map Js.toLowerCase rootFiles)),
         (licenseAbsent (map Js.toLowerCase rootFiles)),
         (gitignoreAbsent (map Js.toLowerCase rootFiles)),
         (negb (hasWorkflows workflowFiles)).
  split; [reflexivity |].
  split; [apply readmeAbsent_spec |].
  split; [apply licenseAbsent_spec |].
  split; [apply arrayIncludes_not_In | apply hasWorkflows_spec].
Qed.

(** C8: detection is a function of the two listings alone.  Two
    evaluations that receive the same root listing and the same workflow
    listing, in whatever environments, return the same findings in the same
    order, namely [detect] of the listings; they emit the same events,
    none of which reaches the ticket store, and leave the project key as
    it was. *)
Theorem C8_detect_deterministic {W : Type} `{Services W} (repoName : string)
    (rootFiles workflowFiles : list string) (e1 e2 : Env W) (w1 w1' w2 w2' : W) :
  getRepoRootFiles repoName (world e1) = (Ok rootFiles, w1) ->
  getRepoDirectoryFiles repoName ".github/workflows" w1 = (Ok workflowFiles, w1') ->
  getRepoRootFiles repoName (world e2) = (Ok rootFiles, w2) ->
  getRepoDirectoryFiles repoName ".github/workflows" w2 = (Ok workflowFiles, w2') ->
  exists events,
    detectStage repoName e1 =
      (Ok (map Js.toLowerCase rootFiles, detect repoName rootFiles workflowFiles),
       withWorld e1 w1', events) /\
    detectStage repoName e2 =
      (Ok (map Js.toLowerCase rootFiles, detect repoName rootFiles workflowFiles),
       withWorld e2 w2', events) /\
    existsb isJiraCall events = false /\
    outcomes events = [].
Proof.
  intros R1 D1 R2 D2.
  set (lower := map Js.toLowerCase rootFiles).
  exists [EvRootFiles repoName (Ok rootFiles);
          EvConsole (if readmeAbsent lower then ReadmeMissing else ReadmeFound);
          EvConsole (if licenseAbsent lower then LicenseMissing else LicenseFound);
          EvConsole (if gitignoreAbsent lower then GitignoreMissing else GitignoreFound);
          EvDirFiles repoName ".github/workflows" (Ok workflowFiles);
          EvConsole (if negb (hasWorkflows workflowFiles)
                     then WorkflowsMissing
                     else WorkflowsFound (length workflowFiles))].
  unfold detectStage, bind, await, reportCheck, console, ret.
  cbn [world withWorld JIRA_PROJECT_KEY].
  rewrite R1, R2. cbn [world withWorld JIRA_PROJECT_KEY].
  rewrite D1, D2. cbn [world withWorld JIRA_PROJECT_KEY app].
  unfold detect, withWorld. cbn [world JIRA_PROJECT_KEY app].
  fold lower. rewrite <- !app_assoc.
  split; [reflexivity |]. split; [reflexivity |].
  split.
  - reflexivity.
  - unfold outcomes.
    destruct (readmeAbsent _), (licenseAbsent _), (gitignoreAbsent _),
      (negb (hasWorkflows _)); reflexivity.
Qed.

(** The same, replayed: an empty repository inspected under two different
    project keys. *)
Lemma C8_detect_deterministic_witness :
  exists events,
    detectStage "o/r" (Scripted.start "DOT" Scripted.quiet) =
      (Ok (map Js.toLowerCase [], detect "o/r" [] []),
       withWorld (Scripted.start "DOT" Scripted.quiet) Scripted.quiet, events) /\
    detectStage "o/r" (Scripted.start "OPS" Scripted.quiet) =
      (Ok (map Js.toLowerCase [], detect "o/r" [] []),
       withWorld (Scripted.start "OPS" Scripted.quiet) Scripted.quiet, events) /\
    existsb isJiraCall events = false /\
    outcomes events = [].
Proof.
  apply (C8_detect_deterministic "o/r" [] []
           (Scripted.start "DOT" Scripted.quiet) (Scripted.start "OPS" Scripted.quiet)
           Scripted.quiet Scripted.quiet Scripted.quiet Scripted.quiet);
    reflexivity.
Defined.

(** ** The operator's choice of a project *)

(** C10, as the script has it: the answer is trimmed first; when the
    trimmed answer parses as an integer between 1 and the number of listed
    projects, the key of the project at that position is selected; any
    other answer is, once trimmed, converted to upper case and taken as the
    key. *)
Theorem C10_selectProject_trimmed (projects : list Project) (answer : string) :
  let choice := Js.trim answer in
  (forall num,
     Js.parseInt choice = Some num ->
     (1 <= num <= Z.of_nat (length projects))%Z ->
     exists p,
       nth_error projects (Z.to_nat (num - 1)) = Some p /\
       selectProject projects answer = project_key p) /\
  ((forall num,
      Js.parseInt choice = Some num ->
      ~ (1 <= num <= Z.of_nat (length projects))%Z) ->
   selectProject projects answer = Js.toUpperCase choice).
Proof.
  intros choice. unfold selectProject. fold choice. split.
  - intros num Hparse [Hlo Hhi]. rewrite Hparse.
    replace (0 <? num)%Z with true by (symmetry; apply Z.ltb_lt; lia).
    replace (num <=? Z.of_nat (length projects))%Z with true
      by (symmetry; apply Z.leb_le; lia).
    cbn [andb].
    destruct (nth_error projects (Z.to_nat (num - 1))) as [p |] eqn:Hnth.
    + exists p. split; reflexivity.
    + apply nth_error_None in Hnth. lia.
  - intros Hother. destruct (Js.parseInt choice) as [num |]; [| reflexivity].
    destruct ((0 <? num)%Z && (num <=? Z.of_nat (length projects))%Z) eqn:Hrange;
      [| reflexivity].
    apply andb_true_iff in Hrange. destruct Hrange as [Hlo Hhi].
    apply Z.ltb_lt in Hlo. apply Z.leb_le in Hhi.
    exfalso. apply (Hother num eq_refl). lia.
Qed.

(** Answering " 2 " picks the second project; answering " ops " gives OPS. *)
Lemma C10_selectProject_trimmed_witness :
  selectProject Replay.twoProjects " 2 " = "OPS" /\
  selectProject Replay.twoProjects " ops " = "OPS".
Proof.
  split.
  - destruct (proj1 (C10_selectProject_trimmed Replay.twoProjects " 2 ") 2%Z)
      as [p [Hnth Hsel]]; [reflexivity | cbn; lia |].
    rewrite Hsel. cbn in Hnth. injection Hnth as <-. reflexivity.
  - rewrite (proj2 (C10_selectProject_trimmed Replay.twoProjects " ops ")).
    + reflexivity.
    + intros num Hparse. discriminate Hparse.
Defined.

(** The answer " ops " does not parse as a number, yet the key chosen is
    not the answer in upper case: the surrounding blanks are gone. *)
Lemma C10_verbatim_counterexample :
  Js.parseInt " ops " = None /\
  selectProject Replay.twoProjects " ops " = "OPS" /\
  selectProject Replay.twoProjects " ops " <> Js.toUpperCase " ops ".
Proof.
  split; [reflexivity |]. split; [reflexivity |].
  cbv. discriminate.
Qed.

(** ** A query determines its project and its summary *)

Lemma append_assoc (a b c : string) : ((a ++ b) ++ c = a ++ (b ++ c))%string.
Proof. induction a as [| x a IH]; cbn; [reflexivity | now rewrite IH]. Qed.

Lemma append_inv_head (a x y : string) : (a ++ x = a ++ y)%string -> x = y.
Proof.
  induction a as [| c a IH]; cbn; intros Heq; [exact Heq |].
  injection Heq as Heq. now apply IH.
Qed.

Lemma jqlEnd_nonempty (smry : string) : jqlEnd smry <> EmptyString.
Proof.
  unfold jqlEnd, safeSummary. destruct smry as [| c r]; cbn; [discriminate |].
  destruct (Ascii.eqb c Js.dquote); discriminate.
Qed.

Lemma okQuotes_jqlEnd (smry : string) (b : bool) : okQuotes b (jqlEnd smry) = true.
Proof.
  unfold jqlEnd, safeSummary. revert b.
  induction smry as [| c r IH]; intros b; cbn.
  - now rewrite orb_true_r.
  - destruct (Ascii.eqb c Js.dquote) eqn:Hc; cbn.
    + apply IH.
    + rewrite Hc. apply IH.
Qed.

(** No escaped tail contains the middle of a query followed by something. *)
Lemma okQuotes_mid (x e : string) (b : bool) :
  e <> EmptyString -> okQuotes b (x ++ jqlMid ++ e)%string = false.
Proof.
  intros Hne. revert b. induction x as [| c x IH]; intros b.
  - destruct e as [| a e]; [contradiction |]. cbn. apply andb_false_r.
  - cbn. destruct (Ascii.eqb c Js.dquote).
    + rewrite IH. apply andb_false_r.
    + apply IH.
Qed.

Lemma mid_not_shifted (k e1 e2 : string) :
  (" AND summary ~ " ++ String Js.dquote e1 = k ++ jqlMid ++ e2)%string ->
  e2 <> EmptyString -> okQuotes false e1 = true -> False.
Proof.
  intros Heq Hne Hok.
  do 15 (destruct k as [| ? k]; [discriminate Heq |];
         cbn in Heq; injection Heq as _ Heq).
  destruct k as [| ? k]; cbn in Heq; injection Heq as Heq.
  - subst e1. destruct e2 as [| ? e2]; [contradiction |]. discriminate Hok.
  - subst e1. pose proof (okQuotes_mid k e2 false Hne) as Hbad.
    unfold jqlMid in Hbad. cbn in Hbad. congruence.
Qed.

Lemma mid_inj (k1 k2 e1 e2 : string) :
  e1 <> EmptyString -> e2 <> EmptyString ->
  okQuotes false e1 = true -> okQuotes false e2 = true ->
  (k1 ++ jqlMid ++ e1 = k2 ++ jqlMid ++ e2)%string ->
  k1 = k2 /\ e1 = e2.
Proof.
  intros Hne1 Hne2 Hok1 Hok2. revert k2.
  induction k1 as [| c1 k1 IH]; intros [| c2 k2] Heq.
  - split; [reflexivity |]. exact (append_inv_head jqlMid e1 e2 Heq).
  - exfalso. cbn in Heq. injection Heq as _ Heq.
    exact (mid_not_shifted k2 e1 e2 Heq Hne2 Hok1).
  - exfalso. cbn in Heq. injection Heq as _ Heq. symmetry in Heq.
    exact (mid_not_shifted k1 e2 e1 Heq Hne1 Hok2).
  - cbn in Heq. injection Heq as -> Heq.
    destruct (IH k2 Heq) as [-> ->]. split; reflexivity.
Qed.

Lemma safeSummary_inj (s1 s2 : string) : jqlEnd s1 = jqlEnd s2 -> s1 = s2.
Proof.
  unfold jqlEnd, safeSummary. revert s2.
  induction s1 as [| c1 r1 IH]; intros [| c2 r2]; cbn.
  - reflexivity.
  - destruct (Ascii.eqb c2 Js.dquote) eqn:H2; cbn; intros Heq.
    + discriminate Heq.
    + injection Heq as Hc _. subst c2. cbv in H2. discriminate H2.
  - destruct (Ascii.eqb c1 Js.dquote) eqn:H1; cbn; intros Heq.
    + discriminate Heq.
    + injection Heq as Hc _. subst c1. cbv in H1. discriminate H1.
  - destruct (Ascii.eqb c1 Js.dquote) eqn:H1, (Ascii.eqb c2 Js.dquote) eqn:H2;
      cbn; intros Heq.
    + apply Ascii.eqb_eq in H1, H2. subst c1 c2.
      injection Heq as Heq. f_equal. now apply IH.
    + injection Heq as Hc Heq. subst c2. exfalso.
      destruct r2 as [| c3 r3]; cbn in Heq;
        [injection Heq as Heq; exact (jqlEnd_nonempty r1 Heq) |].
      destruct (Ascii.eqb c3 Js.dquote) eqn:H3; cbn in Heq.
      * discriminate Heq.
      * injection Heq as Hc _. subst c3. cbv in H3. discriminate H3.
    + injection Heq as Hc Heq. subst c1. exfalso.
      destruct r1 as [| c3 r3]; cbn in Heq;
        [injection Heq as Heq; symmetry in Heq; exact (jqlEnd_nonempty r2 Heq) |].
      destruct (Ascii.eqb c3 Js.dquote) eqn:H3; cbn in Heq.
      * discriminate Heq.
      * injection Heq as Hc _. subst c3. cbv in H3. discriminate H3.
    + injection Heq as -> Heq. f_equal. now apply IH.
Qed.

Lemma jql_inj (k1 k2 s1 s2 : string) :
  jql k1 s1 = jql k2 s2 -> k1 = k2 /\ s1 = s2.
Proof.
  unfold jql. intros Heq. apply (append_inv_head jqlHead) in Heq.
  change (k1 ++ jqlMid ++ jqlEnd s1 = k2 ++ jqlMid ++ jqlEnd s2)%string in Heq.
  apply mid_inj in Heq;
    auto using jqlEnd_nonempty, okQuotes_jqlEnd.
  destruct Heq as [-> Heq]. split; [reflexivity |].
  now apply safeSummary_inj.
Qed.

(** ** The project error test reads the message *)

Lemma prefix_empty (s : string) : String.prefix EmptyString s = true.
Proof. destruct s; reflexivity. Qed.

Lemma prefix_cons (a b : ascii) (s t : string) :
  String.prefix (String a s) (String b t) = Ascii.eqb a b && String.prefix s t.
Proof.
  cbn. destruct (ascii_dec a b) as [-> | Hne].
  - now rewrite Ascii.eqb_refl.
  - apply Ascii.eqb_neq in Hne. now rewrite Hne.
Qed.

Lemma includes_cons (c : ascii) (hay needle : string) :
  Js.includes (String c hay) needle =
  String.prefix needle (String c hay) || Js.includes hay needle.
Proof. reflexivity. Qed.

(** A character is copied by [JSON.stringify], or replaced by an escape
    that starts with a backslash. *)
Lemma quoteJSONChar_cases (c : ascii) :
  copied c = true \/
  (copied c = false /\ exists t, Js.quoteJSONChar c = String Js.backslash t).
Proof.
  destruct c as [[] [] [] [] [] [] [] []];
    first [left; reflexivity | right; split; [reflexivity | eexists; reflexivity]].
Qed.

Lemma escapes_avoid_p (c : ascii) :
  copied c = true \/ absent "p" (Js.quoteJSONChar c) = true.
Proof.
  destruct c as [[] [] [] [] [] [] [] []];
    first [left; reflexivity | right; reflexivity].
Qed.

Lemma escapes_avoid_v (c : ascii) :
  copied c = true \/ absent "v" (Js.quoteJSONChar c) = true.
Proof.
  destruct c as [[] [] [] [] [] [] [] []];
    first [left; reflexivity | right; reflexivity].
Qed.

Section Stringified.

Variable first : ascii.
Variable others : string.

Let needle : string := String first others.

Hypothesis needle_copied : allChars copied needle = true.
Hypothesis escapes_avoid_first :
  forall c, copied c = true \/ absent first (Js.quoteJSONChar c) = true.

Lemma prefix_needle (c : ascii) (r : string) :
  String.prefix needle (String c r) = Ascii.eqb first c && String.prefix others r.
Proof. apply prefix_cons. Qed.

Lemma copied_differs (n c : ascii) : copied n = true -> copied c = false -> n <> c.
Proof. intros Hn Hc ->. congruence. Qed.

Lemma prefix_quoteJSONBody (n : string) (s : string) :
  allChars copied n = true ->
  String.prefix n (Js.quoteJSONBody s) = String.prefix n s.
Proof.
  revert s. induction n as [| x n IH]; intros s Hall.
  - now rewrite !prefix_empty.
  - cbn in Hall. apply andb_true_iff in Hall. destruct Hall as [Hx Hn].
    destruct s as [| c r]; [reflexivity |]. cbn [Js.quoteJSONBody].
    destruct (quoteJSONChar_cases c) as [Hc | [Hc [t Ht]]].
    + unfold copied in Hc. apply String.eqb_eq in Hc. rewrite Hc.
      cbn [append]. rewrite !prefix_cons. now rewrite IH.
    + rewrite Ht. cbn [append]. rewrite !prefix_cons.
      replace (Ascii.eqb x c) with false
        by (symmetry; apply Ascii.eqb_neq; now apply copied_differs).
      replace (Ascii.eqb x Js.backslash) with false; [reflexivity |].
      symmetry. apply Ascii.eqb_neq. now apply copied_differs.
Qed.

Lemma includes_skips (e rest : string) :
  absent first e = true ->
  Js.includes (e ++ rest)%string needle = Js.includes rest needle.
Proof.
  induction e as [| x e IH]; cbn [append absent]; [reflexivity |].
  intros Habs. apply andb_true_iff in Habs. destruct Habs as [Hx He].
  rewrite includes_cons. rewrite prefix_needle.
  apply negb_true_iff in Hx. rewrite Ascii.eqb_sym, Hx. cbn [andb orb].
  now apply IH.
Qed.

Lemma includes_quoteJSONBody (s : string) :
  Js.includes (Js.quoteJSONBody s) needle = Js.includes s needle.
Proof.
  assert (Hfirst : copied first = true).
  { pose proof needle_copied as Hall. cbn in Hall.
    now apply andb_true_iff in Hall. }
  induction s as [| c r IH]; [reflexivity |].
  rewrite includes_cons.
  destruct (quoteJSONChar_cases c) as [Hc | [Hc _]].
  - rewrite <- (prefix_quoteJSONBody needle (String c r) needle_copied).
    cbn [Js.quoteJSONBody]. unfold copied in Hc. apply String.eqb_eq in Hc.
    rewrite Hc. cbn [append]. rewrite includes_cons. now rewrite IH.
  - cbn [Js.quoteJSONBody].
    destruct (escapes_avoid_first c) as [Hcopied | Habs]; [congruence |].
    rewrite (includes_skips _ _ Habs), IH.
    rewrite prefix_needle.
    replace (Ascii.eqb first c) with false; [reflexivity |].
    symmetry. apply Ascii.eqb_neq. now apply copied_differs.
Qed.

Lemma prefix_before (q : ascii) (n s : string) :
  absent q n = true ->
  String.prefix n (s ++ String q EmptyString)%string = String.prefix n s.
Proof.
  revert s. induction n as [| x n IH]; intros s Habs.
  - now rewrite !prefix_empty.
  - cbn in Habs. apply andb_true_iff in Habs. destruct Habs as [Hx Hn].
    apply negb_true_iff in Hx.
    destruct s as [| c r]; cbn [append].
    + rewrite prefix_cons, Hx. reflexivity.
    + rewrite !prefix_cons. now rewrite IH.
Qed.

Lemma includes_before (q : ascii) (s : string) :
  absent q needle = true ->
  Js.includes (s ++ String q EmptyString)%string needle = Js.includes s needle.
Proof.
  intros Habs. induction s as [| c r IH].
  - cbn [append]. rewrite includes_cons.
    change (String q EmptyString) with (EmptyString ++ String q EmptyString)%string.
    rewrite (prefix_before q needle EmptyString Habs). reflexivity.
  - cbn [append]. rewrite !includes_cons, IH.
    change (String c (r ++ String q EmptyString))
      with (String c r ++ String q EmptyString)%string.
    now rewrite (prefix_before q needle (String c r) Habs).
Qed.

Lemma includes_JSON_stringify (s : string) :
  absent Js.dquote needle = true ->
  Js.includes (Js.JSON_stringify s) needle = Js.includes s needle.
Proof.
  intros Habs. unfold Js.JSON_stringify. rewrite includes_cons.
  rewrite (includes_before Js.dquote _ Habs), includes_quoteJSONBody.
  rewrite prefix_needle.
  pose proof Habs as Hq. cbn in Hq. apply andb_true_iff in Hq.
  destruct Hq as [Hq _]. apply negb_true_iff in Hq. now rewrite Hq.
Qed.

End Stringified.

Lemma prefix_longer_includes (a p hay : string) :
  String.prefix (a ++ p)%string hay = true -> Js.includes hay p = true.
Proof.
  revert hay. induction a as [| x a IH]; intros hay; cbn [append].
  - intros Hp. destruct hay; cbn [Js.includes]; rewrite Hp; reflexivity.
  - destruct hay as [| c r]; [discriminate |].
    rewrite prefix_cons, includes_cons. intros Hp.
    apply andb_true_iff in Hp. destruct Hp as [_ Hp].
    rewrite (IH _ Hp). apply orb_true_r.
Qed.

Lemma includes_longer_needle (a p hay : string) :
  Js.includes hay (a ++ p)%string = true -> Js.includes hay p = true.
Proof.
  induction hay as [| c r IH].
  - cbn [Js.includes]. rewrite orb_false_r. apply prefix_longer_includes.
  - rewrite !includes_cons. intros Hin. apply orb_true_iff in Hin.
    destruct Hin as [Hp | Hr].
    + apply prefix_longer_includes in Hp. now rewrite includes_cons in Hp.
    + rewrite (IH Hr). apply orb_true_r.
Qed.

(** The condition of line 183, read on the message itself. *)
Lemma project_error_text (err : JsError) :
  isProjectError err =
  match message err with
  | Some msg => Js.includes msg "project is required" || Js.includes msg "400"
  | None => false
  end.
Proof.
  unfold isProjectError. destruct (message err) as [msg |]; [| reflexivity].
  destruct (String.eqb msg EmptyString) eqn:Hempty.
  - apply String.eqb_eq in Hempty. now subst msg.
  - cbn [negb andb].
    rewrite (includes_JSON_stringify "v" "alid project is required"
               eq_refl escapes_avoid_v msg eq_refl),
            (includes_JSON_stringify "p" "roject is required"
               eq_refl escapes_avoid_p msg eq_refl).
    destruct (Js.includes msg "valid project is required") eqn:Hlong;
      [| reflexivity].
    apply (includes_longer_needle "valid " "project is required") in Hlong.
    now rewrite Hlong.
Qed.

(** ** One pass through the loop body, service by service *)

Section Iteration.

Context {W : Type} `{Services W}.
Variable repoName : string.
Variable lowerFiles : list string.


Lemma forEach_projectLines (ps : list Project) (index : nat) (e : Env W) :
  forEach ps index
    (fun p i => console (ProjectOption (i + 1) (project_key p) (project_name p))) e
  = (Ok tt, e, projectLines index ps).
Proof.
  revert index. induction ps as [| p ps IH]; intros index; [reflexivity |].
  cbn [forEach projectLines]. unfold bind at 1. unfold console at 1.
  rewrite IH. reflexivity.
Qed.

Lemma tryBlock_run (finding : Finding) (e : Env W) :
  tryBlock repoName lowerFiles finding e =
  let key := JIRA_PROJECT_KEY e in
  let q := jql key (summary finding) in
  match searchIssues q (world e) with
  | (Throw err, w1) => (Throw err, withWorld e w1, [EvSearch q (Throw err)])
  | (Ok (first :: _), w1) =>
      match updateIssue (issue_key first) (summary finding)
              (newDescription repoName lowerFiles finding) w1 with
      | (Ok u, w2) =>
          (Ok Succeeded, withWorld e w2,
           [EvSearch q (fst (searchIssues q (world e)));
            EvUpdate (issue_key first) (summary finding)
              (newDescription repoName lowerFiles finding) (Ok u);
            EvConsole (UpdatedLine (issue_key first) (summary finding))])
      | (Throw err, w2) =>
          (Throw err, withWorld e w2,
           [EvSearch q (fst (searchIssues q (world e)));
            EvUpdate (issue_key first) (summary finding)
              (newDescription repoName lowerFiles finding) (Throw err)])
      end
  | (Ok [], w1) =>
      match createIssue key (summary finding) (newDescription repoName lowerFiles finding) "Task" w1 with
      | (Ok ticket, w2) =>
          (Ok Succeeded, withWorld e w2,
           [EvSearch q (Ok []);
            EvCreate key (summary finding) (newDescription repoName lowerFiles finding) "Task" (Ok ticket);
            EvConsole (CreatedLine (issue_key ticket) (summary finding))])
      | (Throw err, w2) =>
          (Throw err, withWorld e w2,
           [EvSearch q (Ok []);
            EvCreate key (summary finding) (newDescription repoName lowerFiles finding) "Task" (Throw err)])
      end
  end.
Proof.
  unfold tryBlock, bind, await, readKey, console, ret.
  cbn [world withWorld JIRA_PROJECT_KEY].
  destruct (searchIssues _ (world e)) as [[issues | err] w1]; [| reflexivity].
  destruct issues as [| first others]; cbn [world withWorld JIRA_PROJECT_KEY fst].
  - destruct (createIssue _ _ _ _ w1) as [[ticket | err] w2]; reflexivity.
  - destruct (updateIssue _ _ _ w1) as [[u | err] w2]; reflexivity.
Qed.

Lemma recover_run (err : JsError) (e : Env W) :
  recover err e =
  match getProjects (world e) with
  | (Throw projErr, w1) =>
      (Throw err, withWorld e w1,
       [EvProjects (Throw projErr);
        EvConsole (ErrorFetchingProjects (message projErr))])
  | (Ok [], w1) =>
      (Throw err, withWorld e w1,
       [EvProjects (Ok []); EvConsole NoProjectsFound;
        EvConsole (ErrorFetchingProjects (message err))])
  | (Ok (p :: ps), w1) =>
      let '(answer, w2) := askQuestion projectPrompt w1 in
      (Ok Again,
       {| JIRA_PROJECT_KEY := selectProject (p :: ps) answer; world := w2 |},
       recoveryEvents (p :: ps) answer)
  end.
Proof.
  unfold recover, tryCatch, bind at 1, await.
  destruct (getProjects (world e)) as [[ps | projErr] w1].
  - destruct ps as [| p ps].
    + reflexivity.
    + unfold bind at 1. unfold console at 1.
      unfold bind at 1. rewrite forEach_projectLines.
      unfold bind, question, assignKey, readKey, console, ret, withKey, withWorld.
      cbn [world JIRA_PROJECT_KEY].
      destruct (askQuestion projectPrompt w1) as [answer w2].
      unfold recoveryEvents. cbn [app]. rewrite ?app_nil_r. reflexivity.
  - reflexivity.
Qed.

Lemma catchBlock_run (finding : Finding) (err : JsError) (e : Env W) :
  catchBlock finding err e =
  if isProjectError err then
    let '(r, e1, t) := recover err e in
    (r, e1,
     EvConsole (InvalidProjectKey (JIRA_PROJECT_KEY e)) ::
     EvConsole FetchingProjects :: t)
  else
    (Ok Skipped, e, [EvConsole (FailedToProcess (summary finding) (message err))]).
Proof.
  unfold catchBlock. destruct (isProjectError err); [| reflexivity].
  unfold bind, readKey, console.
  destruct (recover err e) as [[r e1] t]. reflexivity.
Qed.

Lemma iteration_run (finding : Finding) (e : Env W) :
  iteration repoName lowerFiles finding e =
  match tryBlock repoName lowerFiles finding e with
  | (Ok step, e1, t1) => (Ok step, e1, t1)
  | (Throw err, e1, t1) =>
      let '(r, e2, t2) := catchBlock finding err e1 in (r, e2, t1 ++ t2)
  end.
Proof. reflexivity. Qed.

Lemma processFinding_step (fuel : nat) (finding : Finding) (e : Env W) :
  processFinding repoName lowerFiles (S fuel) finding e =
  match iteration repoName lowerFiles finding e with
  | (Ok Again, e1, t1) => after t1 (processFinding repoName lowerFiles fuel finding e1)
  | (Ok _, e1, t1) => Some (Ok tt, e1, t1)
  | (Throw err, e1, t1) => Some (Throw err, e1, t1)
  end.
Proof.
  cbn [processFinding]. unfold andThen, after.
  destruct (iteration repoName lowerFiles finding e) as [[[step | err] e1] t1]; [| reflexivity].
  destruct step; try rewrite app_nil_r; try reflexivity.
Qed.

Lemma reconcile_step (fuel : nat) (finding : Finding) (rest : list Finding)
    (e : Env W) :
  reconcile repoName lowerFiles fuel (finding :: rest) e =
  match processFinding repoName lowerFiles fuel finding e with
  | Some (Ok _, e1, t1) => after t1 (reconcile repoName lowerFiles fuel rest e1)
  | Some (Throw err, e1, t1) => Some (Throw err, e1, t1)
  | None => None
  end.
Proof.
  cbn [reconcile]. unfold andThen, after.
  destruct (processFinding repoName lowerFiles fuel finding e) as [[[[u | err] e1] t1] |];
    reflexivity.
Qed.

End Iteration.

(** ** The reconciliation loop, finding by finding *)

Section Engine.

Context {W : Type} `{Services W}.
Variable repoName : string.
Variable lowerFiles : list string.

(** C1: a pass for a finding starts with a search whose query is the
    text [project = "KEY" AND summary ~ "SUMMARY"], with the current
    project key and the finding's summary (its double quotes escaped); no
    other key and no other summary gives that text.  When the search
    returns at least one issue, the next call updates the first one with
    the finding's summary and the templated description, and once that
    call returns the finding is done with an updated outcome.  When the
    search returns none, the next call creates a Task in the current
    project, and once that call returns a ticket the finding is done with
    a created outcome. *)
Theorem C1_search_then_update_or_create (finding : Finding) (e : Env W) (fuel : nat) :
  let key := JIRA_PROJECT_KEY e in
  let quoted (s rest : string) := String Js.dquote (s ++ String Js.dquote rest) in
  let q := ("project = " ++
            quoted key (" AND summary ~ " ++
                        quoted (safeSummary (summary finding)) EmptyString))%string in
  let descr := newDescription repoName lowerFiles finding in
  let found := searchIssues q (world e) in
  let events := snd (iteration repoName lowerFiles finding e) in
  (forall key' smry',
     jql key' smry' = q -> key' = key /\ smry' = summary finding) /\
  (exists later, events = EvSearch q (fst found) :: later) /\
  match fst found with
  | Ok (first :: _) =>
      let upd := updateIssue (issue_key first) (summary finding) descr (snd found) in
      (exists later,
         events = EvSearch q (fst found) ::
                  EvUpdate (issue_key first) (summary finding) descr (fst upd) ::
                  later) /\
      match fst upd with
      | Ok _ =>
          processFinding repoName lowerFiles (S fuel) finding e =
            Some (Ok tt, withWorld e (snd upd), events) /\
          outcomes events = [updated (issue_key first) (summary finding)]
      | Throw _ => True
      end
  | Ok [] =>
      let cre := createIssue key (summary finding) descr "Task" (snd found) in
      (exists later,
         events = EvSearch q (Ok []) ::
                  EvCreate key (summary finding) descr "Task" (fst cre) ::
                  later) /\
      match fst cre with
      | Ok ticket =>
          processFinding repoName lowerFiles (S fuel) finding e =
            Some (Ok tt, withWorld e (snd cre), events) /\
          outcomes events = [created (issue_key ticket) (summary finding)]
      | Throw _ => True
      end
  | Throw _ => True
  end.
Proof.
  intros key quoted q.
  change q with (jql key (summary finding)). clear q quoted. subst key.
  cbv zeta. split; [intros key' smry' Heq; now apply jql_inj |].
  rewrite processFinding_step, iteration_run, tryBlock_run. cbv zeta.
  destruct (searchIssues _ (world e)) as [[issues | err] w1]; cbn [fst snd].
  - destruct issues as [| first others].
    + destruct (createIssue _ _ _ _ w1) as [[ticket | err] w2]; cbn [fst snd].
      * repeat split; eauto.
      * destruct (catchBlock finding err (withWorld e w2)) as [[r e2] t2].
        cbn [snd app]. repeat split; eauto.
    + destruct (updateIssue _ _ _ w1) as [[u | err] w2]; cbn [fst snd].
      * repeat split; eauto.
      * destruct (catchBlock finding err (withWorld e w2)) as [[r e2] t2].
        cbn [snd app]. repeat split; eauto.
  - destruct (catchBlock finding err (withWorld e w1)) as [[r e2] t2].
    cbn [snd app]. repeat split; eauto.
Qed.

(** What the handler does with an error that is not a project error. *)
Lemma catchBlock_other (finding : Finding) (err : JsError) (e : Env W) :
  isProjectError err = false ->
  catchBlock finding err e =
    (Ok Skipped, e, [EvConsole (FailedToProcess (summary finding) (message err))]).
Proof. intros Hno. rewrite catchBlock_run, Hno. reflexivity. Qed.

(** The handler asks for the project list exactly for project errors. *)
Lemma catchBlock_entersRecovery (finding : Finding) (err : JsError) (e : Env W) :
  entersRecovery (snd (catchBlock finding err e)) = isProjectError err.
Proof.
  rewrite catchBlock_run. destruct (isProjectError err); [| reflexivity].
  rewrite recover_run.
  destruct (getProjects (world e)) as [[[| p ps] | projErr] w1];
    try reflexivity.
  destruct (askQuestion projectPrompt w1) as [answer w2]. reflexivity.
Qed.

Lemma entersRecovery_app (t1 t2 : list Event) :
  entersRecovery (t1 ++ t2) = entersRecovery t1 || entersRecovery t2.
Proof. apply existsb_app. Qed.

(** A finding whose pass ends in [Skipped] leaves the rest of the list to
    be processed as it would be on its own. *)
Lemma reconcile_skipped (fuel : nat) (finding : Finding) (rest : list Finding)
    (e e1 : Env W) (t1 : list Event) (step : Step) :
  iteration repoName lowerFiles finding e = (Ok step, e1, t1) ->
  step <> Again ->
  reconcile repoName lowerFiles (S fuel) (finding :: rest) e =
    after t1 (reconcile repoName lowerFiles (S fuel) rest e1).
Proof.
  intros Hit Hstep. rewrite reconcile_step, processFinding_step, Hit.
  destruct step; [reflexivity | reflexivity | congruence].
Qed.

(** The first events of the handler for a project error: the two lines
    about the key, then the request for the project list. *)
Lemma catchBlock_requests_projects (finding : Finding) (err : JsError) (e : Env W) :
  isProjectError err = true ->
  exists later,
    snd (catchBlock finding err e) =
      EvConsole (InvalidProjectKey (JIRA_PROJECT_KEY e)) ::
      EvConsole FetchingProjects ::
      EvProjects (fst (getProjects (world e))) :: later.
Proof.
  intros Hproj. rewrite catchBlock_run, Hproj, recover_run.
  destruct (getProjects (world e)) as [[[| p ps] | projErr] w1]; cbn [fst snd];
    try (eexists; reflexivity).
  destruct (askQuestion projectPrompt w1) as [answer w2]. cbn [snd].
  unfold recoveryEvents. eexists. reflexivity.
Qed.

(** C2, as the script has it: when the update or the create raises [err],
    the recovery branch is entered exactly when the message of [err]
    contains the text "project is required" or the text "400", wherever in
    the message; then the two lines about the key are printed and the
    project list is requested, and the pass reports no outcome before
    that.  For any other error the pass ends with an abandoned outcome
    for this finding, and the remaining findings are processed as they
    would be on their own. *)
Theorem C2_failure_classification (finding : Finding) (rest : list Finding)
    (e : Env W) (issues : list Issue) (w1 w2 : W) (err : JsError) (fuel : nat) :
  let key := JIRA_PROJECT_KEY e in
  let q := jql key (summary finding) in
  let descr := newDescription repoName lowerFiles finding in
  let failedCall :=
    match issues with
    | first :: _ => EvUpdate (issue_key first) (summary finding) descr (Throw err)
    | [] => EvCreate key (summary finding) descr "Task" (Throw err)
    end in
  let signalled :=
    match message err with
    | Some msg => Js.includes msg "project is required" || Js.includes msg "400"
    | None => false
    end in
  searchIssues q (world e) = (Ok issues, w1) ->
  match issues with
  | first :: _ =>
      updateIssue (issue_key first) (summary finding) descr w1 = (Throw err, w2)
  | [] => createIssue key (summary finding) descr "Task" w1 = (Throw err, w2)
  end ->
  entersRecovery (snd (iteration repoName lowerFiles finding e)) = signalled /\
  (signalled = true ->
   exists later,
     snd (iteration repoName lowerFiles finding e) =
       EvSearch q (Ok issues) :: failedCall ::
       EvConsole (InvalidProjectKey key) :: EvConsole FetchingProjects ::
       EvProjects (fst (getProjects w2)) :: later) /\
  (signalled = false ->
   let events :=
     [EvSearch q (Ok issues); failedCall;
      EvConsole (FailedToProcess (summary finding) (message err))] in
   iteration repoName lowerFiles finding e = (Ok Skipped, withWorld e w2, events) /\
   outcomes events = [abandoned (summary finding) (message err)] /\
   reconcile repoName lowerFiles (S fuel) (finding :: rest) e =
     after events (reconcile repoName lowerFiles (S fuel) rest (withWorld e w2))).
Proof.
  intros key q descr failedCall signalled Hsearch Hcall.
  assert (Htest : isProjectError err = signalled) by apply project_error_text.
  assert (Htry : tryBlock repoName lowerFiles finding e =
                 (Throw err, withWorld e w2, [EvSearch q (Ok issues); failedCall])).
  { rewrite tryBlock_run. cbv zeta.
    subst failedCall. unfold q, descr, key in *. rewrite Hsearch.
    destruct issues as [| first others]; rewrite Hcall; reflexivity. }
  assert (Hit : iteration repoName lowerFiles finding e =
                let '(r, e2, t2) := catchBlock finding err (withWorld e w2) in
                (r, e2, [EvSearch q (Ok issues); failedCall] ++ t2)).
  { rewrite iteration_run, Htry. reflexivity. }
  split; [| split].
  - rewrite Hit.
    pose proof (catchBlock_entersRecovery finding err (withWorld e w2)) as Hrec.
    destruct (catchBlock finding err (withWorld e w2)) as [[r e2] t2].
    cbn [snd] in *. rewrite entersRecovery_app, Hrec, Htest.
    subst failedCall. destruct issues; reflexivity.
  - intros Hsignal. rewrite <- Htest in Hsignal.
    destruct (catchBlock_requests_projects finding err (withWorld e w2) Hsignal)
      as [later Hlater].
    exists later. rewrite Hit.
    destruct (catchBlock finding err (withWorld e w2)) as [[r e2] t2].
    cbn [snd] in *. rewrite Hlater. reflexivity.
  - intros Hother events. rewrite <- Htest in Hother.
    assert (Hskip : iteration repoName lowerFiles finding e =
                    (Ok Skipped, withWorld e w2, events)).
    { rewrite Hit, catchBlock_other by exact Hother.
      reflexivity. }
    split; [exact Hskip |]. split.
    + subst events failedCall. destruct issues; reflexivity.
    + apply reconcile_skipped with (step := Skipped); [exact Hskip | discriminate].
Qed.

(** C9, as the script has it: an error raised by the search itself goes
    through the same handler as one raised by update or create.  The
    recovery branch is entered exactly when its message contains the text
    "project is required" or the text "400": the project list is
    requested, and when it is not empty the same finding is tried again
    under the key the operator selected.  Any other error abandons the
    finding and the remaining findings are processed. *)
Theorem C9_search_failure_same_handler (finding : Finding) (rest : list Finding)
    (e : Env W) (w1 : W) (err : JsError) (fuel : nat) :
  let q := jql (JIRA_PROJECT_KEY e) (summary finding) in
  let signalled :=
    match message err with
    | Some msg => Js.includes msg "project is required" || Js.includes msg "400"
    | None => false
    end in
  searchIssues q (world e) = (Throw err, w1) ->
  iteration repoName lowerFiles finding e =
    (let '(r, e2, t2) := catchBlock finding err (withWorld e w1) in
     (r, e2, EvSearch q (Throw err) :: t2)) /\
  entersRecovery (snd (iteration repoName lowerFiles finding e)) = signalled /\
  (signalled = true ->
   (exists later,
      snd (iteration repoName lowerFiles finding e) =
        EvSearch q (Throw err) ::
        EvConsole (InvalidProjectKey (JIRA_PROJECT_KEY e)) ::
        EvConsole FetchingProjects ::
        EvProjects (fst (getProjects w1)) :: later) /\
   match getProjects w1 with
   | (Ok (p :: ps), w2) =>
       let '(answer, w3) := askQuestion projectPrompt w2 in
       processFinding repoName lowerFiles (S fuel) finding e =
         after (EvSearch q (Throw err) ::
                EvConsole (InvalidProjectKey (JIRA_PROJECT_KEY e)) ::
                EvConsole FetchingProjects ::
                recoveryEvents (p :: ps) answer)
           (processFinding repoName lowerFiles fuel finding
              {| JIRA_PROJECT_KEY := selectProject (p :: ps) answer;
                 world := w3 |})
   | _ => True
   end) /\
  (signalled = false ->
   let events :=
     [EvSearch q (Throw err);
      EvConsole (FailedToProcess (summary finding) (message err))] in
   iteration repoName lowerFiles finding e = (Ok Skipped, withWorld e w1, events) /\
   outcomes events = [abandoned (summary finding) (message err)] /\
   reconcile repoName lowerFiles (S fuel) (finding :: rest) e =
     after events (reconcile repoName lowerFiles (S fuel) rest (withWorld e w1))).
Proof.
  intros q signalled Hsearch.
  assert (Htest : isProjectError err = signalled) by apply project_error_text.
  assert (Hit : iteration repoName lowerFiles finding e =
                let '(r, e2, t2) := catchBlock finding err (withWorld e w1) in
                (r, e2, EvSearch q (Throw err) :: t2)).
  { rewrite iteration_run, tryBlock_run. cbv zeta.
    unfold q in *. rewrite Hsearch.
    destruct (catchBlock finding err (withWorld e w1)) as [[r e2] t2].
    reflexivity. }
  split; [exact Hit |]. split; [| split].
  - rewrite Hit.
    pose proof (catchBlock_entersRecovery finding err (withWorld e w1)) as Hrec.
    destruct (catchBlock finding err (withWorld e w1)) as [[r e2] t2].
    cbn [snd] in *. rewrite <- Htest. exact Hrec.
  - intros Hsignal. rewrite <- Htest in Hsignal. split.
    + destruct (catchBlock_requests_projects finding err (withWorld e w1) Hsignal)
        as [later Hlater].
      exists later. rewrite Hit.
      destruct (catchBlock finding err (withWorld e w1)) as [[r e2] t2].
      cbn [snd] in *. rewrite Hlater. reflexivity.
    + destruct (getProjects w1) as [[[| p ps] | projErr] w2] eqn:Hget; try exact I.
      destruct (askQuestion projectPrompt w2) as [answer w3] eqn:Hask.
      rewrite processFinding_step, Hit, catchBlock_run, Hsignal, recover_run.
      cbn [world withWorld]. rewrite Hget, Hask. reflexivity.
  - intros Hother events. rewrite <- Htest in Hother.
    assert (Hskip : iteration repoName lowerFiles finding e =
                    (Ok Skipped, withWorld e w1, events)).
    { rewrite Hit, catchBlock_other by exact Hother.
      reflexivity. }
    split; [exact Hskip |]. split; [reflexivity |].
    apply reconcile_skipped with (step := Skipped); [exact Hskip | discriminate].
Qed.

End Engine.

(** Splits a pass into the ways it can go: which call failed, whether
    the failure is a project error, and what the recovery obtained. *)
Ltac pass_cases e :=
  rewrite iteration_run, tryBlock_run; cbv zeta;
  destruct (searchIssues _ (world e)) as [[[| ? ?] | ?] ?];
  cbn [fst snd];
  [ destruct (createIssue _ _ _ _ _) as [[? | ?] ?]
  | destruct (updateIssue _ _ _ _) as [[? | ?] ?]
  | ];
  try (rewrite catchBlock_run;
       match goal with
       | |- context [isProjectError ?x] => destruct (isProjectError x) eqn:?
       end;
       [ rewrite recover_run; cbn [world withWorld];
         destruct (getProjects _) as [[[| ? ?] | ?] ?];
         [ | destruct (askQuestion projectPrompt _) as [? ?] | ]
       | ]).

(** ** Progress of the retry loop *)

Section Progress.

Context {W : Type} `{Services W}.
Variable repoName : string.
Variable lowerFiles : list string.



Lemma outcomes_app (t1 t2 : list Event) :
  outcomes (t1 ++ t2) = outcomes t1 ++ outcomes t2.
Proof. apply flat_map_app. Qed.

Lemma outcomes_projectLines (index : nat) (ps : list Project) :
  outcomes (projectLines index ps) = [].
Proof.
  revert index. induction ps as [| p ps IH]; intros index; [reflexivity |].
  cbn [projectLines]. unfold outcomes in *. cbn [flat_map outcomeOf app].
  apply IH.
Qed.

Lemma outcomes_recoveryEvents (ps : list Project) (answer : string) :
  outcomes (recoveryEvents ps answer) = [].
Proof.
  unfold recoveryEvents.
  change (outcomes (projectLines 0 ps ++
            [EvQuestion projectPrompt answer;
             EvConsole (RetryingWith (selectProject ps answer))]) = []).
  rewrite outcomes_app, outcomes_projectLines. reflexivity.
Qed.


End Progress.

(** ** The project key along a run *)

Section KeyTracking.

Context {W : Type} `{Services W}.
Variable repoName : string.
Variable lowerFiles : list string.

Lemma keyAfter_app (t1 t2 : list Event) (key : string) (listed : list Project) :
  keyAfter key listed (t1 ++ t2) =
  keyAfter (fst (keyAfter key listed t1)) (snd (keyAfter key listed t1)) t2.
Proof.
  revert key listed. induction t1 as [| ev t1 IH]; intros key listed;
    [reflexivity |].
  destruct ev as [| | | | | [ps | err] | |  |]; cbn [app keyAfter]; apply IH.
Qed.

Lemma usesKey_app (t1 t2 : list Event) (key : string) (listed : list Project) :
  usesKey key listed (t1 ++ t2) <->
  usesKey key listed t1 /\
  usesKey (fst (keyAfter key listed t1)) (snd (keyAfter key listed t1)) t2.
Proof.
  revert key listed. induction t1 as [| ev t1 IH]; intros key listed.
  - cbn. tauto.
  - destruct ev as [| | | | | [ps | err] | |  |]; cbn [app usesKey keyAfter];
      rewrite IH; tauto.
Qed.

Lemma keyAfter_projectLines (index : nat) (ps : list Project) (t : list Event)
    (key : string) (listed : list Project) :
  keyAfter key listed (projectLines index ps ++ t) = keyAfter key listed t.
Proof.
  revert index. induction ps as [| p ps IH]; intros index; [reflexivity |].
  cbn [projectLines app keyAfter]. apply IH.
Qed.

Lemma usesKey_projectLines (index : nat) (ps : list Project) (t : list Event)
    (key : string) (listed : list Project) :
  usesKey key listed (projectLines index ps ++ t) <-> usesKey key listed t.
Proof.
  revert index. induction ps as [| p ps IH]; intros index; [reflexivity |].
  cbn [projectLines app usesKey]. apply IH.
Qed.

Lemma keyAfter_recoveryEvents (ps : list Project) (answer : string)
    (key : string) (listed : list Project) :
  keyAfter key listed (recoveryEvents ps answer) = (selectProject ps answer, ps).
Proof.
  unfold recoveryEvents. cbn [keyAfter].
  rewrite keyAfter_projectLines. reflexivity.
Qed.

Lemma usesKey_recoveryEvents (ps : list Project) (answer : string)
    (key : string) (listed : list Project) :
  usesKey key listed (recoveryEvents ps answer).
Proof.
  unfold recoveryEvents. cbn [usesKey].
  rewrite usesKey_projectLines. cbn. exact I.
Qed.

(** One pass searches and creates under the key it starts with, and
    leaves the key an observer of its events reconstructs. *)
Lemma pass_tracks_key (finding : Finding) (e : Env W) (listed : list Project) :
  usesKey (JIRA_PROJECT_KEY e) listed
    (snd (iteration repoName lowerFiles finding e)) /\
  JIRA_PROJECT_KEY (snd (fst (iteration repoName lowerFiles finding e))) =
    fst (keyAfter (JIRA_PROJECT_KEY e) listed
           (snd (iteration repoName lowerFiles finding e))).
Proof.
  pass_cases e; cbn [fst snd app usesKey keyAfter withWorld JIRA_PROJECT_KEY];
    rewrite ?keyAfter_recoveryEvents; cbn [fst];
    repeat split; eauto using usesKey_recoveryEvents.
Qed.

Lemma processFinding_tracks_key (fuel : nat) (finding : Finding) (e e1 : Env W)
    (listed : list Project) (r : result unit) (t : list Event) :
  processFinding repoName lowerFiles fuel finding e = Some (r, e1, t) ->
  usesKey (JIRA_PROJECT_KEY e) listed t /\
  JIRA_PROJECT_KEY e1 = fst (keyAfter (JIRA_PROJECT_KEY e) listed t).
Proof.
  revert e listed t. induction fuel as [| fuel IH]; intros e listed t Hrun;
    [discriminate |].
  rewrite processFinding_step in Hrun.
  pose proof (pass_tracks_key finding e listed) as [Huse Hkey].
  destruct (iteration repoName lowerFiles finding e) as [[[step | err] e2] t2];
    cbn [fst snd] in *.
  - destruct step; try (injection Hrun as <- <- <-; split; assumption).
    destruct (processFinding repoName lowerFiles fuel finding e2)
      as [[[r3 e3] t3] |] eqn:Hnext; [| discriminate].
    cbn [after] in Hrun. injection Hrun as <- <- <-.
    apply (IH e2 (snd (keyAfter (JIRA_PROJECT_KEY e) listed t2))) in Hnext.
    destruct Hnext as [Huse3 Hkey3]. rewrite usesKey_app, keyAfter_app.
    rewrite <- Hkey. auto.
  - injection Hrun as <- <- <-. split; assumption.
Qed.

(** C4: along a run, every search and every create is issued against the
    project key current at that point, where the key starts as configured
    and changes only when the operator answers the project prompt, to the
    selection made from the project list just received; the key a finding
    starts with is the key the previous finding ended with, and the key
    left at the end is the last one selected. *)
Theorem C4_key_replaced_only_by_recovery (fuel : nat) (findings : list Finding)
    (e e1 : Env W) (listed : list Project) (r : result unit) (t : list Event) :
  reconcile repoName lowerFiles fuel findings e = Some (r, e1, t) ->
  usesKey (JIRA_PROJECT_KEY e) listed t /\
  JIRA_PROJECT_KEY e1 = fst (keyAfter (JIRA_PROJECT_KEY e) listed t).
Proof.
  revert e listed t.
  induction findings as [| finding rest IH]; intros e listed t Hrun.
  - injection Hrun as <- <- <-. split; [exact I | reflexivity].
  - rewrite reconcile_step in Hrun.
    destruct (processFinding repoName lowerFiles fuel finding e)
      as [[[[u | err] e2] t2] |] eqn:Hfirst; [| | discriminate].
    + apply (processFinding_tracks_key _ _ _ _ listed) in Hfirst.
      destruct Hfirst as [Huse Hkey].
      destruct (reconcile repoName lowerFiles fuel rest e2)
        as [[[r3 e3] t3] |] eqn:Hrest; [| discriminate].
      cbn [after] in Hrun. injection Hrun as <- <- <-.
      apply (IH e2 (snd (keyAfter (JIRA_PROJECT_KEY e) listed t2))) in Hrest.
      destruct Hrest as [Huse3 Hkey3]. rewrite usesKey_app, keyAfter_app.
      rewrite <- Hkey. auto.
    + injection Hrun as <- <- <-.
      apply (processFinding_tracks_key _ _ _ _ listed) in Hfirst. exact Hfirst.
Qed.

End KeyTracking.

(** ** Running out of projects *)

Section Exhaustion.

Context {W : Type} `{Services W}.
Variable repoName : string.
Variable lowerFiles : list string.

Lemma exhausted_app (t1 t2 : list Event) :
  exhausted (t1 ++ t2) = exhausted t1 || exhausted t2.
Proof. apply existsb_app. Qed.

Lemma exhausted_projectLines (index : nat) (ps : list Project) :
  exhausted (projectLines index ps) = false.
Proof.
  revert index. induction ps as [| p ps IH]; intros index; [reflexivity |].
  cbn [projectLines]. unfold exhausted in *. cbn [existsb isEmptyProjectList orb].
  apply IH.
Qed.

Lemma exhausted_recoveryEvents (p : Project) (ps : list Project) (answer : string) :
  exhausted (recoveryEvents (p :: ps) answer) = false.
Proof.
  unfold recoveryEvents.
  change (exhausted (projectLines 0 (p :: ps) ++
            [EvQuestion projectPrompt answer;
             EvConsole (RetryingWith (selectProject (p :: ps) answer))]) = false).
  rewrite exhausted_app, exhausted_projectLines. reflexivity.
Qed.

(** What one pass reports, and how it can meet an empty project list. *)
Lemma pass_outcomes (finding : Finding) (e : Env W) :
  match iteration repoName lowerFiles finding e with
  | (Ok Again, _, t) => outcomes t = [] /\ exhausted t = false
  | (Ok _, _, t) =>
      exhausted t = false /\
      exists o, outcomes t = [o] /\ outcomeSummary o = summary finding
  | (Throw err, _, t) =>
      outcomes t = [] /\
      (exhausted t = true -> exists before, t = before ++ exhaustionEvents err)
  end.
Proof.
  pass_cases e; cbn [app]; unfold outcomes, exhausted;
    cbn [flat_map outcomeOf existsb isEmptyProjectList orb app];
    fold (outcomes) (exhausted);
    rewrite ?outcomes_recoveryEvents, ?exhausted_recoveryEvents;
    repeat split; eauto; try discriminate.
  all: intros _; unfold exhaustionEvents.
  all: match goal with
       | |- exists before, ?a :: ?b :: ?c :: ?d :: ?rest = _ =>
           exists [a; b; c; d]; reflexivity
       | |- exists before, ?a :: ?c :: ?d :: ?rest = _ =>
           exists [a; c; d]; reflexivity
       end.
Qed.

Lemma processFinding_outcomes (fuel : nat) (finding : Finding) (e e1 : Env W)
    (r : result unit) (t : list Event) :
  processFinding repoName lowerFiles fuel finding e = Some (r, e1, t) ->
  match r with
  | Ok _ =>
      exhausted t = false /\
      exists o, outcomes t = [o] /\ outcomeSummary o = summary finding
  | Throw err =>
      outcomes t = [] /\
      (exhausted t = true -> exists before, t = before ++ exhaustionEvents err)
  end.
Proof.
  revert e t. induction fuel as [| fuel IH]; intros e t Hrun; [discriminate |].
  rewrite processFinding_step in Hrun.
  pose proof (pass_outcomes finding e) as Hpass.
  destruct (iteration repoName lowerFiles finding e) as [[[step | err] e2] t2].
  - destruct step; try (injection Hrun as <- <- <-; exact Hpass).
    destruct Hpass as [Hnone Hfine].
    destruct (processFinding repoName lowerFiles fuel finding e2)
      as [[[r3 e3] t3] |] eqn:Hnext; [| discriminate].
    cbn [after] in Hrun. injection Hrun as <- <- <-.
    apply IH in Hnext. rewrite outcomes_app, exhausted_app, Hnone, Hfine.
    cbn [app orb]. destruct r3 as [u | err]; [exact Hnext |].
    destruct Hnext as [Hout Hexh]. split; [exact Hout |].
    intros Htrue. destruct (Hexh Htrue) as [before ->].
    exists (t2 ++ before). apply app_assoc.
  - injection Hrun as <- <- <-. exact Hpass.
Qed.

(** A pass that meets an empty project list: the call that raised the
    error, the two lines about the key, and the last events of the run. *)
Lemma pass_exhausted_cause (finding : Finding) (e e1 : Env W) (err : JsError)
    (t : list Event) :
  iteration repoName lowerFiles finding e = (Throw err, e1, t) ->
  exhausted t = true ->
  exists earlier call key,
    raisedFor finding err call /\
    t = earlier ++
        [call; EvConsole (InvalidProjectKey key); EvConsole FetchingProjects] ++
        exhaustionEvents err.
Proof.
  revert e1 err t. pass_cases e; intros env' thrown events Heq Hexh;
    try discriminate; injection Heq as <- <- <-; try discriminate Hexh.
  all: first [ exists []; eexists _, _; split; [| reflexivity]
             | eexists [_]; eexists _, _; split; [| reflexivity] ].
  all: cbn [raisedFor]; split; try reflexivity.
  all: eexists; reflexivity.
Qed.

Lemma processFinding_exhausted_cause (fuel : nat) (finding : Finding)
    (e e1 : Env W) (err : JsError) (t : list Event) :
  processFinding repoName lowerFiles fuel finding e = Some (Throw err, e1, t) ->
  exhausted t = true ->
  exists earlier call key,
    raisedFor finding err call /\
    t = earlier ++
        [call; EvConsole (InvalidProjectKey key); EvConsole FetchingProjects] ++
        exhaustionEvents err.
Proof.
  revert e t. induction fuel as [| fuel IH]; intros e t Hrun Hexh; [discriminate |].
  rewrite processFinding_step in Hrun.
  pose proof (pass_outcomes finding e) as Hpass.
  destruct (iteration repoName lowerFiles finding e) as [[[step | thrown] e2] t2]
    eqn:Hit.
  - destruct step; try discriminate Hrun.
    destruct Hpass as [_ Hfine].
    destruct (processFinding repoName lowerFiles fuel finding e2)
      as [[[r3 e3] t3] |] eqn:Hnext; [| discriminate].
    cbn [after] in Hrun. injection Hrun as -> <- <-.
    rewrite exhausted_app, Hfine in Hexh. cbn [orb] in Hexh.
    destruct (IH _ _ Hnext Hexh) as [earlier [call [key [Hcall ->]]]].
    exists (t2 ++ earlier), call, key. split; [exact Hcall |].
    now rewrite <- app_assoc.
  - injection Hrun as <- <- <-.
    exact (pass_exhausted_cause finding e e2 thrown t2 Hit Hexh).
Qed.

Lemma reconcile_exhausted_cause (fuel : nat) (findings : list Finding)
    (e e1 : Env W) (r : result unit) (t : list Event) :
  reconcile repoName lowerFiles fuel findings e = Some (r, e1, t) ->
  exhausted t = true ->
  exists err earlier call key done current rest,
    r = Throw err /\
    findings = done ++ current :: rest /\
    raisedFor current err call /\
    t = earlier ++
        [call; EvConsole (InvalidProjectKey key); EvConsole FetchingProjects] ++
        exhaustionEvents err /\
    map outcomeSummary (outcomes t) = map summary done.
Proof.
  revert e t. induction findings as [| finding others IH]; intros e t Hrun Hexh.
  - injection Hrun as <- <- <-. discriminate.
  - rewrite reconcile_step in Hrun.
    destruct (processFinding repoName lowerFiles fuel finding e)
      as [[[[u | err] e2] t2] |] eqn:Hfirst; [| | discriminate].
    + apply processFinding_outcomes in Hfirst.
      destruct Hfirst as [Hfine [o [Hout Hsum]]].
      destruct (reconcile repoName lowerFiles fuel others e2)
        as [[[r3 e3] t3] |] eqn:Hrest; [| discriminate].
      cbn [after] in Hrun. injection Hrun as <- <- <-.
      rewrite exhausted_app, Hfine in Hexh. cbn [orb] in Hexh.
      destruct (IH _ _ Hrest Hexh)
        as [err [earlier [call [key [done [current [rest
              [-> [-> [Hcall [-> Hmap]]]]]]]]]]].
      exists err, (t2 ++ earlier), call, key, (finding :: done), current, rest.
      repeat split; try assumption.
      * now rewrite <- app_assoc.
      * rewrite outcomes_app, Hout, map_app, Hmap. cbn [app map].
        now rewrite Hsum.
    + injection Hrun as <- <- <-.
      pose proof Hfirst as Hout. apply processFinding_outcomes in Hout.
      destruct Hout as [Hout _].
      destruct (processFinding_exhausted_cause _ _ _ _ _ _ Hfirst Hexh)
        as [earlier [call [key [Hcall ->]]]].
      exists err, earlier, call, key, [], finding, others.
      repeat split; try assumption. rewrite Hout. reflexivity.
Qed.

(** C3, as the script has it: when the project list comes back empty the
    run stops at once.  The loop ends with the error raised by the call,
    made for the current finding, that triggered the recovery, and
    nothing is called or asked after the empty list.  The message of that
    error is printed twice, for the run and not per finding: on the line
    that reports the failed fetch of the projects, and on the line for an
    unexpected error; then the readline interface is closed.  Outcomes
    have been reported for the findings before the current one and for no
    other: neither the current nor the remaining findings get a line of
    their own. *)
Theorem C3_empty_project_list_stops_run (fuel : nat) (findings : list Finding)
    (e e1 : Env W) (r : result unit) (t : list Event) :
  reconcile repoName lowerFiles fuel findings e = Some (r, e1, t) ->
  exhausted t = true ->
  exists err earlier call key done current rest,
    r = Throw err /\
    findings = done ++ current :: rest /\
    raisedFor current err call /\
    t = earlier ++
        [call; EvConsole (InvalidProjectKey key); EvConsole FetchingProjects;
         EvProjects (Ok []); EvConsole NoProjectsFound;
         EvConsole (ErrorFetchingProjects (message err))] /\
    map outcomeSummary (outcomes t) = map summary done /\
    reconcileStage fuel repoName lowerFiles findings e =
      Some (e1, EvConsole (FoundIssues (length findings)) ::
                t ++ [EvConsole (UnexpectedError (message err)); EvClose]).
Proof.
  intros Hrun Hexh.
  destruct (reconcile_exhausted_cause _ _ _ _ _ _ Hrun Hexh)
    as [err [earlier [call [key [done [current [rest
          [Hr [Hfind [Hcall [Ht Hmap]]]]]]]]]]].
  exists err, earlier, call, key, done, current, rest.
  repeat split; try assumption.
  unfold reconcileStage. rewrite Hrun, Hr.
  destruct findings as [| finding others].
  - destruct done; discriminate.
  - reflexivity.
Qed.

End Exhaustion.

(** ** Replayed runs *)

(** Against a store that answers the query it is sent: the README summary
    is filed in OPS only, so the search under DOT finds nothing and the
    ticket is created in DOT; the LICENSE summary is filed in DOT as DOT-7,
    which is updated. *)
Lemma C1_search_then_update_or_create_witness :
  outcomes (snd (iteration Replay.repo [] (readmeFinding Replay.repo) Mishap.shelf))
  = [created "DOT-8" "Missing README in o/r"] /\
  outcomes (snd (iteration Replay.repo [] (licenseFinding Replay.repo) Mishap.shelf))
  = [updated "DOT-7" "Missing LICENSE in o/r"].
Proof.
  split.
  - pose proof (C1_search_then_update_or_create Replay.repo []
                  (readmeFinding Replay.repo) Mishap.shelf 0) as Hpass.
    cbv in Hpass. destruct Hpass as [_ [_ [_ [_ Hout]]]].
    cbv. exact Hout.
  - pose proof (C1_search_then_update_or_create Replay.repo []
                  (licenseFinding Replay.repo) Mishap.shelf 0) as Hpass.
    cbv in Hpass. destruct Hpass as [_ [_ [_ [_ Hout]]]].
    cbv. exact Hout.
Defined.

(** Four findings of which the second is refused with status 401: the
    LICENSE finding is abandoned and the other three are created.  And a
    create that fails on the project: the project list is requested. *)
Lemma C2_failure_classification_witness :
  (option_map (fun r => outcomes (snd r))
     (reconcile Replay.repo [] 1 Replay.fourFindings Replay.secondRefused)
   = Some [created "DOT-1" "Missing README in o/r";
           abandoned "Missing LICENSE in o/r"
             (Some "Request failed with status code 401");
           created "DOT-3" "Missing .gitignore in o/r";
           created "DOT-4" "Missing GitHub Workflows in o/r"] /\
   entersRecovery
     (snd (iteration Replay.repo [] (licenseFinding Replay.repo)
             Replay.secondRefusedNext))
   = false /\
   exists events,
     outcomes events =
       [abandoned "Missing LICENSE in o/r"
          (Some "Request failed with status code 401")] /\
     reconcile Replay.repo [] 1
       [licenseFinding Replay.repo; gitignoreFinding Replay.repo;
        workflowsFinding Replay.repo] Replay.secondRefusedNext =
     after events
       (reconcile Replay.repo [] 1
          [gitignoreFinding Replay.repo; workflowsFinding Replay.repo]
          Replay.secondRefusedAfter)) /\
  (entersRecovery
     (snd (iteration Replay.repo [] (readmeFinding Replay.repo)
             Mishap.createNeedsProject))
   = true /\
   exists later,
     snd (iteration Replay.repo [] (readmeFinding Replay.repo)
            Mishap.createNeedsProject) =
       EvSearch (jql "DOT" "Missing README in o/r") (Ok []) ::
       EvCreate "DOT" "Missing README in o/r"
         (newDescription Replay.repo [] (readmeFinding Replay.repo)) "Task"
         (Throw Replay.projectRequired) ::
       EvConsole (InvalidProjectKey "DOT") :: EvConsole FetchingProjects ::
       EvProjects (Ok Replay.twoProjects) :: later).
Proof.
  split.
  - split; [vm_compute; reflexivity |].
    edestruct (C2_failure_classification Replay.repo [] (licenseFinding Replay.repo)
                [gitignoreFinding Replay.repo; workflowsFinding Replay.repo]
                Replay.secondRefusedNext []
                (Replay.script [] []
                   [Throw Replay.unauthorized; Ok (Replay.ticket "DOT-3");
                    Ok (Replay.ticket "DOT-4")] [] [])
                (Replay.script [] []
                   [Ok (Replay.ticket "DOT-3"); Ok (Replay.ticket "DOT-4")] [] [])
                Replay.unauthorized 0)
      as [Hrec [_ Hother]]; [reflexivity | reflexivity |].
    split; [exact Hrec |].
    destruct (Hother eq_refl) as [_ [Hout Hrest]].
    eexists. split; [exact Hout | exact Hrest].
  - edestruct (C2_failure_classification Replay.repo [] (readmeFinding Replay.repo)
                [] Mishap.createNeedsProject []
                (Replay.script [] [] [Throw Replay.projectRequired]
                   [Ok Replay.twoProjects] ["2"])
                (Replay.script [] [] [] [Ok Replay.twoProjects] ["2"])
                Replay.projectRequired 0)
      as [Hrec [Hsignal _]]; [reflexivity | reflexivity |].
    split; [exact Hrec |].
    destruct (Hsignal eq_refl) as [later Hlater].
    exists later. exact Hlater.
Defined.

(** An update refused because the issue is locked is no failure about the
    project, yet its message contains the digits 400: the pass does not
    abandon the finding but requests the project list and asks the
    operator, and the run goes on under OPS, where the ticket is created. *)
Lemma C2_locked_issue_counterexample :
  let pass := iteration Replay.repo [] (readmeFinding Replay.repo)
                Mishap.lockedUpdate in
  message Mishap.locked = Some "Issue DOT-1400 is locked by another user" /\
  Js.includes "Issue DOT-1400 is locked by another user" "project is required"
    = false /\
  In (EvUpdate "DOT-1400" "Missing README in o/r"
        (newDescription Replay.repo [] (readmeFinding Replay.repo))
        (Throw Mishap.locked)) (snd pass) /\
  entersRecovery (snd pass) = true /\
  In (EvQuestion projectPrompt "2") (snd pass) /\
  outcomes (snd pass) = [] /\
  exists e1 t,
    reconcile Replay.repo [] 2 [readmeFinding Replay.repo] Mishap.lockedUpdate
      = Some (Ok tt, e1, t) /\
    JIRA_PROJECT_KEY e1 = "OPS" /\
    outcomes t = [created "NEW-0" "Missing README in o/r"].
Proof.
  cbv zeta. split; [reflexivity |]. split; [vm_compute; reflexivity |].
  split; [vm_compute; right; left; reflexivity |].
  split; [vm_compute; reflexivity |].
  split; [vm_compute; tauto |].
  split; [vm_compute; reflexivity |].
  eexists _, _. split; [cbv; reflexivity |].
  split; vm_compute; reflexivity.
Qed.

(** A search refused with status 401 abandons the finding as well.  And a
    search that fails on the project: the project list is requested, the
    operator answers 2, and the same finding is searched again under OPS. *)
Lemma C9_search_failure_same_handler_witness :
  (entersRecovery
     (snd (iteration Replay.repo [] (readmeFinding Replay.repo) Replay.searchRefused))
   = false /\
   exists events,
     outcomes events =
       [abandoned "Missing README in o/r"
          (Some "Request failed with status code 401")] /\
     reconcile Replay.repo [] 1
       [readmeFinding Replay.repo; licenseFinding Replay.repo] Replay.searchRefused =
     after events
       (reconcile Replay.repo [] 1 [licenseFinding Replay.repo]
          (Scripted.start "DOT" Scripted.quiet))) /\
  (entersRecovery
     (snd (iteration Replay.repo [] (readmeFinding Replay.repo)
             Mishap.searchNeedsProject))
   = true /\
   processFinding Replay.repo [] 2 (readmeFinding Replay.repo)
     Mishap.searchNeedsProject =
   after (EvSearch (jql "DOT" "Missing README in o/r")
            (Throw Replay.projectRequired) ::
          EvConsole (InvalidProjectKey "DOT") :: EvConsole FetchingProjects ::
          recoveryEvents Replay.twoProjects "2")
     (processFinding Replay.repo [] 1 (readmeFinding Replay.repo)
        (Scripted.start "OPS"
           (Replay.script [Ok [Replay.ticket "OPS-3"]] [] [] [] [])))).
Proof.
  split.
  - destruct (C9_search_failure_same_handler Replay.repo []
                (readmeFinding Replay.repo) [licenseFinding Replay.repo]
                Replay.searchRefused Scripted.quiet Replay.unauthorized 0)
      as [_ [Hrec [_ Hother]]]; [reflexivity |].
    split; [exact Hrec |].
    destruct (Hother eq_refl) as [_ [Hout Hrest]].
    eexists. split; [exact Hout | exact Hrest].
  - destruct (C9_search_failure_same_handler Replay.repo []
                (readmeFinding Replay.repo) []
                Mishap.searchNeedsProject
                (Replay.script [Ok [Replay.ticket "OPS-3"]] [] []
                   [Ok Replay.twoProjects] ["2"])
                Replay.projectRequired 1)
      as [_ [Hrec [Hsignal _]]]; [reflexivity |].
    split; [exact Hrec |].
    destruct (Hsignal eq_refl) as [_ Hretry]. exact Hretry.
Defined.

(** A search that times out is no failure about the project, yet its
    message contains the digits 400: the finding is not abandoned; the
    project list is requested, the operator is asked, and the finding is
    searched again and created under OPS. *)
Lemma C9_timeout_counterexample :
  let pass := iteration Replay.repo [] (readmeFinding Replay.repo)
                Mishap.searchTimedOut in
  message Mishap.timedOut = Some "timeout of 4000ms exceeded" /\
  Js.includes "timeout of 4000ms exceeded" "project is required" = false /\
  In (EvSearch (jql "DOT" "Missing README in o/r") (Throw Mishap.timedOut))
    (snd pass) /\
  entersRecovery (snd pass) = true /\
  In (EvQuestion projectPrompt "2") (snd pass) /\
  outcomes (snd pass) = [] /\
  exists e1 t,
    reconcile Replay.repo [] 2 [readmeFinding Replay.repo] Mishap.searchTimedOut
      = Some (Ok tt, e1, t) /\
    JIRA_PROJECT_KEY e1 = "OPS" /\
    outcomes t = [created "NEW-0" "Missing README in o/r"].
Proof.
  cbv zeta. split; [reflexivity |]. split; [vm_compute; reflexivity |].
  split; [vm_compute; left; reflexivity |].
  split; [vm_compute; reflexivity |].
  split; [vm_compute; tauto |].
  split; [vm_compute; reflexivity |].
  eexists _, _. split; [cbv; reflexivity |].
  split; vm_compute; reflexivity.
Qed.



(** Three findings, the search for the first fails on the project and no
    project can be listed: the run ends there. *)
Lemma C3_empty_project_list_stops_run_witness :
  exists e1 err earlier call key done current rest,
    Replay.threeFindings = done ++ current :: rest /\
    raisedFor current err call /\
    reconcileStage 1 Replay.repo [] Replay.threeFindings Replay.noProjects =
      Some (e1, EvConsole (FoundIssues 3) ::
                (earlier ++
                 [call; EvConsole (InvalidProjectKey key);
                  EvConsole FetchingProjects;
                  EvProjects (Ok []); EvConsole NoProjectsFound;
                  EvConsole (ErrorFetchingProjects (message err))]) ++
                [EvConsole (UnexpectedError (message err)); EvClose]).
Proof.
  edestruct (C3_empty_project_list_stops_run Replay.repo [] 1
               Replay.threeFindings Replay.noProjects)
    as [err [earlier [call [key [done [current [rest
          [_ [Hfind [Hcall [Ht [_ Hstage]]]]]]]]]]]];
    [reflexivity | reflexivity |].
  rewrite Ht in Hstage.
  eexists _, err, earlier, call, key, done, current, rest.
  split; [exact Hfind |]. split; [exact Hcall | exact Hstage].
Defined.

(** In that run the LICENSE and workflows findings are never attempted,
    and no outcome at all is reported for them: the console does not show
    them as abandoned. *)
Lemma C3_remaining_unreported_counterexample :
  exists e1 t,
    reconcileStage 1 Replay.repo [] Replay.threeFindings Replay.noProjects =
      Some (e1, t) /\
    exhausted t = true /\
    outcomes t = [] /\
    forall error,
      ~ In (abandoned (summary (licenseFinding Replay.repo)) error) (outcomes t).
Proof.
  eexists _, _. split; [reflexivity |]. split; [reflexivity |].
  split; [reflexivity |]. intros error Hin. exact Hin.
Qed.

(** Three findings, the create for the second fails on the project and the
    operator answers 2: the second finding is retried, and the third
    searched, under OPS. *)
Lemma C4_key_replaced_only_by_recovery_witness :
  exists r e1 t,
    reconcile Replay.repo [] 2 Replay.threeFindings Replay.replaced = Some (r, e1, t) /\
    (usesKey (JIRA_PROJECT_KEY Replay.replaced) [] t /\
     JIRA_PROJECT_KEY e1 = fst (keyAfter (JIRA_PROJECT_KEY Replay.replaced) [] t)) /\
    JIRA_PROJECT_KEY e1 = "OPS" /\
    outcomes t =
      [created "DOT-1" "Missing README in o/r";
       created "OPS-1" "Missing LICENSE in o/r";
       created "OPS-2" "Missing GitHub Workflows in o/r"].
Proof.
  eexists _, _, _. split; [cbv; reflexivity |]. split.
  - eapply (C4_key_replaced_only_by_recovery Replay.repo [] 2 Replay.threeFindings
              Replay.replaced). cbv. reflexivity.
  - split; cbv; reflexivity.
Defined.

(** ** The in-memory store, replayed *)

(** The scenario of the spec: three findings, no ticket yet, a valid
    project: three tickets are created, in order, each with a new key. *)
Example store_first_run :
  option_map (fun r => outcomes (snd r))
    (inspectRepo 1 "o/r" (Store.start "DOT" (Store.empty Replay.twoProjects "1")))
  = Some [created "DOT-1" "Missing README in o/r";
          created "DOT-2" "Missing LICENSE in o/r";
          created "DOT-3" "Missing GitHub Workflows in o/r"].
Proof. vm_compute. reflexivity. Qed.

(** An invalid project, the operator picks the second one: the first
    finding is retried there and the others follow. *)
Example store_recovering_run :
  option_map (fun r => outcomes (snd r))
    (inspectRepo 2 "o/r" (Store.start "XYZ" (Store.empty Replay.twoProjects "2")))
  = Some [created "OPS-1" "Missing README in o/r";
          created "OPS-2" "Missing LICENSE in o/r";
          created "OPS-3" "Missing GitHub Workflows in o/r"].
Proof. vm_compute. reflexivity. Qed.

(** ** Facts about the in-memory store *)

Lemma matches_jql (k s : string) (t : Store.Ticket) :
  Store.matches (jql k s) t = true <-> Store.filedAs t = (k, s).
Proof.
  unfold Store.matches, Store.filedAs. rewrite String.eqb_eq. split.
  - intros Heq. apply jql_inj in Heq. destruct Heq as [-> ->]. reflexivity.
  - intros Heq. injection Heq as -> ->. reflexivity.
Qed.

Lemma has_filed (st : Store.State) (k s : string) :
  Store.has st k s = true <-> In (k, s) (Store.filed st).
Proof.
  unfold Store.has, Store.filed. rewrite existsb_exists, in_map_iff.
  split; intros [t [H1 H2]]; exists t.
  - apply matches_jql in H2. split; assumption.
  - apply matches_jql in H1. split; assumption.
Qed.

Lemma has_not_filed (st : Store.State) (k s : string) :
  Store.has st k s = false <-> ~ In (k, s) (Store.filed st).
Proof. rewrite <- has_filed. symmetry. apply not_true_iff_false. Qed.

Lemma filter_nil_existsb {A : Type} (f : A -> bool) (l : list A) :
  filter f l = [] <-> existsb f l = false.
Proof.
  induction l as [| a l IH]; cbn; [tauto |].
  destruct (f a); cbn; [split; discriminate | exact IH].
Qed.

Lemma search_none (st : Store.State) (k s : string) :
  Store.has st k s = false ->
  filter (Store.matches (jql k s)) (Store.tickets st) = [].
Proof. intros Hno. now apply filter_nil_existsb. Qed.

Lemma search_some (st : Store.State) (k s : string) :
  Store.has st k s = true ->
  exists t rest,
    filter (Store.matches (jql k s)) (Store.tickets st) = t :: rest /\
    In t (Store.tickets st) /\ Store.filedAs t = (k, s).
Proof.
  intros Hyes.
  destruct (filter (Store.matches (jql k s)) (Store.tickets st))
    as [| t rest] eqn:Hfilter.
  - apply filter_nil_existsb in Hfilter. unfold Store.has in Hyes. congruence.
  - exists t, rest. split; [reflexivity |].
    assert (Hin : In t (filter (Store.matches (jql k s)) (Store.tickets st)))
      by (rewrite Hfilter; left; reflexivity).
    apply filter_In in Hin. destruct Hin as [Hin Hm].
    split; [exact Hin | now apply matches_jql].
Qed.

Lemma NoDup_map_eq {A B : Type} (f : A -> B) (l : list A) (x y : A) :
  NoDup (map f l) -> In x l -> In y l -> f x = f y -> x = y.
Proof.
  induction l as [| a l IH]; cbn; intros Hnd Hx Hy Heq; [contradiction |].
  inversion Hnd as [| b m Hnotin Hnd']; subst.
  destruct Hx as [-> | Hx], Hy as [-> | Hy].
  - reflexivity.
  - exfalso. apply Hnotin. rewrite Heq. now apply in_map.
  - exfalso. apply Hnotin. rewrite <- Heq. now apply in_map.
  - now apply IH.
Qed.

(** *** Minted keys *)

Lemma noHyphen_decimal (n : nat) : Store.noHyphen (Store.decimal n) = true.
Proof.
  unfold Store.decimal. generalize (Nat.to_uint n) as d.
  induction d; cbn; assumption || reflexivity.
Qed.

Lemma noHyphen_after (p d : string) :
  Store.noHyphen (p ++ String "-" d)%string = false.
Proof.
  induction p as [| c p IH]; cbn; [reflexivity |].
  rewrite IH. apply andb_false_r.
Qed.

Lemma hyphen_split (p p' d d' : string) :
  Store.noHyphen d = true -> Store.noHyphen d' = true ->
  (p ++ String "-" d = p' ++ String "-" d')%string -> d = d'.
Proof.
  intros Hd Hd'. revert p'.
  induction p as [| c p IH]; intros [| c' p'] Heq; cbn in Heq.
  - now injection Heq.
  - injection Heq as _ Heq. subst d. rewrite noHyphen_after in Hd. discriminate.
  - injection Heq as _ Heq. subst d'. rewrite noHyphen_after in Hd'. discriminate.
  - injection Heq as _ Heq. now apply IH in Heq.
Qed.

Lemma decimal_inj (n n' : nat) : Store.decimal n = Store.decimal n' -> n = n'.
Proof.
  unfold Store.decimal. intros Heq.
  apply DecimalNat.Unsigned.to_uint_inj.
  apply (f_equal NilEmpty.uint_of_string) in Heq.
  rewrite !NilEmpty.usu in Heq. now injection Heq.
Qed.

Lemma mintKey_number (p p' : string) (n n' : nat) :
  Store.mintKey p n = Store.mintKey p' n' -> n = n'.
Proof.
  unfold Store.mintKey. intros Heq. apply decimal_inj.
  apply (hyphen_split p p'); auto using noHyphen_decimal.
Qed.

(** *** What update and create do to the store *)

Lemma valid_collections (k : string) (st st' : Store.State) :
  Store.collections st' = Store.collections st ->
  Store.valid k st' = Store.valid k st.
Proof. unfold Store.valid. now intros ->. Qed.

Lemma revise_keys (key smry descr : string) (ts : list Store.Ticket) :
  map Store.ticket_key (map (Store.revise key smry descr) ts) =
  map Store.ticket_key ts.
Proof.
  rewrite map_map. apply map_ext. intros t. unfold Store.revise.
  destruct (Store.hasKey key t); reflexivity.
Qed.

Lemma revise_filed (st : Store.State) (t0 : Store.Ticket) (smry descr : string) :
  Store.wellFormed st -> In t0 (Store.tickets st) ->
  Store.ticket_summary t0 = smry ->
  map Store.filedAs
    (map (Store.revise (Store.ticket_key t0) smry descr) (Store.tickets st))
  = Store.filed st.
Proof.
  intros [Hnd _] Hin <-. unfold Store.filed. rewrite map_map.
  apply map_ext_in. intros t Ht. unfold Store.revise, Store.hasKey.
  destruct (String.eqb (Store.ticket_key t) (Store.ticket_key t0)) eqn:Hkey;
    [| reflexivity].
  apply String.eqb_eq in Hkey.
  assert (t = t0) as -> by (apply (NoDup_map_eq Store.ticket_key _ _ _ Hnd Ht Hin Hkey)).
  reflexivity.
Qed.

Lemma update_found (st : Store.State) (t0 : Store.Ticket) (smry descr : string) :
  In t0 (Store.tickets st) ->
  Store.update (Store.ticket_key t0) smry descr st =
    (Ok tt,
     Store.withTickets st
       (map (Store.revise (Store.ticket_key t0) smry descr) (Store.tickets st))
       (Store.minted st)).
Proof.
  intros Hin. unfold Store.update.
  replace (existsb (Store.hasKey (Store.ticket_key t0)) (Store.tickets st)) with true;
    [reflexivity |].
  symmetry. apply existsb_exists. exists t0. split; [exact Hin |].
  apply String.eqb_refl.
Qed.

Lemma extends_refl (st : Store.State) : Store.wellFormed st -> Store.extends st st.
Proof.
  intros Hwf. unfold Store.extends.
  split; [reflexivity |]. split; [reflexivity |]. split; [exact Hwf |].
  split; [apply incl_refl |]. split; [intros k s Hin; now left | auto].
Qed.

Lemma extends_trans (a b c : Store.State) :
  Store.extends a b -> Store.extends b c -> Store.extends a c.
Proof.
  intros [Hc1 [Hr1 [Hw1 [Hi1 [Ha1 Hd1]]]]] [Hc2 [Hr2 [Hw2 [Hi2 [Ha2 Hd2]]]]].
  unfold Store.extends.
  split; [congruence |]. split; [congruence |]. split; [exact Hw2 |].
  split; [eapply incl_tran; eassumption |]. split; [| auto].
  intros k s Hin. destruct (Ha2 k s Hin) as [Hb | Hv].
  - now apply Ha1.
  - right. now rewrite <- (valid_collections k a b Hc1).
Qed.

Lemma extends_update (st : Store.State) (t0 : Store.Ticket) (smry descr : string) :
  Store.wellFormed st -> In t0 (Store.tickets st) ->
  Store.ticket_summary t0 = smry ->
  Store.extends st
    (Store.withTickets st
       (map (Store.revise (Store.ticket_key t0) smry descr) (Store.tickets st))
       (Store.minted st)).
Proof.
  intros Hwf Hin Hsmry.
  pose proof (revise_filed st t0 smry descr Hwf Hin Hsmry) as Hfiled.
  destruct Hwf as [Hnd Hmint].
  unfold Store.extends, Store.noDuplicates, Store.filed in *.
  cbn [Store.withTickets Store.tickets Store.collections Store.reply].
  rewrite Hfiled.
  repeat split; try apply incl_refl; auto.
  - cbn [Store.withTickets Store.tickets]. now rewrite revise_keys.
  - cbn [Store.withTickets Store.tickets Store.minted].
    apply Forall_map. revert Hmint. apply Forall_impl.
    intros t Ht. unfold Store.revise.
    destruct (Store.hasKey (Store.ticket_key t0) t); exact Ht.
Qed.

Lemma extends_create (st : Store.State) (k s descr : string) :
  Store.wellFormed st -> Store.valid k st = true -> Store.has st k s = false ->
  Store.extends st
    (Store.withTickets st
       (Store.tickets st ++
        [{| Store.ticket_key := Store.mintKey k (S (Store.minted st));
            Store.ticket_project := k; Store.ticket_summary := s;
            Store.ticket_description := descr |}])
       (S (Store.minted st))).
Proof.
  intros [Hnd Hmint] Hvalid Hno. apply has_not_filed in Hno.
  unfold Store.extends, Store.noDuplicates, Store.filed, Store.wellFormed in *.
  cbn [Store.withTickets Store.tickets Store.collections Store.reply Store.minted].
  rewrite !map_app. cbn [map Store.filedAs Store.ticket_project
                           Store.ticket_summary Store.ticket_key].
  repeat split.
  - apply NoDup_app. repeat split.
    + exact Hnd.
    + constructor; [intros [] | constructor].
    + intros key Hin [Hnew | []]. subst key.
      apply in_map_iff in Hin. destruct Hin as [t [Hkey Hin]].
      rewrite Forall_forall in Hmint. destruct (Hmint t Hin) as [p [n [Hp Hn]]].
      rewrite Hp in Hkey. apply mintKey_number in Hkey. lia.
  - apply Forall_app. split.
    + revert Hmint. apply Forall_impl. intros t [p [n [Hp Hn]]].
      exists p, n. split; [exact Hp | lia].
    + constructor; [| constructor]. exists k, (S (Store.minted st)).
      split; [reflexivity | lia].
  - apply incl_appl, incl_refl.
  - intros k' s' Hin. apply in_app_or in Hin. destruct Hin as [Hin | [Heq | []]].
    + now left.
    + injection Heq as <- <-. now right.
  - intros Hdup. apply NoDup_app. repeat split.
    + exact Hdup.
    + constructor; [intros [] | constructor].
    + intros pair Hin [Hnew | []]. subst pair. contradiction.
Qed.

(** ** The loop against the in-memory store *)

Section StoreRuns.

Variable repoName : string.
Variable lowerFiles : list string.

Lemma invalidCollection_is_project_error :
  isProjectError Store.invalidCollection = true.
Proof. reflexivity. Qed.

(** One pass against the store: an existing ticket is updated; otherwise a
    ticket is created when the project is one of the store's; otherwise the
    operator is asked, unless the store has no project at all. *)
Lemma store_pass (finding : Finding) (k : string) (st : Store.State) :
  let s := summary finding in
  let descr := newDescription repoName lowerFiles finding in
  let pass := iteration repoName lowerFiles finding (Store.start k st) in
  if Store.has st k s then
    exists t0 t,
      In t0 (Store.tickets st) /\ Store.filedAs t0 = (k, s) /\
      pass = (Ok Succeeded,
              Store.start k
                (Store.withTickets st
                   (map (Store.revise (Store.ticket_key t0) s descr) (Store.tickets st))
                   (Store.minted st)), t) /\
      outcomes t = [updated (Store.ticket_key t0) s]
  else if Store.valid k st then
    exists t,
      pass = (Ok Succeeded,
              Store.start k
                (Store.withTickets st
                   (Store.tickets st ++
                    [{| Store.ticket_key := Store.mintKey k (S (Store.minted st));
                        Store.ticket_project := k; Store.ticket_summary := s;
                        Store.ticket_description := descr |}])
                   (S (Store.minted st))), t) /\
      outcomes t = [created (Store.mintKey k (S (Store.minted st))) s]
  else
    match Store.collections st with
    | [] => exists err t, pass = (Throw err, Store.start k st, t)
    | ps =>
        exists t,
          pass = (Ok Again, Store.start (selectProject ps (Store.reply st)) st, t) /\
          outcomes t = []
    end.
Proof.
  intros s descr pass. subst pass.
  rewrite iteration_run, tryBlock_run. cbv zeta.
  cbn [searchIssues updateIssue createIssue Store.services world Store.start
       JIRA_PROJECT_KEY].
  unfold Store.search. fold s descr.
  destruct (Store.has st k s) eqn:Hhas.
  - destruct (search_some st k s Hhas) as [t0 [rest [Hfilter [Hin Hfiled]]]].
    rewrite Hfilter. cbn [map Store.issueOf issue_key fst].
    rewrite (update_found st t0 s descr Hin).
    exists t0. eexists. split; [exact Hin |]. split; [exact Hfiled |].
    split; reflexivity.
  - rewrite (search_none st k s Hhas). cbn [map].
    unfold Store.create. destruct (Store.valid k st) eqn:Hvalid.
    + eexists. split; reflexivity.
    + rewrite catchBlock_run, invalidCollection_is_project_error, recover_run.
      cbn [getProjects askQuestion Store.services world withWorld
           JIRA_PROJECT_KEY Store.listCollections Store.chooseCollection].
      destruct (Store.collections st) as [| p ps].
      * eexists _, _. reflexivity.
      * eexists. split; [reflexivity |].
        unfold outcomes. cbn [app flat_map outcomeOf].
        apply outcomes_recoveryEvents.
Qed.


Lemma filedAs_summary (t : Store.Ticket) (k s : string) :
  Store.filedAs t = (k, s) -> Store.ticket_summary t = s.
Proof. unfold Store.filedAs. now intros [= _ ->]. Qed.

Lemma pass_extends (finding : Finding) (k : string) (st : Store.State)
    (r : result Step) (e1 : Env Store.State) (t : list Event) :
  Store.wellFormed st ->
  iteration repoName lowerFiles finding (Store.start k st) = (r, e1, t) ->
  Store.extends st (world e1).
Proof.
  intros Hwf Hpass. pose proof (store_pass finding k st) as P. cbv zeta in P.
  destruct (Store.has st k (summary finding)) eqn:Hhas.
  - destruct P as [t0 [t' [Hin [Hfiled [Heq _]]]]].
    rewrite Heq in Hpass. injection Hpass as <- <- <-. cbn [world Store.start].
    apply extends_update; eauto using filedAs_summary.
  - destruct (Store.valid k st) eqn:Hvalid.
    + destruct P as [t' [Heq _]].
      rewrite Heq in Hpass. injection Hpass as <- <- <-. cbn [world Store.start].
      now apply extends_create.
    + destruct (Store.collections st) as [| p ps].
      * destruct P as [err [t' Heq]].
        rewrite Heq in Hpass. injection Hpass as <- <- <-. now apply extends_refl.
      * destruct P as [t' [Heq _]].
        rewrite Heq in Hpass. injection Hpass as <- <- <-. now apply extends_refl.
Qed.

Lemma processFinding_extends (fuel : nat) (finding : Finding) (k : string)
    (st : Store.State) (r : result unit) (e1 : Env Store.State) (t : list Event) :
  Store.wellFormed st ->
  processFinding repoName lowerFiles fuel finding (Store.start k st) = Some (r, e1, t) ->
  Store.extends st (world e1).
Proof.
  revert k st t. induction fuel as [| fuel IH]; intros k st t Hwf Hrun;
    [discriminate |].
  rewrite processFinding_step in Hrun.
  destruct (iteration repoName lowerFiles finding (Store.start k st))
    as [[[step | err] [k2 st2]] t2] eqn:Hpass;
    apply pass_extends in Hpass; try assumption; cbn [world] in Hpass.
  - destruct step; try (injection Hrun as <- <- <-; exact Hpass).
    destruct (processFinding repoName lowerFiles fuel finding
                {| JIRA_PROJECT_KEY := k2; world := st2 |})
      as [[[r3 e3] t3] |] eqn:Hnext; [| discriminate].
    cbn [after] in Hrun. injection Hrun as <- <- <-.
    apply (IH k2 st2) in Hnext; [| apply Hpass].
    eapply extends_trans; eassumption.
  - injection Hrun as <- <- <-. exact Hpass.
Qed.

Lemma reconcile_extends (fuel : nat) (findings : list Finding) (k : string)
    (st : Store.State) (r : result unit) (e1 : Env Store.State) (t : list Event) :
  Store.wellFormed st ->
  reconcile repoName lowerFiles fuel findings (Store.start k st) = Some (r, e1, t) ->
  Store.extends st (world e1).
Proof.
  revert k st t. induction findings as [| finding rest IH]; intros k st t Hwf Hrun.
  - injection Hrun as <- <- <-. now apply extends_refl.
  - rewrite reconcile_step in Hrun.
    destruct (processFinding repoName lowerFiles fuel finding (Store.start k st))
      as [[[[u | err] [k2 st2]] t2] |] eqn:Hfirst; [| | discriminate];
      apply processFinding_extends in Hfirst; try assumption; cbn [world] in Hfirst.
    + destruct (reconcile repoName lowerFiles fuel rest
                  {| JIRA_PROJECT_KEY := k2; world := st2 |})
        as [[[r3 e3] t3] |] eqn:Hrest; [| discriminate].
      cbn [after] in Hrun. injection Hrun as <- <- <-.
      apply (IH k2 st2) in Hrest; [| apply Hfirst].
      eapply extends_trans; eassumption.
    + injection Hrun as <- <- <-. exact Hfirst.
Qed.


(** A finding filed by a first run is updated by a second run that starts
    under the same key against a store holding what the first run left. *)
Lemma second_processFinding (fuel : nat) (finding : Finding)
    (st st' final : Store.State) (k : string)
    (e2 : Env Store.State) (t2 : list Event) :
  Store.wellFormed st -> Store.wellFormed st' ->
  Store.collections st' = Store.collections st ->
  Store.reply st' = Store.reply st ->
  (forall p s, In (p, s) (Store.filed st') <-> In (p, s) (Store.filed final)) ->
  (forall p s, In (p, s) (Store.filed final) ->
               In (p, s) (Store.filed st) \/ Store.valid p st = true) ->
  processFinding repoName lowerFiles fuel finding (Store.start k st)
    = Some (Ok tt, e2, t2) ->
  incl (Store.filed (world e2)) (Store.filed final) ->
  (exists o, outcomes t2 = [o] /\
             exists key, o = created key (summary finding) \/
                         o = updated key (summary finding)) /\
  exists e2' t2',
    processFinding repoName lowerFiles fuel finding (Store.start k st')
      = Some (Ok tt, e2', t2') /\
    JIRA_PROJECT_KEY e2' = JIRA_PROJECT_KEY e2 /\
    (exists key, outcomes t2' = [updated key (summary finding)]) /\
    Store.extends st' (world e2') /\
    Store.filed (world e2') = Store.filed st'.
Proof.
  intros Hwf Hwf' Hcoll Hreply Hsame Hadded.
  assert (Hvalid' : forall p, Store.valid p st' = Store.valid p st)
    by (intros p; now apply valid_collections).
  revert k t2. induction fuel as [| fuel IH]; intros k t2 Hrun Hincl;
    [discriminate |].
  rewrite processFinding_step in Hrun. rewrite processFinding_step.
  pose proof (store_pass finding k st) as P1.
  pose proof (store_pass finding k st') as P2. cbv zeta in P1, P2.
  assert (Hupdate :
    In (k, summary finding) (Store.filed final) ->
    exists e2' t2',
      match iteration repoName lowerFiles finding (Store.start k st') with
      | (Ok Again, e1, t1) =>
          after t1 (processFinding repoName lowerFiles fuel finding e1)
      | (Ok _, e1, t1) => Some (Ok tt, e1, t1)
      | (Throw err, e1, t1) => Some (Throw err, e1, t1)
      end = Some (Ok tt, e2', t2') /\
      JIRA_PROJECT_KEY e2' = k /\
      (exists key, outcomes t2' = [updated key (summary finding)]) /\
      Store.extends st' (world e2') /\
      Store.filed (world e2') = Store.filed st').
  { intros Hin. apply Hsame, has_filed in Hin. rewrite Hin in P2.
    destruct P2 as [t0 [t' [Hin0 [Hfiled [Heq Hout]]]]]. rewrite Heq.
    eexists _, _. split; [reflexivity |]. split; [reflexivity |].
    split; [eexists; exact Hout |]. cbn [world Store.start]. split.
    - apply extends_update; eauto using filedAs_summary.
    - apply revise_filed; eauto using filedAs_summary. }
  destruct (Store.has st k (summary finding)) eqn:Hhas.
  - destruct P1 as [t0 [t [Hin0 [Hfiled [Heq Hout]]]]].
    rewrite Heq in Hrun. injection Hrun as <- <-.
    split; [eexists; split; [exact Hout | eexists; right; reflexivity] |].
    apply Hupdate. apply Hincl. cbn [world Store.start].
    unfold Store.filed at 1. cbn [Store.withTickets Store.tickets].
    rewrite (revise_filed st t0 (summary finding) _ Hwf Hin0
               (filedAs_summary _ _ _ Hfiled)).
    now apply has_filed.
  - destruct (Store.valid k st) eqn:Hvalid.
    + destruct P1 as [t [Heq Hout]].
      rewrite Heq in Hrun. injection Hrun as <- <-.
      split; [eexists; split; [exact Hout | eexists; left; reflexivity] |].
      apply Hupdate. apply Hincl. cbn [world Store.start].
      unfold Store.filed. cbn [Store.withTickets Store.tickets].
      rewrite map_app. apply in_or_app. right. left. reflexivity.
    + destruct (Store.collections st) as [| p ps] eqn:Hlisted.
      * destruct P1 as [err [t Heq]]. rewrite Heq in Hrun. discriminate Hrun.
      * destruct P1 as [t [Heq Hout]]. rewrite Heq in Hrun.
        destruct (processFinding repoName lowerFiles fuel finding
                    (Store.start (selectProject (p :: ps) (Store.reply st)) st))
          as [[[r3 e3] t3] |] eqn:Hnext; [| discriminate].
        cbn [after] in Hrun. injection Hrun as -> -> <-.
        destruct (IH _ _ Hnext Hincl) as [Hfirst [e2' [t2' [Hrun' Hrest]]]].
        split.
        { rewrite outcomes_app, Hout. exact Hfirst. }
        assert (Hhas' : Store.has st' k (summary finding) = false).
        { apply has_not_filed. intros Hin. apply Hsame in Hin.
          destruct (Hadded _ _ Hin) as [Hold | Hv]; [| congruence].
          apply has_filed in Hold. congruence. }
        rewrite Hhas', Hvalid', Hvalid, Hcoll, Hreply in P2.
        destruct P2 as [t' [Heq' Hout']]. rewrite Heq', Hrun'. cbn [after].
        eexists _, _. split; [reflexivity |].
        rewrite outcomes_app, Hout'. exact Hrest.
Qed.


Lemma second_reconcile (fuel : nat) (findings : list Finding)
    (st st' final : Store.State) (k : string)
    (e1 : Env Store.State) (t1 : list Event) :
  Store.wellFormed st -> Store.wellFormed st' ->
  Store.collections st' = Store.collections st ->
  Store.reply st' = Store.reply st ->
  (forall p s, In (p, s) (Store.filed st') <-> In (p, s) (Store.filed final)) ->
  (forall p s, In (p, s) (Store.filed final) ->
               In (p, s) (Store.filed st) \/ Store.valid p st = true) ->
  reconcile repoName lowerFiles fuel findings (Store.start k st)
    = Some (Ok tt, e1, t1) ->
  incl (Store.filed (world e1)) (Store.filed final) ->
  allFiled findings (outcomes t1) /\
  exists e2 t2,
    reconcile repoName lowerFiles fuel findings (Store.start k st')
      = Some (Ok tt, e2, t2) /\
    allUpdated findings (outcomes t2) /\
    Store.extends st' (world e2) /\
    Store.filed (world e2) = Store.filed st'.
Proof.
  revert st st' k t1.
  induction findings as [| finding rest IH];
    intros st st' k t1 Hwf Hwf' Hcoll Hreply Hsame Hadded Hrun Hincl.
  - injection Hrun as <- <-. split; [constructor |].
    exists (Store.start k st'), []. split; [reflexivity |].
    split; [constructor |]. split; [now apply extends_refl | reflexivity].
  - rewrite reconcile_step in Hrun.
    destruct (processFinding repoName lowerFiles fuel finding (Store.start k st))
      as [[[[[] | err] [k2 st2]] t2] |] eqn:Hfirst; [| discriminate | discriminate].
    destruct (reconcile repoName lowerFiles fuel rest
                {| JIRA_PROJECT_KEY := k2; world := st2 |})
      as [[[r3 e3] t3] |] eqn:Hrest; [| discriminate].
    cbn [after] in Hrun. injection Hrun as -> -> <-.
    pose proof (processFinding_extends _ _ _ _ _ _ _ Hwf Hfirst) as Hext1.
    cbn [world] in Hext1.
    destruct Hext1 as [Hc1 [Hr1 [Hwf2 [Hi1 [Ha1 Hd1]]]]].
    pose proof (reconcile_extends _ _ k2 st2 _ _ _ Hwf2 Hrest) as Hext2.
    destruct Hext2 as [_ [_ [_ [Hi2 _]]]].
    destruct (second_processFinding fuel finding st st' final k _ _
                Hwf Hwf' Hcoll Hreply Hsame Hadded Hfirst)
      as [Hout1 [[k2' st2'] [t2' [Hrun' [Hkey [Hout' [Hext' Hfiled']]]]]]].
    { cbn [world]. eapply incl_tran; eassumption. }
    cbn [JIRA_PROJECT_KEY world] in Hkey, Hext', Hfiled'. subst k2'.
    pose proof Hext' as [Hc' [Hr' [Hwf2' _]]].
    destruct (IH st2 st2' k2 t3) as [Hfiled3 [e2 [t2'' [Hrun'' [Hupd [Hext'' Hf'']]]]]];
      try assumption; try congruence.
    { intros p s. rewrite Hfiled'. apply Hsame. }
    { intros p s Hin. destruct (Hadded p s Hin) as [Hold | Hv].
      - left. now apply Hi1.
      - right. now rewrite (valid_collections p st st2 Hc1). }
    split.
    { rewrite outcomes_app. destruct Hout1 as [o [-> Ho]].
      constructor; assumption. }
    exists e2, (t2' ++ t2''). rewrite reconcile_step, Hrun'.
    unfold Store.start in Hrun''. rewrite Hrun''. cbn [after].
    split; [reflexivity |]. split.
    { rewrite outcomes_app. destruct Hout' as [key ->].
      constructor; [now exists key | assumption]. }
    split; [eapply extends_trans; eassumption | congruence].
Qed.

(** C7: against the in-memory store, a first run that completed filed a
    ticket for every finding, and a second run over the same findings,
    started under the same configured key against the store the first run
    left, completes with an updated outcome for every finding, in order;
    it files nothing new, and when no two tickets of the initial store were
    filed for the same summary in the same collection, none are after
    either run. *)
Theorem C7_second_run_updates (fuel : nat) (findings : list Finding) (key : string)
    (st0 : Store.State) (e1 : Env Store.State) (t1 : list Event) :
  Store.wellFormed st0 ->
  reconcile repoName lowerFiles fuel findings (Store.start key st0)
    = Some (Ok tt, e1, t1) ->
  allFiled findings (outcomes t1) /\
  exists e2 t2,
    reconcile repoName lowerFiles fuel findings (Store.start key (world e1))
      = Some (Ok tt, e2, t2) /\
    allUpdated findings (outcomes t2) /\
    Store.filed (world e2) = Store.filed (world e1) /\
    (Store.noDuplicates st0 ->
     Store.noDuplicates (world e1) /\ Store.noDuplicates (world e2)).
Proof.
  intros Hwf Hrun.
  pose proof (reconcile_extends _ _ _ _ _ _ _ Hwf Hrun)
    as [Hcoll [Hreply [Hwf1 [Hincl [Hadded Hdup]]]]].
  destruct (second_reconcile fuel findings st0 (world e1) (world e1) key e1 t1)
    as [Hfiled [e2 [t2 [Hrun2 [Hupd [_ Hsame]]]]]];
    try assumption; try reflexivity; try apply incl_refl.
  split; [exact Hfiled |]. exists e2, t2.
  split; [exact Hrun2 |]. split; [exact Hupd |]. split; [exact Hsame |].
  intros Hnd. split; [now apply Hdup |].
  unfold Store.noDuplicates. rewrite Hsame. now apply Hdup.
Qed.

End StoreRuns.

(** The README, LICENSE and workflows findings under an invalid key, with
    an operator who picks the second project: the first run creates three
    tickets in OPS, the second run updates them. *)
Lemma C7_second_run_updates_witness :
  exists e1 t1 e2 t2,
    reconcile Replay.repo [] 2 Replay.threeFindings
      (Store.start "XYZ" (Store.empty Replay.twoProjects "2")) = Some (Ok tt, e1, t1) /\
    reconcile Replay.repo [] 2 Replay.threeFindings
      (Store.start "XYZ" (world e1)) = Some (Ok tt, e2, t2) /\
    allUpdated Replay.threeFindings (outcomes t2) /\
    Store.filed (world e2) = Store.filed (world e1).
Proof.
  eexists _, _.
  edestruct (C7_second_run_updates Replay.repo [] 2 Replay.threeFindings "XYZ"
               (Store.empty Replay.twoProjects "2"))
    as [_ [e2 [t2 [Hrun2 [Hupd [Hsame _]]]]]].
  - split; constructor.
  - cbv. reflexivity.
  - exists e2, t2. split; [cbv; reflexivity |].
    split; [exact Hrun2 |]. split; [exact Hupd | exact Hsame].
Defined.

(** ** More about the checklist *)

Lemma arrayIncludes_ext (xs ys : list string) (x : string) :
  (In x xs <-> In x ys) -> Js.arrayIncludes xs x = Js.arrayIncludes ys x.
Proof.
  intros Hiff. apply eq_true_iff_eq. now rewrite !arrayIncludes_In.
Qed.

(** X1: the findings depend on the root listing only through the set of
    its lower-cased names, and on the workflow listing only through its
    being empty or not: order, repetition and letter case of the file
    names, and the names of the workflow files, do not matter. *)
Theorem detect_ignores_case_and_order (repoName : string)
    (rootFiles1 rootFiles2 workflowFiles1 workflowFiles2 : list string) :
  (forall name, In name (map Js.toLowerCase rootFiles1) <->
                In name (map Js.toLowerCase rootFiles2)) ->
  (workflowFiles1 = [] <-> workflowFiles2 = []) ->
  detect repoName rootFiles1 workflowFiles1 = detect repoName rootFiles2 workflowFiles2.
Proof.
  intros Hnames Hflows. unfold detect, readmeAbsent, licenseAbsent, gitignoreAbsent.
  rewrite !(arrayIncludes_ext (map Js.toLowerCase rootFiles1)
              (map Js.toLowerCase rootFiles2) _ (Hnames _)).
  replace (hasWorkflows workflowFiles1) with (hasWorkflows workflowFiles2);
    [reflexivity |].
  destruct Hflows as [H12 H21].
  destruct workflowFiles1, workflowFiles2; try reflexivity.
  - discriminate (H12 eq_refl).
  - discriminate (H21 eq_refl).
Qed.

Lemma detect_ignores_case_and_order_witness :
  detect "o/r" ["README.md"; "License"; "ci.yml"] ["build.yml"] =
  detect "o/r" ["LICENSE"; "CI.YML"; "readme.MD"; "license"] ["a.yml"; "b.yml"].
Proof.
  apply detect_ignores_case_and_order.
  - intros name. cbn. tauto.
  - split; discriminate.
Defined.

Lemma detect_members (repoName : string) (rootFiles workflowFiles : list string)
    (f : Finding) :
  In f (detect repoName rootFiles workflowFiles) ->
  f = readmeFinding repoName \/ f = licenseFinding repoName \/
  f = gitignoreFinding repoName \/ f = workflowsFinding repoName.
Proof.
  unfold detect.
  destruct (readmeAbsent _), (licenseAbsent _), (gitignoreAbsent _),
    (negb (hasWorkflows _)); cbn; intuition auto.
Qed.

(** X2: the findings of one inspection have pairwise different summaries,
    so under any one project key they are searched with pairwise different
    queries. *)
Theorem detect_summaries_distinct (repoName : string)
    (rootFiles workflowFiles : list string) (key : string) :
  NoDup (map summary (detect repoName rootFiles workflowFiles)) /\
  NoDup (map (fun f => jql key (summary f)) (detect repoName rootFiles workflowFiles)).
Proof.
  assert (Hsum : NoDup (map summary (detect repoName rootFiles workflowFiles))).
  { unfold detect.
    destruct (readmeAbsent _), (licenseAbsent _), (gitignoreAbsent _),
      (negb (hasWorkflows _)); cbn [app map summary readmeFinding licenseFinding
                                       gitignoreFinding workflowsFinding];
      repeat constructor; cbn; intros Hin;
      repeat (destruct Hin as [Hin | Hin]; [discriminate Hin |]);
      exact Hin. }
  split; [exact Hsum |].
  rewrite <- (map_map summary (jql key)).
  apply Finite.Injective_map_NoDup; [| exact Hsum].
  intros s1 s2 Heq. now apply jql_inj in Heq.
Qed.

(** X3: a query determines the project key and the summary it was built
    from: two searches are the same query only for the same key and the
    same summary, whatever quotes and backslashes these contain. *)
Theorem jql_determines_key_and_summary (key1 key2 smry1 smry2 : string) :
  jql key1 smry1 = jql key2 smry2 <-> key1 = key2 /\ smry1 = smry2.
Proof.
  split.
  - apply jql_inj.
  - intros [-> ->]. reflexivity.
Qed.

(** ** The format of a repository name *)

Lemma allChars_absent (p : ascii -> bool) (c : ascii) (s : string) :
  p c = false -> allChars p s = true -> absent c s = true.
Proof.
  intros Hc. induction s as [| x r IH]; cbn; [reflexivity |].
  intros Hall. apply andb_true_iff in Hall. destruct Hall as [Hx Hr].
  rewrite (IH Hr), andb_true_r. apply negb_true_iff.
  apply Ascii.eqb_neq. intros ->. congruence.
Qed.

Lemma afterOwner_absent (c : ascii) (s name : string) (seen : bool) :
  isOwnerChar c = false -> c <> "/"%char ->
  afterOwner seen s = Some name -> absent c name = true -> absent c s = true.
Proof.
  intros Hc Hslash. revert seen. induction s as [| x r IH]; intros seen; cbn;
    [discriminate |].
  destruct (isOwnerChar x) eqn:Hx.
  - intros Hafter Hname. rewrite (IH _ Hafter Hname), andb_true_r.
    apply negb_true_iff, Ascii.eqb_neq. intros ->. congruence.
  - destruct (Ascii.eqb x "/") eqn:Hs; cbn; [| discriminate].
    destruct seen; [| discriminate]. intros [= ->] Hname.
    rewrite Hname, andb_true_r. apply Ascii.eqb_eq in Hs. subst x.
    apply negb_true_iff, Ascii.eqb_neq. congruence.
Qed.

Lemma validRepoName_absent (c : ascii) (repoName : string) :
  isNameChar c = false -> c <> "/"%char ->
  validRepoName repoName = true -> absent c repoName = true.
Proof.
  intros Hc Hslash. unfold validRepoName.
  destruct (afterOwner false repoName) as [name |] eqn:Hafter; [| discriminate].
  intros Hvalid. apply andb_true_iff in Hvalid. destruct Hvalid as [_ Hall].
  apply (afterOwner_absent c repoName name false); try assumption.
  - unfold isNameChar in Hc. unfold isOwnerChar.
    destruct (isAlnum c), (Ascii.eqb c "-"); cbn in *; congruence.
  - now apply (allChars_absent isNameChar).
Qed.

Lemma absent_append (c : ascii) (a b : string) :
  absent c (a ++ b)%string = absent c a && absent c b.
Proof.
  induction a as [| x a IH]; cbn; [reflexivity |].
  now rewrite IH, andb_assoc.
Qed.

Lemma safeSummary_absent (s : string) :
  absent Js.dquote s = true -> safeSummary s = s.
Proof.
  unfold safeSummary. induction s as [| x r IH]; cbn; [reflexivity |].
  intros Habs. apply andb_true_iff in Habs. destruct Habs as [Hx Hr].
  apply negb_true_iff in Hx. rewrite Hx, (IH Hr). reflexivity.
Qed.

(** X4: for a repository name that passes the format check, no finding's
    summary contains a double quote, so the escaping of line 157 leaves it
    as it is and the query carries the summary itself. *)
Theorem valid_name_summaries_unescaped (repoName : string)
    (rootFiles workflowFiles : list string) (f : Finding) (key : string) :
  validRepoName repoName = true ->
  In f (detect repoName rootFiles workflowFiles) ->
  absent Js.dquote (summary f) = true /\
  safeSummary (summary f) = summary f /\
  jql key (summary f) = (jqlHead ++ key ++ jqlMid ++ summary f ++ jqlTail)%string.
Proof.
  intros Hvalid Hin.
  assert (Hname : absent Js.dquote repoName = true)
    by (apply validRepoName_absent; [reflexivity | discriminate | exact Hvalid]).
  assert (Habs : absent Js.dquote (summary f) = true).
  { apply detect_members in Hin.
    destruct Hin as [-> | [-> | [-> | ->]]]; cbn [summary readmeFinding
      licenseFinding gitignoreFinding workflowsFinding];
      rewrite absent_append, Hname; reflexivity. }
  split; [exact Habs |]. split; [now apply safeSummary_absent |].
  unfold jql. now rewrite safeSummary_absent.
Qed.

Lemma valid_name_summaries_unescaped_witness :
  safeSummary (summary (readmeFinding "octo-org/hello.world")) =
  summary (readmeFinding "octo-org/hello.world").
Proof.
  apply (valid_name_summaries_unescaped "octo-org/hello.world" [] []
           (readmeFinding "octo-org/hello.world") "DOT").
  - reflexivity.
  - left. reflexivity.
Defined.

(** X5: a name that passes the format check has a non-empty owner of
    letters, digits and hyphens, exactly one slash, and after it a
    non-empty name of letters, digits, hyphens, dots and underscores; in
    particular it has no blank and no second slash. *)
Theorem validRepoName_shape (repoName : string) :
  validRepoName repoName = true <->
  exists owner name,
    repoName = (owner ++ String "/" name)%string /\
    owner <> EmptyString /\ allChars isOwnerChar owner = true /\
    name <> EmptyString /\ allChars isNameChar name = true.
Proof.
  assert (Hafter : forall s seen name,
            afterOwner seen s = Some name <->
            exists owner, s = (owner ++ String "/" name)%string /\
                          allChars isOwnerChar owner = true /\
                          (seen = true \/ owner <> EmptyString)).
  { induction s as [| x r IH]; intros seen name; cbn.
    - split; [discriminate |]. intros [[| y owner] [Heq _]]; discriminate Heq.
    - destruct (isOwnerChar x) eqn:Hx.
      + rewrite IH. split.
        * intros [owner [-> [Hall _]]]. exists (String x owner).
          cbn. rewrite Hx, Hall. repeat split. right. discriminate.
        * intros [[| y owner] [Heq [Hall Hseen]]]; cbn in Heq;
            injection Heq as -> Heq.
          -- discriminate Hx.
          -- cbn in Hall. apply andb_true_iff in Hall. destruct Hall as [_ Hall].
             exists owner. repeat split; auto.
      + destruct (Ascii.eqb x "/") eqn:Hs; cbn.
        * apply Ascii.eqb_eq in Hs. subst x. destruct seen; split.
          -- intros [= ->]. exists EmptyString. repeat split. now left.
          -- intros [[| y owner] [Heq [Hall _]]]; cbn in Heq;
               injection Heq as Heq; [now subst |].
             subst y. cbn in Hall. rewrite Hx in Hall. discriminate Hall.
          -- discriminate.
          -- intros [[| y owner] [Heq [Hall Hseen]]]; cbn in Heq;
               injection Heq as Heq.
             ++ destruct Hseen as [Hseen | Hseen]; [discriminate | congruence].
             ++ subst y. cbn in Hall. rewrite Hx in Hall. discriminate Hall.
        * split; [discriminate |].
          intros [[| y owner] [Heq [Hall _]]]; cbn in Heq; injection Heq as -> Heq.
          -- discriminate Hs.
          -- cbn in Hall. rewrite Hx in Hall. discriminate Hall. }
  unfold validRepoName. split.
  - destruct (afterOwner false repoName) as [name |] eqn:Hsome; [| discriminate].
    intros Hvalid. apply andb_true_iff in Hvalid. destruct Hvalid as [Hne Hall].
    apply Hafter in Hsome. destruct Hsome as [owner [-> [Hown Hseen]]].
    exists owner, name. repeat split; auto.
    + destruct Hseen as [Hseen | Hseen]; [discriminate | exact Hseen].
    + apply negb_true_iff, String.eqb_neq in Hne. exact Hne.
  - intros [owner [name [-> [Hown [Hall [Hname Hnall]]]]]].
    assert (Hsome : afterOwner false (owner ++ String "/" name) = Some name).
    { apply Hafter. exists owner. repeat split; auto. }
    rewrite Hsome, Hnall, andb_true_r. apply negb_true_iff, String.eqb_neq.
    exact Hname.
Qed.

(** ** Typing the number that is listed *)

Lemma readDigits_uint (d : Decimal.uint) (k : nat) :
  Js.readDigits 10 (Some (Z.of_nat k)) (NilEmpty.string_of_uint d) =
  Some (Z.of_nat (Nat.of_uint_acc d k)).
Proof.
  revert k. induction d; intros k; cbn [NilEmpty.string_of_uint Nat.of_uint_acc];
    [reflexivity | ..];
    cbn [Js.readDigits];
    match goal with
    | |- context [Js.digitValue 10 ?c] =>
        let v := eval vm_compute in (Js.digitValue 10 c) in
        change (Js.digitValue 10 c) with v
    end;
    cbv iota; rewrite Nat.tail_mul_spec;
    match goal with
    | |- Js.readDigits 10 (Some ?z) _ = Some (Z.of_nat (Nat.of_uint_acc _ ?n)) =>
        replace z with (Z.of_nat n) by lia
    end; apply IHd.
Qed.

(** Reading a numeral that starts with a digit other than a zero followed
    by [x]: no blank, no sign and no radix prefix is found. *)
Lemma parseInt_numeral (c : ascii) (r : string) (v : Z) :
  Js.isSpace c = false -> c <> "-"%char -> c <> "+"%char ->
  (c = "0"%char -> forall t, r <> String "x" t /\ r <> String "X" t) ->
  Js.readDigits 10 None (String c r) = Some v ->
  Js.parseInt (String c r) = Some v.
Proof.
  intros Hspace Hminus Hplus Hzero Hread.
  unfold Js.parseInt. cbn [Js.trimStart]. rewrite Hspace.
  assert (Hsign :
    match String c r with
    | String "-" t => ((-1)%Z, t)
    | String "+" t => (1%Z, t)
    | _ => (1%Z, String c r)
    end = (1%Z, String c r)).
  { destruct c as [[] [] [] [] [] [] [] []]; try reflexivity; congruence. }
  rewrite Hsign.
  assert (Hradix :
    match String c r with
    | String "0" (String "x" t) => (16%Z, t)
    | String "0" (String "X" t) => (16%Z, t)
    | _ => (10%Z, String c r)
    end = (10%Z, String c r)).
  { destruct c as [[] [] [] [] [] [] [] []]; try reflexivity.
    destruct r as [| x t]; [reflexivity |].
    destruct (Hzero eq_refl t) as [Hx HX].
    destruct x as [[] [] [] [] [] [] [] []]; try reflexivity; congruence. }
  rewrite Hradix, Hread. now rewrite Z.mul_1_l.
Qed.

Lemma uint_not_x (d : Decimal.uint) (t : string) :
  NilEmpty.string_of_uint d <> String "x" t /\
  NilEmpty.string_of_uint d <> String "X" t.
Proof. destruct d; split; discriminate. Qed.

Lemma parseInt_indexLabel (n : nat) : Js.parseInt (indexLabel n) = Some (Z.of_nat n).
Proof.
  unfold indexLabel.
  pose proof (DecimalNat.Unsigned.of_to n) as Hof. unfold Nat.of_uint in Hof.
  pose proof (readDigits_uint (Nat.to_uint n) 0) as Hread. rewrite Hof in Hread.
  destruct (Nat.to_uint n) as [| d | d | d | d | d | d | d | d | d | d] eqn:Hd.
  - exfalso. pose proof (DecimalNat.Unsigned.to_of (Nat.to_uint n)) as Hnorm.
    rewrite DecimalNat.Unsigned.of_to, Hd in Hnorm. discriminate Hnorm.
  - apply parseInt_numeral; try reflexivity; try discriminate; [| exact Hread].
    intros _ t. apply uint_not_x.
  - apply parseInt_numeral; try reflexivity; try discriminate; exact Hread.
  - apply parseInt_numeral; try reflexivity; try discriminate; exact Hread.
  - apply parseInt_numeral; try reflexivity; try discriminate; exact Hread.
  - apply parseInt_numeral; try reflexivity; try discriminate; exact Hread.
  - apply parseInt_numeral; try reflexivity; try discriminate; exact Hread.
  - apply parseInt_numeral; try reflexivity; try discriminate; exact Hread.
  - apply parseInt_numeral; try reflexivity; try discriminate; exact Hread.
  - apply parseInt_numeral; try reflexivity; try discriminate; exact Hread.
  - apply parseInt_numeral; try reflexivity; try discriminate; exact Hread.
Qed.

Lemma trimEnd_unchanged (s : string) :
  allChars (fun c => negb (Js.isSpace c)) s = true -> Js.trimEnd s = s.
Proof.
  induction s as [| c r IH]; cbn; [reflexivity |].
  intros Hall. apply andb_true_iff in Hall. destruct Hall as [Hc Hr].
  rewrite (IH Hr). apply negb_true_iff in Hc. rewrite Hc.
  destruct r; reflexivity.
Qed.

Lemma trim_unchanged (s : string) :
  allChars (fun c => negb (Js.isSpace c)) s = true -> Js.trim s = s.
Proof.
  intros Hall. unfold Js.trim.
  replace (Js.trimStart s) with s; [now apply trimEnd_unchanged |].
  destruct s as [| c r]; [reflexivity |]. cbn in *.
  apply andb_true_iff in Hall. destruct Hall as [Hc _].
  apply negb_true_iff in Hc. now rewrite Hc.
Qed.

Lemma indexLabel_no_blank (n : nat) :
  allChars (fun c => negb (Js.isSpace c)) (indexLabel n) = true.
Proof.
  unfold indexLabel. generalize (Nat.to_uint n) as d.
  induction d; cbn [NilEmpty.string_of_uint allChars]; try rewrite IHd;
    reflexivity.
Qed.

Lemma projectLines_listed (ps : list Project) (base i : nat) (p : Project) :
  nth_error ps i = Some p ->
  In (EvConsole (ProjectOption (base + i + 1) (project_key p) (project_name p)))
    (projectLines base ps).
Proof.
  revert base i. induction ps as [| q ps IH]; intros base [| i] Hnth;
    try discriminate.
  - injection Hnth as ->. left. now rewrite Nat.add_0_r.
  - right. replace (base + S i + 1) with (S base + i + 1) by lia. now apply IH.
Qed.

(** X6: the number printed next to a project, typed back at the prompt,
    selects that project. *)
Theorem listed_number_selects_project (projects : list Project) (i : nat)
    (p : Project) :
  nth_error projects i = Some p ->
  In (EvConsole (ProjectOption (i + 1) (project_key p) (project_name p)))
    (projectLines 0 projects) /\
  selectProject projects (indexLabel (i + 1)) = project_key p.
Proof.
  intros Hnth. split; [exact (projectLines_listed projects 0 i p Hnth) |].
  unfold selectProject.
  rewrite (trim_unchanged _ (indexLabel_no_blank (i + 1))), parseInt_indexLabel.
  assert (Hlt : i < length projects) by (apply nth_error_Some; congruence).
  replace (0 <? Z.of_nat (i + 1))%Z with true by (symmetry; apply Z.ltb_lt; lia).
  replace (Z.of_nat (i + 1) <=? Z.of_nat (length projects))%Z with true
    by (symmetry; apply Z.leb_le; lia).
  cbn [andb]. replace (Z.to_nat (Z.of_nat (i + 1) - 1)) with i by lia.
  now rewrite Hnth.
Qed.

Lemma listed_number_selects_project_witness :
  selectProject Replay.twoProjects (indexLabel 2) = "OPS".
Proof.
  apply (listed_number_selects_project Replay.twoProjects 1
           {| project_key := "OPS"; project_name := "Operations" |}).
  reflexivity.
Defined.

(** ** The test for a project error *)

(** X7: a thrown value is treated as a project error exactly when its
    message contains "project is required" or "400": the JSON quoting of
    the message changes nothing, the longer wording is covered by the
    shorter, and a value without a message is never one. *)
Theorem isProjectError_by_message (err : JsError) :
  isProjectError err =
  match message err with
  | Some msg => Js.includes msg "project is required" || Js.includes msg "400"
  | None => false
  end.
Proof.
  unfold isProjectError. destruct (message err) as [msg |]; [| reflexivity].
  destruct (String.eqb msg EmptyString) eqn:Hempty.
  - apply String.eqb_eq in Hempty. subst msg. reflexivity.
  - cbn [negb andb].
    rewrite (includes_JSON_stringify "v" "alid project is required"
               eq_refl escapes_avoid_v msg eq_refl).
    rewrite (includes_JSON_stringify "p" "roject is required"
               eq_refl escapes_avoid_p msg eq_refl).
    destruct (Js.includes msg "valid project is required") eqn:Hlong;
      [| reflexivity].
    apply (includes_longer_needle "valid " "project is required") in Hlong.
    rewrite Hlong. reflexivity.
Qed.

(** ** More about the loop *)

Section Loop.

Context {W : Type} `{Services W}.
Variable repoName : string.
Variable lowerFiles : list string.

Lemma pass_throws_project_error (finding : Finding) (e e1 : Env W)
    (err : JsError) (t : list Event) :
  iteration repoName lowerFiles finding e = (Throw err, e1, t) ->
  isProjectError err = true.
Proof.
  revert e1 err t. pass_cases e; intros env' thrown events Heq;
    try discriminate Heq; injection Heq as <- _ _; assumption.
Qed.

Lemma processFinding_throws_project_error (fuel : nat) (finding : Finding)
    (e e1 : Env W) (err : JsError) (t : list Event) :
  processFinding repoName lowerFiles fuel finding e = Some (Throw err, e1, t) ->
  isProjectError err = true.
Proof.
  revert e t. induction fuel as [| fuel IH]; intros e t Hrun; [discriminate |].
  rewrite processFinding_step in Hrun.
  destruct (iteration repoName lowerFiles finding e)
    as [[[step | err'] e2] t2] eqn:Hpass.
  - destruct step; try discriminate Hrun.
    destruct (processFinding repoName lowerFiles fuel finding e2)
      as [[[r3 e3] t3] |] eqn:Hnext; [| discriminate].
    cbn [after] in Hrun. injection Hrun as -> -> _. now apply IH in Hnext.
  - injection Hrun as <- _ _. now apply pass_throws_project_error in Hpass.
Qed.

(** X8: when the loop over the findings ends normally, the console has
    reported exactly one outcome per finding, in the order of the
    findings; when it ends with an error, that error is a project error,
    and outcomes have been reported, in order, for exactly the findings
    before the one at which it stopped. *)
Theorem one_outcome_per_finding (fuel : nat) (findings : list Finding)
    (e e1 : Env W) (r : result unit) (t : list Event) :
  reconcile repoName lowerFiles fuel findings e = Some (r, e1, t) ->
  match r with
  | Ok _ => map outcomeSummary (outcomes t) = map summary findings
  | Throw err =>
      isProjectError err = true /\
      exists done current rest,
        findings = done ++ current :: rest /\
        map outcomeSummary (outcomes t) = map summary done
  end.
Proof.
  revert e t. induction findings as [| finding others IH]; intros e t Hrun.
  - injection Hrun as <- _ <-. reflexivity.
  - rewrite reconcile_step in Hrun.
    destruct (processFinding repoName lowerFiles fuel finding e)
      as [[[[u | err] e2] t2] |] eqn:Hfirst; [| | discriminate].
    + pose proof (processFinding_outcomes _ _ _ _ _ _ _ _ Hfirst)
        as [_ [o [Hout Hsum]]].
      destruct (reconcile repoName lowerFiles fuel others e2)
        as [[[r3 e3] t3] |] eqn:Hrest; [| discriminate].
      cbn [after] in Hrun. injection Hrun as <- -> <-.
      apply IH in Hrest. rewrite outcomes_app, Hout. cbn [app map].
      destruct r3 as [u3 | err].
      * now rewrite Hsum, Hrest.
      * destruct Hrest as [Hproj [done [current [rest [-> Hmap]]]]].
        split; [exact Hproj |].
        exists (finding :: done), current, rest. split; [reflexivity |].
        cbn [map]. now rewrite Hsum, Hmap.
    + injection Hrun as <- _ <-.
      pose proof (processFinding_outcomes _ _ _ _ _ _ _ _ Hfirst) as [Hout _].
      split; [now apply processFinding_throws_project_error in Hfirst |].
      exists [], finding, others. split; [reflexivity |]. now rewrite Hout.
Qed.

End Loop.

(** Four findings of which the second is refused: four outcomes, in the
    order of the findings. *)
Lemma one_outcome_per_finding_witness :
  exists e1 t,
    reconcile Replay.repo [] 1 Replay.fourFindings Replay.secondRefused
      = Some (Ok tt, e1, t) /\
    map outcomeSummary (outcomes t) = map summary Replay.fourFindings.
Proof.
  assert (Hrun : exists e1 t,
            reconcile Replay.repo [] 1 Replay.fourFindings Replay.secondRefused
              = Some (Ok tt, e1, t))
    by (eexists _, _; cbv; reflexivity).
  destruct Hrun as [e1 [t Hrun]]. exists e1, t. split; [exact Hrun |].
  exact (one_outcome_per_finding Replay.repo [] 1 Replay.fourFindings
           Replay.secondRefused e1 (Ok tt) t Hrun).
Defined.

(** ** Calls to the ticket store along a run *)

Section Calls.

Context {W : Type} `{Services W}.
Variable repoName : string.
Variable lowerFiles : list string.

Lemma no_write_unguarded (t : list Event) (prev : option Event) :
  existsb isWrite t = false -> unguarded prev t = false.
Proof.
  revert prev. induction t as [| ev t IH]; intros prev; [reflexivity |].
  cbn [existsb unguarded]. intros Hno. apply orb_false_iff in Hno.
  destruct Hno as [Hev Ht]. rewrite (IH _ Ht), orb_false_r.
  destruct ev; try reflexivity; discriminate Hev.
Qed.

Lemma projectLines_no (p : Event -> bool) (index : nat) (ps : list Project) :
  (forall line, p (EvConsole line) = false) ->
  filter p (projectLines index ps) = [].
Proof.
  intros Hp. revert index. induction ps as [| q ps IH]; intros index;
    [reflexivity |].
  cbn [projectLines filter]. now rewrite Hp.
Qed.

Lemma recoveryEvents_filter (p : Event -> bool) (ps : list Project) (answer : string) :
  (forall line, p (EvConsole line) = false) ->
  filter p (recoveryEvents ps answer) =
  filter p [EvProjects (Ok ps); EvQuestion projectPrompt answer].
Proof.
  intros Hp. unfold recoveryEvents. cbn [filter].
  rewrite Hp, filter_app, (projectLines_no p 0 ps Hp). cbn [app filter].
  now rewrite Hp.
Qed.

Lemma existsb_filter_nil {A : Type} (p : A -> bool) (l : list A) :
  filter p l = [] -> existsb p l = false.
Proof. apply filter_nil_existsb. Qed.

Lemma recoveryEvents_unguarded (ps : list Project) (answer : string)
    (prev : option Event) :
  unguarded prev (recoveryEvents ps answer) = false.
Proof.
  apply no_write_unguarded, existsb_filter_nil.
  now rewrite recoveryEvents_filter.
Qed.

Lemma unguarded_app (t1 t2 : list Event) (prev : option Event) :
  startsWithSearch t2 = true ->
  unguarded prev (t1 ++ t2) = unguarded prev t1 || unguarded None t2.
Proof.
  intros Hstart. revert prev. induction t1 as [| ev t1 IH]; intros prev.
  - cbn [app unguarded orb]. destruct t2 as [| ev t2]; [reflexivity |].
    destruct ev; try discriminate Hstart. reflexivity.
  - cbn [app unguarded]. now rewrite IH, orb_assoc.
Qed.

Lemma pass_guarded (finding : Finding) (e : Env W) :
  startsWithSearch (snd (iteration repoName lowerFiles finding e)) = true /\
  snd (iteration repoName lowerFiles finding e) <> [] /\
  unguarded None (snd (iteration repoName lowerFiles finding e)) = false.
Proof.
  pass_cases e;
    cbn [snd app startsWithSearch isSearch unguarded unguardedCall issue_key];
    rewrite ?String.eqb_refl, ?recoveryEvents_unguarded;
    repeat split; try reflexivity; discriminate.
Qed.

Lemma processFinding_guarded (fuel : nat) (finding : Finding) (e e1 : Env W)
    (r : result unit) (t : list Event) :
  processFinding repoName lowerFiles fuel finding e = Some (r, e1, t) ->
  startsWithSearch t = true /\ t <> [] /\ unguarded None t = false.
Proof.
  revert e e1 r t. induction fuel as [| fuel IH]; intros e e1 r t Hrun;
    [discriminate |].
  rewrite processFinding_step in Hrun.
  pose proof (pass_guarded finding e) as [Hstart [Hne Hguard]].
  destruct (iteration repoName lowerFiles finding e) as [[[step | err] e2] t2];
    cbn [snd] in *.
  - destruct step; try (injection Hrun as _ _ <-; auto).
    destruct (processFinding repoName lowerFiles fuel finding e2)
      as [[[r3 e3] t3] |] eqn:Hnext; [| discriminate].
    cbn [after] in Hrun. injection Hrun as _ _ <-.
    apply IH in Hnext. destruct Hnext as [Hstart3 [_ Hguard3]].
    split; [| split].
    + destruct t2; [contradiction | exact Hstart].
    + destruct t2; [contradiction | discriminate].
    + now rewrite unguarded_app, Hguard, Hguard3.
  - injection Hrun as _ _ <-. auto.
Qed.

(** X9: along a run, no ticket is created unless the call right before
    was a search, for that project and that summary, that found nothing;
    and no ticket is updated unless the call right before was a search
    whose first issue is the one updated. *)
Theorem writes_follow_their_search (fuel : nat) (findings : list Finding)
    (e e1 : Env W) (r : result unit) (t : list Event) :
  reconcile repoName lowerFiles fuel findings e = Some (r, e1, t) ->
  unguarded None t = false.
Proof.
  intros Hrun.
  enough (Hboth : startsWithSearch t = true /\ unguarded None t = false)
    by apply Hboth.
  revert e e1 r t Hrun.
  induction findings as [| finding others IH]; intros e e1 r t Hrun.
  - injection Hrun as _ _ <-. split; reflexivity.
  - rewrite reconcile_step in Hrun.
    destruct (processFinding repoName lowerFiles fuel finding e)
      as [[[[u | err] e2] t2] |] eqn:Hfirst; [| | discriminate];
      apply processFinding_guarded in Hfirst;
      destruct Hfirst as [Hstart [Hne Hguard]].
    + destruct (reconcile repoName lowerFiles fuel others e2)
        as [[[r3 e3] t3] |] eqn:Hrest; [| discriminate].
      cbn [after] in Hrun. injection Hrun as _ _ <-.
      apply IH in Hrest. destruct Hrest as [Hstart3 Hguard3]. split.
      * destruct t2; [contradiction | exact Hstart].
      * now rewrite unguarded_app, Hguard, Hguard3.
    + injection Hrun as _ _ <-. auto.
Qed.

Lemma count_app (p : Event -> bool) (t1 t2 : list Event) :
  count p (t1 ++ t2) = count p t1 + count p t2.
Proof. unfold count. now rewrite filter_app, length_app. Qed.

Lemma pass_counts (finding : Finding) (e : Env W) :
  let '(r, _, t) := iteration repoName lowerFiles finding e in
  count isSearch t = 1 /\ count isWrite t <= 1 /\
  count isQuestion t = match r with Ok Again => 1 | _ => 0 end.
Proof.
  pass_cases e; unfold count; cbn [app filter isSearch isWrite isQuestion];
    rewrite ?recoveryEvents_filter by reflexivity;
    cbn [filter isSearch isWrite isQuestion length]; repeat split; lia.
Qed.

Lemma processFinding_counts (fuel : nat) (finding : Finding) (e e1 : Env W)
    (r : result unit) (t : list Event) :
  processFinding repoName lowerFiles fuel finding e = Some (r, e1, t) ->
  count isSearch t = S (count isQuestion t) /\ count isWrite t <= count isSearch t.
Proof.
  revert e e1 r t. induction fuel as [| fuel IH]; intros e e1 r t Hrun;
    [discriminate |].
  rewrite processFinding_step in Hrun.
  pose proof (pass_counts finding e) as Hpass.
  destruct (iteration repoName lowerFiles finding e) as [[[step | err] e2] t2].
  - destruct Hpass as [Hs [Hw Hq]].
    destruct step; try (injection Hrun as _ _ <-; lia).
    destruct (processFinding repoName lowerFiles fuel finding e2)
      as [[[r3 e3] t3] |] eqn:Hnext; [| discriminate].
    cbn [after] in Hrun. injection Hrun as _ _ <-.
    apply IH in Hnext. rewrite !count_app. lia.
  - destruct Hpass as [Hs [Hw Hq]]. injection Hrun as _ _ <-. lia.
Qed.

(** X10: in a run that ends normally, the number of searches is the
    number of findings plus the number of times the operator was asked
    for a project: each finding is searched once, and once more after each
    answer, never otherwise.  In any run that ends, there are at most as
    many creates and updates as searches. *)
Theorem searches_are_findings_plus_prompts (fuel : nat) (findings : list Finding)
    (e e1 : Env W) (r : result unit) (t : list Event) :
  reconcile repoName lowerFiles fuel findings e = Some (r, e1, t) ->
  count isWrite t <= count isSearch t /\
  match r with
  | Ok _ => count isSearch t = length findings + count isQuestion t
  | Throw _ => count isSearch t <= length findings + count isQuestion t
  end.
Proof.
  revert e e1 r t.
  induction findings as [| finding others IH]; intros e e1 r t Hrun.
  - injection Hrun as <- _ <-. cbn. lia.
  - rewrite reconcile_step in Hrun.
    destruct (processFinding repoName lowerFiles fuel finding e)
      as [[[[u | err] e2] t2] |] eqn:Hfirst; [| | discriminate];
      apply processFinding_counts in Hfirst; destruct Hfirst as [Hs Hw].
    + destruct (reconcile repoName lowerFiles fuel others e2)
        as [[[r3 e3] t3] |] eqn:Hrest; [| discriminate].
      cbn [after] in Hrun. injection Hrun as <- _ <-.
      apply IH in Hrest. destruct Hrest as [Hw3 Hs3].
      rewrite !count_app. cbn [length]. destruct r3; lia.
    + injection Hrun as <- _ <-. cbn [length]. lia.
Qed.

(** X11: when the list of projects cannot be fetched, the operator is not
    asked and the run ends there: the console reports the message of the
    fetch failure, then, as the unexpected error, the message of the error
    that had triggered the recovery; the remaining findings are not
    attempted. *)
Theorem failed_project_fetch_ends_run (fuel : nat) (finding : Finding)
    (rest : list Finding) (e e1 : Env W) (err projErr : JsError)
    (t1 : list Event) (w2 : W) :
  tryBlock repoName lowerFiles finding e = (Throw err, e1, t1) ->
  isProjectError err = true ->
  getProjects (world e1) = (Throw projErr, w2) ->
  reconcileStage (S fuel) repoName lowerFiles (finding :: rest) e =
    Some (withWorld e1 w2,
          EvConsole (FoundIssues (S (length rest))) ::
          t1 ++
          [EvConsole (InvalidProjectKey (JIRA_PROJECT_KEY e1));
           EvConsole FetchingProjects;
           EvProjects (Throw projErr);
           EvConsole (ErrorFetchingProjects (message projErr));
           EvConsole (UnexpectedError (message err));
           EvClose]).
Proof.
  intros Htry Hproj Hfetch. unfold reconcileStage.
  rewrite reconcile_step, processFinding_step, iteration_run, Htry,
    catchBlock_run, Hproj, recover_run, Hfetch.
  cbn [finish length]. rewrite <- app_comm_cons, <- app_assoc. reflexivity.
Qed.

End Calls.

(** The search fails on the project and the project list cannot be
    fetched for lack of credentials. *)
Lemma failed_project_fetch_ends_run_witness :
  option_map snd
    (reconcileStage 1 Replay.repo [] Replay.threeFindings
       (Scripted.start "DOT"
          (Replay.script [Throw Replay.projectRequired] [] []
             [Throw Replay.unauthorized] [])))
  = Some [EvConsole (FoundIssues 3);
          EvSearch (jql "DOT" "Missing README in o/r") (Throw Replay.projectRequired);
          EvConsole (InvalidProjectKey "DOT");
          EvConsole FetchingProjects;
          EvProjects (Throw Replay.unauthorized);
          EvConsole (ErrorFetchingProjects (Some "Request failed with status code 401"));
          EvConsole (UnexpectedError (Some "A valid project is required"));
          EvClose].
Proof.
  rewrite (failed_project_fetch_ends_run Replay.repo [] 0
             (readmeFinding Replay.repo)
             [licenseFinding Replay.repo; workflowsFinding Replay.repo]
             (Scripted.start "DOT"
                (Replay.script [Throw Replay.projectRequired] [] []
                   [Throw Replay.unauthorized] []))
             (Scripted.start "DOT"
                (Replay.script [] [] [] [Throw Replay.unauthorized] []))
             Replay.projectRequired Replay.unauthorized
             [EvSearch (jql "DOT" "Missing README in o/r")
                (Throw Replay.projectRequired)]
             (Replay.script [] [] [] [] [])); reflexivity.
Defined.

(** The run in which the second create fails on the project: every create
    follows its own empty search. *)
Lemma writes_follow_their_search_witness :
  exists r e1 t,
    reconcile Replay.repo [] 2 Replay.threeFindings Replay.replaced = Some (r, e1, t) /\
    unguarded None t = false.
Proof.
  assert (Hrun : exists r e1 t,
            reconcile Replay.repo [] 2 Replay.threeFindings Replay.replaced
              = Some (r, e1, t))
    by (eexists _, _, _; cbv; reflexivity).
  destruct Hrun as [r [e1 [t Hrun]]]. exists r, e1, t. split; [exact Hrun |].
  exact (writes_follow_their_search Replay.repo [] 2 Replay.threeFindings
           Replay.replaced e1 r t Hrun).
Defined.

(** The same run: three findings and one answer, four searches. *)
Lemma searches_are_findings_plus_prompts_witness :
  exists e1 t,
    reconcile Replay.repo [] 2 Replay.threeFindings Replay.replaced
      = Some (Ok tt, e1, t) /\
    count isSearch t = length Replay.threeFindings + count isQuestion t.
Proof.
  assert (Hrun : exists e1 t,
            reconcile Replay.repo [] 2 Replay.threeFindings Replay.replaced
              = Some (Ok tt, e1, t))
    by (eexists _, _; cbv; reflexivity).
  destruct Hrun as [e1 [t Hrun]]. exists e1, t. split; [exact Hrun |].
  exact (proj2 (searches_are_findings_plus_prompts Replay.repo [] 2
                  Replay.threeFindings Replay.replaced e1 (Ok tt) t Hrun)).
Defined.

(** ** The inspection as a whole (lines 80-230) *)

Section Inspection.

Context {W : Type} `{Services W}.

Lemma detectStage_run (repoName : string) (e : Env W) :
  detectStage repoName e =
  match getRepoRootFiles repoName (world e) with
  | (Throw error, w1) =>
      (Throw error, withWorld e w1, [EvRootFiles repoName (Throw error)])
  | (Ok rootFiles, w1) =>
      match getRepoDirectoryFiles repoName ".github/workflows" w1 with
      | (Throw error, w2) =>
          (Throw error, withWorld e w2,
           firstn 4 (detectEvents repoName rootFiles []) ++
           [EvDirFiles repoName ".github/workflows" (Throw error)])
      | (Ok workflowFiles, w2) =>
          (Ok (map Js.toLowerCase rootFiles,
               detect repoName rootFiles workflowFiles),
           withWorld e w2, detectEvents repoName rootFiles workflowFiles)
      end
  end.
Proof.
  unfold detectStage, bind, await, reportCheck, console, ret.
  destruct (getRepoRootFiles repoName (world e)) as [[rootFiles | error] w1];
    [| reflexivity].
  cbn [world withWorld JIRA_PROJECT_KEY].
  destruct (getRepoDirectoryFiles repoName ".github/workflows" w1)
    as [[workflowFiles | error] w2]; cbn [world withWorld JIRA_PROJECT_KEY app].
  - unfold detect, detectEvents. cbn [app]. rewrite <- !app_assoc. reflexivity.
  - reflexivity.
Qed.

Lemma detectEvents_quiet (repoName : string) (rootFiles workflowFiles : list string) :
  existsb isJiraCall (detectEvents repoName rootFiles workflowFiles) = false /\
  existsb isClose (detectEvents repoName rootFiles workflowFiles) = false.
Proof. split; reflexivity. Qed.

(** X12: when nothing is missing, the script contacts the ticket store
    not at all: after the four checks it prints that the repository is
    healthy and closes the prompt, whatever the project key and however
    many passes are allowed. *)
Theorem healthy_repository_files_nothing (fuel : nat) (repoName : string)
    (e : Env W) (rootFiles workflowFiles : list string) (w1 w2 : W) :
  getRepoRootFiles repoName (world e) = (Ok rootFiles, w1) ->
  getRepoDirectoryFiles repoName ".github/workflows" w1 = (Ok workflowFiles, w2) ->
  detect repoName rootFiles workflowFiles = [] ->
  inspectRepo fuel repoName e =
    Some (withWorld e w2,
          detectEvents repoName rootFiles workflowFiles ++
          [EvConsole NoIssuesFound; EvClose]) /\
  existsb isJiraCall
    (detectEvents repoName rootFiles workflowFiles ++
     [EvConsole NoIssuesFound; EvClose]) = false.
Proof.
  intros Hroot Hflows Hnone. unfold inspectRepo.
  rewrite detectStage_run, Hroot, Hflows, Hnone. cbn [reconcileStage finish app].
  split; [reflexivity |].
  rewrite existsb_app,
    (proj1 (detectEvents_quiet repoName rootFiles workflowFiles)). reflexivity.
Qed.

(** X13: when the listing of the workflow directory fails, the findings
    already made by the first three checks are dropped: the error is
    reported as unexpected, the prompt is closed, and the ticket store is
    not contacted. *)
Theorem failed_workflow_listing_files_nothing (fuel : nat) (repoName : string)
    (e : Env W) (rootFiles : list string) (error : JsError) (w1 w2 : W) :
  getRepoRootFiles repoName (world e) = (Ok rootFiles, w1) ->
  getRepoDirectoryFiles repoName ".github/workflows" w1 = (Throw error, w2) ->
  exists t,
    inspectRepo fuel repoName e = Some (withWorld e w2, t) /\
    existsb isJiraCall t = false /\
    outcomes t = [] /\
    exists before,
      t = before ++ [EvConsole (UnexpectedError (message error)); EvClose].
Proof.
  intros Hroot Hflows. unfold inspectRepo.
  rewrite detectStage_run, Hroot, Hflows. cbn [finish].
  eexists. split; [reflexivity |]. split; [reflexivity |]. split.
  - unfold outcomes, detectEvents. cbn [firstn app flat_map outcomeOf].
    destruct (readmeAbsent _), (licenseAbsent _), (gitignoreAbsent _); reflexivity.
  - eexists. reflexivity.
Qed.

End Inspection.

(** Everything is there: no ticket call. *)
Lemma healthy_repository_files_nothing_witness :
  existsb isJiraCall
    (detectEvents "o/r" ["README.md"; "LICENSE"; ".gitignore"] ["ci.yml"] ++
     [EvConsole NoIssuesFound; EvClose]) = false.
Proof.
  refine (proj2 (healthy_repository_files_nothing 0 "o/r"
            (Desk.start (Desk.desk (Ok []) (Ok Desk.granted)
                           ["README.md"; "LICENSE"; ".gitignore"] ["ci.yml"] []))
            ["README.md"; "LICENSE"; ".gitignore"] ["ci.yml"] _ _ _ _ _));
    reflexivity.
Defined.

(** The README is missing, and the workflow directory cannot be listed:
    nothing is filed. *)
Lemma failed_workflow_listing_files_nothing_witness :
  exists e1 t,
    inspectRepo 1 "o/r"
      (Scripted.start "DOT"
         {| Scripted.rootListing := Ok ["app.js"];
            Scripted.workflowListing := Throw Replay.unauthorized;
            Scripted.searchResults := []; Scripted.updateResults := [];
            Scripted.createResults := []; Scripted.projectResults := [];
            Scripted.answers := [] |}) = Some (e1, t) /\
    existsb isJiraCall t = false /\ outcomes t = [].
Proof.
  edestruct (failed_workflow_listing_files_nothing 1 "o/r"
               (Scripted.start "DOT"
                  {| Scripted.rootListing := Ok ["app.js"];
                     Scripted.workflowListing := Throw Replay.unauthorized;
                     Scripted.searchResults := []; Scripted.updateResults := [];
                     Scripted.createResults := []; Scripted.projectResults := [];
                     Scripted.answers := [] |}))
    as [t [Hrun [Hquiet [Hout _]]]]; [reflexivity | reflexivity |].
  eexists _, t. split; [exact Hrun |]. split; assumption.
Defined.

(** ** The whole script (lines 27-231) *)

Section Whole.

Context {W : Type} `{Services W} `{RepoServices W}.

Lemma pass_no_close (repoName : string) (lowerFiles : list string)
    (finding : Finding) (e : Env W) :
  existsb isClose (snd (iteration repoName lowerFiles finding e)) = false.
Proof.
  pass_cases e; cbn [snd app existsb isClose orb];
    try reflexivity;
    apply existsb_filter_nil; now rewrite recoveryEvents_filter.
Qed.

Lemma processFinding_no_close (repoName : string) (lowerFiles : list string)
    (fuel : nat) (finding : Finding) (e e1 : Env W) (r : result unit)
    (t : list Event) :
  processFinding repoName lowerFiles fuel finding e = Some (r, e1, t) ->
  existsb isClose t = false.
Proof.
  revert e e1 r t. induction fuel as [| fuel IH]; intros e e1 r t Hrun;
    [discriminate |].
  rewrite processFinding_step in Hrun.
  pose proof (pass_no_close repoName lowerFiles finding e) as Hpass.
  destruct (iteration repoName lowerFiles finding e) as [[[step | err] e2] t2];
    cbn [snd] in Hpass.
  - destruct step; try (injection Hrun as _ _ <-; exact Hpass).
    destruct (processFinding repoName lowerFiles fuel finding e2)
      as [[[r3 e3] t3] |] eqn:Hnext; [| discriminate].
    cbn [after] in Hrun. injection Hrun as _ _ <-.
    apply IH in Hnext. now rewrite existsb_app, Hpass, Hnext.
  - injection Hrun as _ _ <-. exact Hpass.
Qed.

Lemma reconcile_no_close (repoName : string) (lowerFiles : list string)
    (fuel : nat) (findings : list Finding) (e e1 : Env W) (r : result unit)
    (t : list Event) :
  reconcile repoName lowerFiles fuel findings e = Some (r, e1, t) ->
  existsb isClose t = false.
Proof.
  revert e e1 r t.
  induction findings as [| finding others IH]; intros e e1 r t Hrun.
  - injection Hrun as _ _ <-. reflexivity.
  - rewrite reconcile_step in Hrun.
    destruct (processFinding repoName lowerFiles fuel finding e)
      as [[[[u | err] e2] t2] |] eqn:Hfirst; [| | discriminate];
      apply processFinding_no_close in Hfirst.
    + destruct (reconcile repoName lowerFiles fuel others e2)
        as [[[r3 e3] t3] |] eqn:Hrest; [| discriminate].
      cbn [after] in Hrun. injection Hrun as _ _ <-.
      apply IH in Hrest. now rewrite existsb_app, Hfirst, Hrest.
    + injection Hrun as _ _ <-. exact Hfirst.
Qed.

Lemma finish_closes (r : result unit) (e : Env W) (t : list Event) :
  existsb isClose t = false ->
  exists before,
    snd (finish (r, e, t)) = before ++ [EvClose] /\
    existsb isClose before = false.
Proof.
  intros Hno. destruct r as [u | error]; cbn [finish snd].
  - exists t. split; [reflexivity | exact Hno].
  - exists (t ++ [EvConsole (UnexpectedError (message error))]).
    split; [now rewrite <- app_assoc |].
    now rewrite existsb_app, Hno.
Qed.

(** The events from line 80 on end with closing the prompt, which happens
    there once. *)
Lemma inspectRepo_closes_once (fuel : nat) (repoName : string) (e e1 : Env W)
    (t : list Event) :
  inspectRepo fuel repoName e = Some (e1, t) ->
  exists before, t = before ++ [EvClose] /\ existsb isClose before = false.
Proof.
  unfold inspectRepo. rewrite detectStage_run.
  destruct (getRepoRootFiles repoName (world e)) as [[rootFiles | error] w1].
  - destruct (getRepoDirectoryFiles repoName ".github/workflows" w1)
      as [[workflowFiles | error] w2].
    + pose proof (proj2 (detectEvents_quiet repoName rootFiles workflowFiles))
        as Hdetect.
      unfold reconcileStage.
      destruct (detect repoName rootFiles workflowFiles) as [| f fs].
      * cbn [finish]. intros Heq. injection Heq as _ <-.
        exists (detectEvents repoName rootFiles workflowFiles ++
                [EvConsole NoIssuesFound]).
        split; [now rewrite <- app_assoc |].
        now rewrite existsb_app, Hdetect.
      * destruct (reconcile repoName (map Js.toLowerCase rootFiles) fuel (f :: fs)
                    (withWorld e w2)) as [[[r e2] t2] |] eqn:Hrun; [| discriminate].
        apply reconcile_no_close in Hrun.
        destruct (finish_closes r e2 (EvConsole (FoundIssues (length (f :: fs))) :: t2))
          as [before [Hlast Hno]]; [exact Hrun |].
        destruct (finish (r, e2, EvConsole (FoundIssues (length (f :: fs))) :: t2))
          as [e3 t3].
        cbn [snd] in Hlast. subst t3.
        intros Heq. injection Heq as _ <-.
        exists (detectEvents repoName rootFiles workflowFiles ++ before).
        split; [rewrite <- app_assoc; reflexivity |].
        now rewrite existsb_app, Hno, Hdetect.
    + cbn [finish]. intros Heq. injection Heq as _ <-.
      exists ((firstn 4 (detectEvents repoName rootFiles []) ++
               [EvDirFiles repoName ".github/workflows" (Throw error)]) ++
              [EvConsole (UnexpectedError (message error))]).
      split; [rewrite <- !app_assoc; reflexivity |].
      unfold detectEvents. cbn. reflexivity.
  - cbn [finish]. intros Heq. injection Heq as _ <-.
    exists [EvRootFiles repoName (Throw error);
            EvConsole (UnexpectedError (message error))].
    split; reflexivity.
Qed.

Lemma repoLines_only_console (p : TopEvent -> bool) (index : nat) (repos : list Repo) :
  (forall line, p (TopConsole line) = false) ->
  existsb p (repoLines index repos) = false.
Proof.
  intros Hp. revert index. induction repos as [| r repos IH]; intros index;
    [reflexivity |].
  cbn [repoLines existsb]. now rewrite Hp, IH.
Qed.

(** Choosing the repository prints and asks, and does nothing else. *)
Lemma chooseRepo_only_asks (p : TopEvent -> bool) (repos : list Repo) (w : W) :
  (forall line, p (TopConsole line) = false) ->
  (forall q a, p (Inner (EvQuestion q a)) = false) ->
  existsb p (snd (chooseRepo repos w)) = false.
Proof.
  intros Hline Hask. unfold chooseRepo. destruct repos as [| r repos].
  - destruct (askQuestion enterPrompt w) as [answer w1]. cbn [snd existsb].
    now rewrite Hline, Hask.
  - destruct (askQuestion selectPrompt w) as [answer w1]. cbn [snd existsb].
    rewrite Hline, !existsb_app, (repoLines_only_console p _ _ Hline).
    cbn [existsb orb]. rewrite Hask.
    destruct (15 <? length (r :: repos)); cbn [existsb]; now rewrite ?Hline.
Qed.

Lemma banner_only_console (p : TopEvent -> bool) (key : string) :
  (forall line, p (TopConsole line) = false) ->
  existsb p (banner key) = false.
Proof. intros Hline. unfold banner. cbn [existsb]. now rewrite !Hline. Qed.

(** X14: a name that fails the format check ends the script before any
    access check: after the choice the script prints the format error and
    closes the prompt, explicitly and once more on the way out; it neither
    checks access, nor lists files, nor contacts the ticket store. *)
Theorem invalid_name_stops_before_access (fuel : nat) (e : Env W)
    (repos : list Repo) (w1 w2 : W) (repoName : string) (asked : list TopEvent) :
  listAccessibleRepos (world e) = (Ok repos, w1) ->
  chooseRepo repos w1 = (repoName, w2, asked) ->
  validRepoName repoName = false ->
  main fuel e =
    Some (withWorld e w2,
          (banner (JIRA_PROJECT_KEY e) ++ TopRepos (Ok repos) :: asked) ++
          [TopConsole InvalidFormat; Inner EvClose; Inner EvClose]) /\
  existsb reachesBeyondChoice
    ((banner (JIRA_PROJECT_KEY e) ++ TopRepos (Ok repos) :: asked) ++
     [TopConsole InvalidFormat; Inner EvClose; Inner EvClose]) = false.
Proof.
  intros Hlist Hchoose Hinvalid. unfold main.
  rewrite Hlist, Hchoose, Hinvalid. cbn [negb]. split; [reflexivity |].
  pose proof (chooseRepo_only_asks reachesBeyondChoice repos w1
                (fun _ => eq_refl) (fun _ _ => eq_refl)) as Hasked.
  rewrite Hchoose in Hasked. cbn [snd] in Hasked.
  rewrite !existsb_app. cbn [existsb].
  rewrite Hasked, (banner_only_console reachesBeyondChoice (JIRA_PROJECT_KEY e)
                  (fun _ => eq_refl)).
  reflexivity.
Qed.

(** X15: when access to the chosen repository is denied, the script
    prints the status and closes the prompt; it lists no file and contacts
    the ticket store not at all. *)
Theorem denied_access_inspects_nothing (fuel : nat) (e : Env W)
    (repos : list Repo) (w1 w2 w3 : W) (repoName : string)
    (asked : list TopEvent) (check : AccessCheck) :
  listAccessibleRepos (world e) = (Ok repos, w1) ->
  chooseRepo repos w1 = (repoName, w2, asked) ->
  validRepoName repoName = true ->
  checkRepoAccess repoName w2 = (Ok check, w3) ->
  accessible check = false ->
  exists t,
    main fuel e = Some (withWorld e w3, t) /\
    existsb inspects t = false /\
    exists before,
      t = before ++ [TopConsole (AccessDenied (access_error check));
                     Inner EvClose; Inner EvClose].
Proof.
  intros Hlist Hchoose Hvalid Hcheck Hdenied. unfold main.
  rewrite Hlist, Hchoose, Hvalid, Hcheck, Hdenied. cbn [negb].
  eexists. split; [reflexivity |]. split; [| eexists; reflexivity].
  pose proof (chooseRepo_only_asks inspects repos w1
                (fun _ => eq_refl) (fun _ _ => eq_refl)) as Hasked.
  rewrite Hchoose in Hasked. cbn [snd] in Hasked.
  rewrite !existsb_app. cbn [existsb].
  rewrite Hasked, (banner_only_console inspects (JIRA_PROJECT_KEY e)
                  (fun _ => eq_refl)).
  reflexivity.
Qed.

Lemma existsb_map_Inner (t : list Event) :
  existsb isInnerClose (map Inner t) = existsb isClose t.
Proof.
  induction t as [| ev t IH]; [reflexivity |].
  cbn [map existsb]. rewrite IH. destruct ev; reflexivity.
Qed.

Lemma last_of_three {A : Type} (l : list A) (a b c : A) :
  l ++ [a; b; c] = (l ++ [a; b]) ++ [c].
Proof. now rewrite <- app_assoc. Qed.

(** X16: whenever the script ends, closing the prompt is the last thing
    it does; and when the prompt had been closed before, which happens on
    the two early exits, no file was listed and the ticket store was not
    contacted. *)
Theorem prompt_closed_last (fuel : nat) (e e1 : Env W) (t : list TopEvent) :
  main fuel e = Some (e1, t) ->
  exists before,
    t = before ++ [Inner EvClose] /\
    (existsb isInnerClose before = true -> existsb inspects t = false).
Proof.
  unfold main.
  assert (Hbanner : forall p, (forall line, p (TopConsole line) = false) ->
            existsb p (banner (JIRA_PROJECT_KEY e)) = false)
    by (intros p Hp; now apply banner_only_console).
  generalize (banner (JIRA_PROJECT_KEY e)) Hbanner. intros start Hstart.
  assert (Hend : forall env trace,
            (exists before,
               trace = before ++ [Inner EvClose] /\
               (existsb isInnerClose before = true ->
                existsb inspects trace = false)) ->
            Some (env, trace) = Some (e1, t) ->
            exists before,
              t = before ++ [Inner EvClose] /\
              (existsb isInnerClose before = true -> existsb inspects t = false)).
  { intros env trace Htrace Heq. injection Heq as _ <-. exact Htrace. }
  destruct (listAccessibleRepos (world e)) as [[repos | error] w1].
  - pose proof (chooseRepo_only_asks isInnerClose repos w1
                  (fun _ => eq_refl) (fun _ _ => eq_refl)) as Hquiet.
    pose proof (chooseRepo_only_asks inspects repos w1
                  (fun _ => eq_refl) (fun _ _ => eq_refl)) as Hasked.
    destruct (chooseRepo repos w1) as [[repoName w2] asked]. cbn [snd] in *.
    destruct (validRepoName repoName); cbn [negb].
    + destruct (checkRepoAccess repoName w2) as [[check | error] w3].
      * destruct (accessible check); cbn [negb].
        -- destruct (inspectRepo fuel repoName (withWorld e w3))
             as [[e2 t2] |] eqn:Hin; [| discriminate].
           apply inspectRepo_closes_once in Hin.
           destruct Hin as [before [-> Hno]].
           apply Hend. eexists. split.
           ++ rewrite map_app. cbn [map]. rewrite app_comm_cons, app_assoc.
              reflexivity.
           ++ repeat first [rewrite existsb_app | progress cbn [existsb]].
              rewrite existsb_map_Inner, Hno, Hquiet,
                (Hstart isInnerClose (fun _ => eq_refl)).
              discriminate.
        -- apply Hend. eexists. split.
           ++ rewrite last_of_three. reflexivity.
           ++ intros _. repeat first [rewrite existsb_app | progress cbn [existsb]].
              now rewrite Hasked, (Hstart inspects (fun _ => eq_refl)).
      * apply Hend. eexists. split.
        -- unfold failed. rewrite last_of_three. reflexivity.
        -- repeat first [rewrite existsb_app | progress cbn [existsb]].
           rewrite Hquiet, (Hstart isInnerClose (fun _ => eq_refl)).
           discriminate.
    + apply Hend. eexists. split.
      * rewrite last_of_three. reflexivity.
      * intros _. repeat first [rewrite existsb_app | progress cbn [existsb]].
        now rewrite Hasked, (Hstart inspects (fun _ => eq_refl)).
  - apply Hend. eexists. split.
    + unfold failed. rewrite last_of_three. reflexivity.
    + repeat first [rewrite existsb_app | progress cbn [existsb]].
      rewrite (Hstart isInnerClose (fun _ => eq_refl)). discriminate.
Qed.

End Whole.

Lemma invalid_name_stops_before_access_witness :
  let e := Desk.start (Desk.desk (Ok Desk.sixteen) (Ok Desk.granted) [] [] ["17"]) in
  exists (w2 : Desk.World) (asked : list TopEvent),
    main 0 e =
      Some (withWorld e w2,
            (banner "DOT" ++ TopRepos (Ok Desk.sixteen) :: asked) ++
            [TopConsole InvalidFormat; Inner EvClose; Inner EvClose]) /\
    existsb reachesBeyondChoice
      ((banner "DOT" ++ TopRepos (Ok Desk.sixteen) :: asked) ++
       [TopConsole InvalidFormat; Inner EvClose; Inner EvClose]) = false.
Proof.
  cbv zeta. eexists _, _.
  eapply (invalid_name_stops_before_access 0
            (Desk.start (Desk.desk (Ok Desk.sixteen) (Ok Desk.granted) [] [] ["17"]))
            Desk.sixteen _ _ "17").
  - reflexivity.
  - cbv; reflexivity.
  - reflexivity.
Defined.

Lemma denied_access_inspects_nothing_witness :
  let e := Desk.start (Desk.desk (Ok []) (Ok Desk.denied) [] [] [" octo/site "]) in
  exists (w3 : Desk.World) (t : list TopEvent),
    main 0 e = Some (withWorld e w3, t) /\
    existsb inspects t = false /\
    exists before,
      t = before ++ [TopConsole (AccessDenied (Some "Not Found"));
                     Inner EvClose; Inner EvClose].
Proof.
  cbv zeta. eexists.
  eapply (denied_access_inspects_nothing 0
            (Desk.start (Desk.desk (Ok []) (Ok Desk.denied) [] [] [" octo/site "]))
            [] _ _ _ "octo/site" _ Desk.denied).
  - reflexivity.
  - cbv; reflexivity.
  - reflexivity.
  - cbv; reflexivity.
  - reflexivity.
Defined.

Lemma prompt_closed_last_witness :
  let e := Desk.start (Desk.desk (Ok Desk.sixteen) (Ok Desk.granted)
                         ["README.md"] [] ["16"]) in
  exists (e1 : Env Desk.World) (t before : list TopEvent),
    main 4 e = Some (e1, t) /\
    t = before ++ [Inner EvClose] /\
    (existsb isInnerClose before = true -> existsb inspects t = false).
Proof.
  cbv zeta.
  assert (Hrun : exists e1 t,
            main 4 (Desk.start (Desk.desk (Ok Desk.sixteen) (Ok Desk.granted)
                                  ["README.md"] [] ["16"])) = Some (e1, t))
    by (eexists _, _; cbv; reflexivity).
  destruct Hrun as [e1 [t Hrun]].
  destruct (prompt_closed_last 4 _ e1 t Hrun) as [before Hlast].
  exists e1, t, before. split; [exact Hrun | exact Hlast].
Defined.

(** ** Choosing a repository by number (lines 40-53) *)

Lemma repoLines_listed (repos : list Repo) (base i : nat) (r : Repo) :
  nth_error repos i = Some r ->
  In (TopConsole (RepoOption (base + i + 1) (full_name r) (repo_private r)))
    (repoLines base repos).
Proof.
  revert base i. induction repos as [| q repos IH]; intros base [| i] Hnth;
    try discriminate.
  - injection Hnth as ->. left. now rewrite Nat.add_0_r.
  - right. replace (base + S i + 1) with (S base + i + 1) by lia. now apply IH.
Qed.

Lemma nth_error_firstn_below {A : Type} (l : list A) (n i : nat) :
  i < n -> nth_error (firstn n l) i = nth_error l i.
Proof.
  revert n i. induction l as [| a l IH]; intros [| n] [| i] Hlt; try lia;
    try reflexivity.
  cbn. apply IH. lia.
Qed.

(** X17: every repository of the list can be picked by its number, also
    one past the fifteen that are displayed; for the first fifteen the
    number is the one printed next to the repository. *)
Theorem listed_number_selects_repo (repos : list Repo) (i : nat) (r : Repo) :
  nth_error repos i = Some r ->
  selectRepo repos (indexLabel (i + 1)) = full_name r /\
  (i < 15 ->
   In (TopConsole (RepoOption (i + 1) (full_name r) (repo_private r)))
     (repoLines 0 (firstn 15 repos))).
Proof.
  intros Hnth. split.
  - unfold selectRepo.
    rewrite (trim_unchanged _ (indexLabel_no_blank (i + 1))), parseInt_indexLabel.
    assert (Hlt : i < length repos) by (apply nth_error_Some; congruence).
    replace (0 <? Z.of_nat (i + 1))%Z with true by (symmetry; apply Z.ltb_lt; lia).
    replace (Z.of_nat (i + 1) <=? Z.of_nat (length repos))%Z with true
      by (symmetry; apply Z.leb_le; lia).
    cbn [andb]. replace (Z.to_nat (Z.of_nat (i + 1) - 1)) with i by lia.
    now rewrite Hnth.
  - intros Hshown. apply (repoLines_listed (firstn 15 repos) 0 i r).
    now rewrite nth_error_firstn_below.
Qed.

Lemma listed_number_selects_repo_witness :
  selectRepo Desk.sixteen (indexLabel 16) = "o/r16".
Proof.
  apply (listed_number_selects_repo Desk.sixteen 15 (Desk.repo "o/r16")).
  reflexivity.
Defined.

Lemma afterOwner_numeral (d : Decimal.uint) (seen : bool) :
  afterOwner seen (NilEmpty.string_of_uint d) = None.
Proof.
  revert seen. induction d; intros seen; cbn [NilEmpty.string_of_uint];
    try reflexivity; cbn; apply IHd.
Qed.

(** X18: a number that is zero or larger than the list picks no
    repository: the typed number itself becomes the name, and it fails the
    format check. *)
Theorem number_out_of_range_rejected (repos : list Repo) (n : nat) :
  n = 0 \/ length repos < n ->
  selectRepo repos (indexLabel n) = indexLabel n /\
  validRepoName (selectRepo repos (indexLabel n)) = false.
Proof.
  intros Hout.
  assert (Hsel : selectRepo repos (indexLabel n) = indexLabel n).
  { unfold selectRepo.
    rewrite (trim_unchanged _ (indexLabel_no_blank n)), parseInt_indexLabel.
    destruct Hout as [-> | Hlong]; [reflexivity |].
    replace (Z.of_nat n <=? Z.of_nat (length repos))%Z with false
      by (symmetry; apply Z.leb_gt; lia).
    now rewrite andb_false_r. }
  split; [exact Hsel |]. rewrite Hsel. unfold validRepoName, indexLabel.
  now rewrite afterOwner_numeral.
Qed.

Lemma number_out_of_range_rejected_witness :
  selectRepo Desk.sixteen (indexLabel 17) = indexLabel 17 /\
  validRepoName (selectRepo Desk.sixteen (indexLabel 17)) = false.
Proof.
  apply (number_out_of_range_rejected Desk.sixteen 17). right. cbn. lia.
Defined.
